(** * terramind-backend: the query templates, the Turf spatial processor and
      the place-name resolver of [src/lib/queryTemplates.ts]

    A shallow embedding of the TypeScript of [src/lib/queryTemplates.ts]
    (template matcher, parameter extraction, operation construction, the
    [TurfSpatialProcessor] and [SpatialUtils.findFeatureByName]), of the
    rest of the processor module (the PostGIS processor and the factory),
    of [SpatialAIEngine] ([src/lib/openai.ts]) and of the three routes that
    use them ([src/app/api]), followed by the facts proved about it.

    Conventions of the embedding.
    - A JavaScript string is a [string] whose characters are the code units
      U+0000..U+00FF; [toLowerCase], [trim] and the regular-expression classes
      are the ECMAScript ones restricted to that range.
    - A JavaScript number is a binary64 [float] (the kernel's primitive
      floats), so [distance * 1609.34] is the IEEE product.
    - A value of type [any] is a [value]: a primitive, a feature object, or
      a member inherited from [Object.prototype].  Feature property maps
      hold primitives.
    - An entry of a feature list is a feature object, never [null].
    - Geometry objects live in a store ([heap]) and a feature refers to its
      geometry by address, so that handing an input geometry to a result is
      visible as sharing.
    - The functions of the geometry library (turf) are parameters of the
      engine, and each of them may throw ([answer]).  What the library
      throws goes on to the caller of the engine, and from there to the
      [catch] of the route, except in [processWithin], whose calls stand in
      a [try]; [console.log] and the clock are not modelled.
    - The body of a request is what [req.json()] comes to: it may throw, or
      be [null].  An operation read from a request or from the reply of the
      language model is a [RawOperation.t]: each of [type], [parameters] and
      [layers] may be missing, and a member that is present has the type of
      the TypeScript interface.  The language model, the file system and
      [SpatialUtils.loadGeoJSONData] (which catches its own errors and then
      answers with no features) are parameters of the routes. *)

From Stdlib Require Import Floats ZArith Ascii String.
From stdpp Require Import gmap strings list fin_maps.

Set Warnings "-inexact-float".

(** ** JavaScript values *)

(** What is thrown: a [TypeError] of the language, an [Error] the module
    makes itself ([new Error(message)]), or whatever a call of the geometry
    library throws, kept apart from the module's own errors whatever its
    message is. *)
Inductive error : Type :=
  | TypeError
  | Error (message : string)
  | Library (thrown : string).

(** Outcome of a call that may throw. *)

Inductive outcome (A : Type) : Type :=
  | Returns (a : A)
  | Throws (e : error).
Arguments Returns {A} a.
Arguments Throws {A} e.

#[global] Instance outcome_ret : MRet outcome := fun A a => Returns a.

#[global] Instance outcome_bind : MBind outcome := fun A B k m =>
  match m with
  | Returns a => k a
  | Throws e => Throws e
  end.

Inductive prim : Type :=
  | PUndefined
  | PNull
  | PBool (b : bool)
  | PNum (x : float)
  | PStr (s : string).

(** Address of a geometry object. *)
Definition loc := positive.

Module Feature.
(** A GeoJSON feature as the code reads it: [feature.geometry] (absent,
    [null], or a reference to a geometry object) and
    [feature.properties] (absent, [null], or a property map). *)
Record t : Type := mk {
  geometry : option loc;
  properties : option (gmap string prim)
}.
End Feature.

(** A value of type [any]: a primitive, a feature, or a member every object
    inherits from [Object.prototype], read under its name (a function; for
    [__proto__] the prototype itself). *)
Inductive value : Type :=
  | VPrim (p : prim)
  | VFeature (f : Feature.t)
  | VInherited (name : string).

Definition undefined : value := VPrim PUndefined.
Definition num (x : float) : value := VPrim (PNum x).
Definition str (s : string) : value := VPrim (PStr s).

(** [obj.key] on a [Record<string, any>], for the keys the code names
    ([distance], [units], [targetGeometry], [minArea], [location], ...): a
    missing key reads [undefined]. *)
Definition get (m : gmap string value) (key : string) : value :=
  default undefined (m !! key).

(** The names every object inherits from [Object.prototype]. *)
Definition objectPrototype : list string :=
  ["constructor"; "hasOwnProperty"; "isPrototypeOf"; "propertyIsEnumerable";
   "toLocaleString"; "toString"; "valueOf"; "__defineGetter__";
   "__defineSetter__"; "__lookupGetter__"; "__lookupSetter__"; "__proto__"].

(** [obj[key]] for a key computed at run time: the object's own member,
    else the member inherited under that name, else [undefined]. *)
Definition member (m : gmap string value) (key : string) : value :=
  match m !! key with
  | Some v => v
  | None =>
      if existsb (String.eqb key) objectPrototype then VInherited key
      else undefined
  end.

(** The number of an integer, rounded to the nearest binary64. *)
Definition number_of_Z (z : Z) : float :=
  SF2Prim (binary_normalize prec emax z 0 false).

(** ** Strings *)

Definition code (c : ascii) : nat := nat_of_ascii c.

Definition between (lo hi : nat) (c : ascii) : bool :=
  (lo <=? code c) && (code c <=? hi).

Definition isDigit (c : ascii) : bool := between 48 57 c.

Definition isLetter (c : ascii) : bool := between 65 90 c || between 97 122 c.

(** [\s], and the characters [trim] removes: TAB, LF, VT, FF, CR, SP, NBSP. *)
Definition isSpace (c : ascii) : bool :=
  between 9 13 c || (code c =? 32) || (code c =? 160).

Definition lowerChar (c : ascii) : ascii :=
  if between 65 90 c || between 192 214 c || between 216 222 c
  then ascii_of_nat (code c + 32) else c.

Fixpoint toLowerCase (s : string) : string :=
  match s with
  | EmptyString => EmptyString
  | String c s' => String (lowerChar c) (toLowerCase s')
  end.

Fixpoint startsWith (s sub : string) : bool :=
  match sub, s with
  | EmptyString, _ => true
  | String _ _, EmptyString => false
  | String a sub', String b s' => Ascii.eqb a b && startsWith s' sub'
  end.

Fixpoint includes (s sub : string) : bool :=
  startsWith s sub ||
  match s with
  | EmptyString => false
  | String _ s' => includes s' sub
  end.

Fixpoint rev_string (acc s : string) : string :=
  match s with
  | EmptyString => acc
  | String c s' => rev_string (String c acc) s'
  end.

Definition endsWith (s sub : string) : bool :=
  startsWith (rev_string EmptyString s) (rev_string EmptyString sub).

Fixpoint trimStart (s : string) : string :=
  match s with
  | EmptyString => EmptyString
  | String c s' => if isSpace c then trimStart s' else s
  end.

Definition trim (s : string) : string :=
  rev_string EmptyString (trimStart (rev_string EmptyString (trimStart s))).

(** [s.slice(1, -1)] *)
Definition slice_1_m1 (s : string) : string :=
  match s with
  | EmptyString => EmptyString
  | String _ s' =>
      match rev_string EmptyString s' with
      | EmptyString => EmptyString
      | String _ r => rev_string EmptyString r
      end
  end.

(** Longest prefix of characters satisfying [p], and what follows it. *)
Fixpoint span (p : ascii -> bool) (s : string) : string * string :=
  match s with
  | EmptyString => (EmptyString, EmptyString)
  | String c s' =>
      if p c then let '(a, b) := span p s' in (String c a, b)
      else (EmptyString, s)
  end.

(** Strip the literal [word] from the front of [s], ignoring case (flag [i]). *)
Fixpoint literal (word s : string) : option string :=
  match word, s with
  | EmptyString, _ => Some s
  | String _ _, EmptyString => None
  | String a word', String b s' =>
      if Ascii.eqb (lowerChar a) (lowerChar b) then literal word' s' else None
  end.

(** The decimal digits of a [\d+] capture, as [parseInt] reads them. *)
Fixpoint digitsValue (acc : Z) (s : string) : Z :=
  match s with
  | EmptyString => acc
  | String c s' => digitsValue (10 * acc + Z.of_nat (code c - 48)) s'
  end.

Definition parseInt (digits : string) : float :=
  number_of_Z (digitsValue 0 digits).

(** ** Query templates *)

Module TemplateOperation.
(** The optional [spatialOperation] of a template. *)
Record t : Type := mk {
  type : string;
  parameters : gmap string value
}.
End TemplateOperation.

Module QueryTemplate.
(** [interface QueryTemplate].  The [sql] text of a template is read by no
    function of the module and is left out of the record. *)
Record t : Type := mk {
  pattern : string;
  description : string;
  layers : list string;
  operation : string;
  spatialOperation : option TemplateOperation.t
}.
End QueryTemplate.

Module SpatialOperation.
(** [interface SpatialOperation]; [type] is the string received at run
    time. *)
Record t : Type := mk {
  type : string;
  parameters : gmap string value;
  layers : list string
}.
End SpatialOperation.

Definition coastlineTemplate : QueryTemplate.t :=
  QueryTemplate.mk
    "coastline within {distance} miles of {location}"
    "Creates a buffer around coastline near a specific location"
    ["coastline"] "BUFFER"
    (Some (TemplateOperation.mk "BUFFER"
       (<["distance" := str "{distance}"]> (<["units" := str "miles"]> ∅)))).

Definition citiesTemplate : QueryTemplate.t :=
  QueryTemplate.mk
    "cities within {distance} miles of {location}"
    "Finds cities within a specified distance of a location"
    ["cities"] "WITHIN"
    (Some (TemplateOperation.mk "WITHIN"
       (<["distance" := str "{distance}"]>
        (<["units" := str "miles"]>
         (<["targetGeometry" := str "{location}"]> ∅))))).

Definition borderTemplate : QueryTemplate.t :=
  QueryTemplate.mk
    "states that border {state}"
    "Finds states that share a border with the specified state"
    ["states"] "TOUCHES"
    (Some (TemplateOperation.mk "TOUCHES"
       (<["targetState" := str "{state}"]> ∅))).

Definition riversTemplate : QueryTemplate.t :=
  QueryTemplate.mk
    "rivers that flow through {state}"
    "Finds rivers that intersect with the specified state"
    ["rivers"; "states"] "INTERSECTS"
    (Some (TemplateOperation.mk "INTERSECTS"
       (<["targetState" := str "{state}"]> ∅))).

Definition lakesTemplate : QueryTemplate.t :=
  QueryTemplate.mk
    "lakes larger than {area} square miles"
    "Finds lakes larger than the specified area"
    ["lakes"] "AREA_FILTER"
    (Some (TemplateOperation.mk "AREA_FILTER"
       (<["minArea" := str "{area}"]> (<["units" := str "square_miles"]> ∅)))).

Definition intersectionTemplate : QueryTemplate.t :=
  QueryTemplate.mk
    "intersection of {layer1} and {layer2}"
    "Finds the intersection between two spatial layers"
    ["{layer1}"; "{layer2}"] "INTERSECTS"
    (Some (TemplateOperation.mk "INTERSECTS"
       (<["layer1" := str "{layer1}"]> (<["layer2" := str "{layer2}"]> ∅)))).

Definition SPATIAL_QUERY_TEMPLATES : list QueryTemplate.t :=
  [ coastlineTemplate; citiesTemplate; borderTemplate;
    riversTemplate; lakesTemplate; intersectionTemplate ].

(** The body of the [for (const template of ...)] loop of
    [findMatchingTemplate].  [pattern] is computed and never read: every test
    is on the query alone, and each [return] hands back the template the loop
    happens to be at. *)
Fixpoint findMatchingTemplate_loop (normalizedQuery : string)
    (templates : list QueryTemplate.t) : option QueryTemplate.t :=
  match templates with
  | [] => None
  | template :: rest =>
      let pattern := toLowerCase (QueryTemplate.pattern template) in
      if includes normalizedQuery "states" &&
         (includes normalizedQuery "border" || includes normalizedQuery "borders")
      then Some template
      else if includes normalizedQuery "coastline" &&
         (includes normalizedQuery "within" || includes normalizedQuery "near") &&
         (includes normalizedQuery "miles" || includes normalizedQuery "mile")
      then Some template
      else if includes normalizedQuery "cities" &&
         (includes normalizedQuery "within" || includes normalizedQuery "near") &&
         (includes normalizedQuery "miles" || includes normalizedQuery "mile")
      then Some template
      else if includes normalizedQuery "rivers" &&
         (includes normalizedQuery "flow through" || includes normalizedQuery "through")
      then Some template
      else if includes normalizedQuery "lakes" &&
         (includes normalizedQuery "larger than" || includes normalizedQuery "bigger than")
      then Some template
      else if includes normalizedQuery "intersection" ||
         (includes normalizedQuery "intersect" && includes normalizedQuery "and")
      then Some template
      else findMatchingTemplate_loop normalizedQuery rest
  end.

Definition findMatchingTemplate (query : string) : option QueryTemplate.t :=
  let normalizedQuery := toLowerCase query in
  findMatchingTemplate_loop normalizedQuery SPATIAL_QUERY_TEMPLATES.

(** *** Parameter extraction

    [String.prototype.match] with a regular expression without the [g] flag
    returns the leftmost match; each [*_at] function below decides whether
    the expression matches at the front of its argument and returns capture
    group 1, and [leftmost] tries the positions from left to right. *)

Fixpoint leftmost (at_front : string -> option string) (s : string)
    : option string :=
  match at_front s with
  | Some capture => Some capture
  | None =>
      match s with
      | EmptyString => None
      | String _ s' => leftmost at_front s'
      end
  end.

Definition nonEmpty (s : string) : bool :=
  match s with EmptyString => false | String _ _ => true end.

(** [/(\d+)\s*miles?/i].  The greedy [\d+] and [\s*] never need to give
    characters back: what follows them must be the letter [m], which is
    neither a digit nor a space. *)
Definition distance_at (s : string) : option string :=
  let '(digits, rest) := span isDigit s in
  if nonEmpty digits then
    let '(_, rest') := span isSpace rest in
    match literal "mile" rest' with
    | Some _ => Some digits
    | None => None
    end
  else None.

(** [/(\d+)\s*square\s*miles?/i] *)
Definition area_at (s : string) : option string :=
  let '(digits, rest) := span isDigit s in
  if nonEmpty digits then
    let '(_, rest') := span isSpace rest in
    match literal "square" rest' with
    | Some rest'' =>
        let '(_, rest''') := span isSpace rest'' in
        match literal "mile" rest''' with
        | Some _ => Some digits
        | None => None
        end
    | None => None
    end
  else None.

Definition keyword (s : string) : option string :=
  match literal "of" s with
  | Some rest => Some rest
  | None =>
      match literal "near" s with
      | Some rest => Some rest
      | None => literal "through" s
      end
  end.

Fixpoint lastChar (s : string) : string :=
  match s with
  | EmptyString => EmptyString
  | String c EmptyString => s
  | String _ s' => lastChar s'
  end.

(** [/(?:of|near|through)\s+([A-Za-z\s]+)/i].  The greedy [\s+] first takes
    every space; the group then takes the longest run of letters and spaces.
    When no letter follows the spaces, [\s+] gives its last space back (if it
    has two or more) and the group is that single space. *)
Definition location_at (s : string) : option string :=
  match keyword s with
  | None => None
  | Some rest =>
      let '(spaces, rest') := span isSpace rest in
      if nonEmpty spaces then
        let '(group, _) := span (fun c => isLetter c || isSpace c) rest' in
        if nonEmpty group then Some group
        else if (2 <=? String.length spaces)%nat then Some (lastChar spaces)
        else None
      else None
  end.

Definition extractParameters (query : string) (template : QueryTemplate.t)
    : gmap string value :=
  let params : gmap string value := ∅ in
  let params :=
    match leftmost distance_at query with
    | Some digits => <["distance" := num (parseInt digits)]> params
    | None => params
    end in
  let params :=
    match leftmost location_at query with
    | Some group => <["location" := str (trim group)]> params
    | None => params
    end in
  let params :=
    match leftmost area_at query with
    | Some digits => <["area" := num (parseInt digits)]> params
    | None => params
    end in
  params.

(** The placeholder test and replacement of [createSpatialOperation]:
    [params[paramName]] is read under a name computed from the template, so
    a name that [Object.prototype] defines reads the inherited member. *)
Definition fill (params : gmap string value) (v : value) : value :=
  match v with
  | VPrim (PStr s) =>
      if startsWith s "{" && endsWith s "}"
      then member params (slice_1_m1 s)
      else v
  | _ => v
  end.

Definition createSpatialOperation (template : QueryTemplate.t)
    (params : gmap string value) : option SpatialOperation.t :=
  match QueryTemplate.spatialOperation template with
  | None => None
  | Some spatialOperation =>
      Some (SpatialOperation.mk
              (TemplateOperation.type spatialOperation)
              (fill params <$> TemplateOperation.parameters spatialOperation)
              (QueryTemplate.layers template))
  end.

(** ** The spatial processor *)

Module Metadata.
Record t : Type := mk {
  operation : string;
  processingTime : float;
  engine : string
}.
End Metadata.

Module SpatialResult.
(** [interface SpatialResult]; [geometry] is whatever the processor stored
    there: a reference to a geometry object, or [undefined]. *)
Record t : Type := mk {
  geometry : option loc;
  properties : gmap string value;
  metadata : Metadata.t
}.
End SpatialResult.

(** [validOperations.includes(operation.type)] *)
Definition validOperations : list string :=
  ["BUFFER"; "WITHIN"; "TOUCHES"; "INTERSECTS"; "AREA_FILTER"; "UNION";
   "DIFFERENCE"].

Definition validateOperation (operation : SpatialOperation.t) : bool :=
  bool_decide (SpatialOperation.type operation ∈ validOperations).

(** The default of a destructuring pattern [{ x = d }]. *)
Definition defaulted (v d : value) : value :=
  match v with
  | VPrim PUndefined => d
  | _ => v
  end.

(** [v === s] for a string literal [s]. *)
Definition is_string (v : value) (s : string) : bool :=
  match v with
  | VPrim (PStr s') => String.eqb s' s
  | _ => false
  end.

(** Truthiness. *)
Definition truthy (v : value) : bool :=
  match v with
  | VFeature _ | VInherited _ => true
  | VPrim PUndefined | VPrim PNull => false
  | VPrim (PBool b) => b
  | VPrim (PNum x) => negb (x =? 0)%float && negb (is_nan x)
  | VPrim (PStr s) => nonEmpty s
  end.

(** [{ ...feature.properties }]: spreading [undefined] or [null] adds
    nothing. *)
Definition spread (properties : option (gmap string prim)) : gmap string value :=
  match properties with
  | Some m => VPrim <$> m
  | None => ∅
  end.

(** [feature.properties?.type || 'unknown'] *)
Definition original_type (feature : Feature.t) : value :=
  let v := match Feature.properties feature with
           | Some m => default PUndefined (m !! "type")
           | None => PUndefined
           end in
  if truthy (VPrim v) then VPrim v else str "unknown".

Definition meta (operation : string) : Metadata.t :=
  Metadata.mk operation 0%float "turf".

(** What the geometry library is handed: a primitive, or an object seen with
    the geometry its [geometry] field refers to. *)
Inductive arg (Geometry : Type) : Type :=
  | ArgPrim (p : prim)
  | ArgObject (g : option Geometry)
  | ArgInherited (name : string).
Arguments ArgPrim {Geometry} p.
Arguments ArgObject {Geometry} g.
Arguments ArgInherited {Geometry} name.

(** What a call of the geometry library comes to: an answer, or something
    thrown. *)
Inductive answer (A : Type) : Type :=
  | Answers (a : A)
  | Fails (thrown : string).
Arguments Answers {A} a.
Arguments Fails {A} thrown.

(** A call of the library from the module: what the library throws goes on
    to the caller, unless the call stands in a [try]. *)
Definition call {A : Type} (r : answer A) : outcome A :=
  match r with
  | Answers a => Returns a
  | Fails thrown => Throws (Library thrown)
  end.

(** What the processor calls and does not define: the contents of a GeoJSON
    geometry object, the functions of the geometry library, each of which
    may throw, and the [StringToNumber] of ECMAScript (used when a string
    meets [*] or a comparison with a number). *)
Class Turf : Type := {
  Geometry : Type;
  StringToNumber : string -> float;
  (** [turf.buffer(feature, radius, { units: 'meters' })]: the geometry of the
      buffered feature, [None] when the call yields [undefined]. *)
  turf_buffer : arg Geometry -> arg Geometry -> answer (option Geometry);
  (** [turf.distance(a, b)] in kilometres. *)
  turf_distance : arg Geometry -> arg Geometry -> answer float;
  turf_booleanTouches : arg Geometry -> arg Geometry -> answer bool;
  turf_booleanIntersects : arg Geometry -> arg Geometry -> answer bool;
  (** [turf.area(feature)] in square metres. *)
  turf_area : arg Geometry -> answer float;
  (** [turf.union(a, b)]: the geometry of the union feature, [None] when the
      call yields [null]. *)
  turf_union : arg Geometry -> arg Geometry -> answer (option Geometry)
}.

(** The store of geometry objects. *)
Abbreviation heap := (gmap loc Geometry).

Section Engine.

Context `{Turf}.

Definition arg_of_feature (h : heap) (feature : Feature.t) : arg Geometry :=
  ArgObject (Feature.geometry feature ≫= fun l => h !! l).

Definition arg_of_value (h : heap) (v : value) : arg Geometry :=
  match v with
  | VPrim p => ArgPrim p
  | VFeature f => arg_of_feature h f
  | VInherited name => ArgInherited name
  end.

(** [ToNumber] *)
Definition to_number (v : value) : float :=
  match v with
  | VPrim PUndefined => nan
  | VPrim PNull => 0
  | VPrim (PBool b) => if b then 1 else 0
  | VPrim (PNum x) => x
  | VPrim (PStr s) => StringToNumber s
  | VFeature _ | VInherited _ => nan
  end.

(** [units === 'miles' ? distance * 1609.34 : distance] *)
Definition to_meters (distance units : value) : value :=
  if is_string units "miles"
  then num (to_number distance * 1609.34)
  else distance.

(** [for (const feature of data) { ... results.push(...) ... }] for a body
    that may throw: the results pushed, in the order of the turns, or what
    the first failing turn throws. *)
Fixpoint for_each (step : Feature.t → outcome (list SpatialResult.t))
    (data : list Feature.t) : outcome (list SpatialResult.t) :=
  match data with
  | [] => Returns []
  | feature :: rest =>
      pushed ← step feature;
      results ← for_each step rest;
      Returns (pushed ++ results)
  end.

(** *** BUFFER *)

Definition bufferResult (feature : Feature.t) (geometry : loc)
    (distance units : value) : SpatialResult.t :=
  SpatialResult.mk (Some geometry)
    (<["original_type" := original_type feature]>
     (<["buffer_units" := units]>
      (<["buffer_distance" := distance]>
       (spread (Feature.properties feature)))))
    (meta "BUFFER").

(** The loop of [processBuffer]; the call of the library stands in no
    [try]. *)
Fixpoint processBuffer_loop (distance units bufferDistance : value)
    (data : list Feature.t) (h : heap)
    : outcome (list SpatialResult.t * heap) :=
  match data with
  | [] => Returns ([], h)
  | feature :: rest =>
      match Feature.geometry feature with
      | Some _ =>
          buffered ← call (turf_buffer (arg_of_feature h feature)
                                       (arg_of_value h bufferDistance));
          match buffered with
          | Some g =>
              let l := fresh (dom h) in
              '(results, h') ←
                processBuffer_loop distance units bufferDistance rest
                  (<[l := g]> h);
              Returns (bufferResult feature l distance units :: results, h')
          | None =>
              processBuffer_loop distance units bufferDistance rest h
          end
      | None => processBuffer_loop distance units bufferDistance rest h
      end
  end.

Definition processBuffer (operation : SpatialOperation.t)
    (data : list Feature.t) (h : heap)
    : outcome (list SpatialResult.t * heap) :=
  let distance := get (SpatialOperation.parameters operation) "distance" in
  let units :=
    defaulted (get (SpatialOperation.parameters operation) "units")
              (str "miles") in
  let bufferDistance := to_meters distance units in
  processBuffer_loop distance units bufferDistance data h.

(** *** WITHIN *)

Definition withinResult (feature : Feature.t) (distanceToTargetM : float)
    (searchDistance : value) : SpatialResult.t :=
  SpatialResult.mk (Feature.geometry feature)
    (<["within_distance" := searchDistance]>
     (<["distance_to_target" := num distanceToTargetM]>
      (spread (Feature.properties feature))))
    (meta "WITHIN").

(** One turn of the loop of [processWithin]: the results it pushes
    ([results.length] is read by the loop only to limit what it logs).  The
    call of the library stands in a [try] whose [catch] only logs. *)
Definition processWithin_step (h : heap) (targetGeometry searchDistance : value)
    (feature : Feature.t) : list SpatialResult.t :=
  if bool_decide (is_Some (Feature.geometry feature)) && truthy targetGeometry
  then
    match turf_distance (arg_of_feature h feature)
                        (arg_of_value h targetGeometry) with
    | Answers distanceToTargetKm =>
        let distanceToTargetM := (distanceToTargetKm * 1000)%float in
        if (distanceToTargetM <=? to_number searchDistance)%float
        then [withinResult feature distanceToTargetM searchDistance]
        else []
    | Fails _ => []
    end
  else [].

Definition processWithin (operation : SpatialOperation.t)
    (data : list Feature.t) (h : heap) : list SpatialResult.t :=
  let targetGeometry :=
    get (SpatialOperation.parameters operation) "targetGeometry" in
  let distance := get (SpatialOperation.parameters operation) "distance" in
  let units :=
    defaulted (get (SpatialOperation.parameters operation) "units")
              (str "miles") in
  let searchDistance := to_meters distance units in
  data ≫= processWithin_step h targetGeometry searchDistance.

(** *** TOUCHES and INTERSECTS *)

Definition flagResult (operation flag : string) (feature : Feature.t)
    : SpatialResult.t :=
  SpatialResult.mk (Feature.geometry feature)
    (<[flag := VPrim (PBool true)]> (spread (Feature.properties feature)))
    (meta operation).

Definition processTouches_step (h : heap) (targetGeometry : value)
    (feature : Feature.t) : outcome (list SpatialResult.t) :=
  if bool_decide (is_Some (Feature.geometry feature)) && truthy targetGeometry
  then
    touches ← call (turf_booleanTouches (arg_of_feature h feature)
                                        (arg_of_value h targetGeometry));
    Returns (if (touches : bool)
             then [flagResult "TOUCHES" "touches_target" feature]
             else [])
  else Returns [].

Definition processTouches (operation : SpatialOperation.t)
    (data : list Feature.t) (h : heap) : outcome (list SpatialResult.t) :=
  let targetGeometry :=
    get (SpatialOperation.parameters operation) "targetGeometry" in
  for_each (processTouches_step h targetGeometry) data.

Definition processIntersects_step (h : heap) (targetGeometry : value)
    (feature : Feature.t) : outcome (list SpatialResult.t) :=
  if bool_decide (is_Some (Feature.geometry feature)) && truthy targetGeometry
  then
    intersects ← call (turf_booleanIntersects (arg_of_feature h feature)
                                              (arg_of_value h targetGeometry));
    Returns (if (intersects : bool)
             then [flagResult "INTERSECTS" "intersects_target" feature]
             else [])
  else Returns [].

Definition processIntersects (operation : SpatialOperation.t)
    (data : list Feature.t) (h : heap) : outcome (list SpatialResult.t) :=
  let targetGeometry :=
    get (SpatialOperation.parameters operation) "targetGeometry" in
  for_each (processIntersects_step h targetGeometry) data.

(** *** AREA_FILTER *)

Definition areaResult (feature : Feature.t) (areaInSqMiles area : float)
    : SpatialResult.t :=
  SpatialResult.mk (Feature.geometry feature)
    (<["area_sq_meters" := num area]>
     (<["area_sq_miles" := num areaInSqMiles]>
      (spread (Feature.properties feature))))
    (meta "AREA_FILTER").

(** [areaInSqMiles >= minArea] is written with the operands exchanged. *)
Definition processAreaFilter_step (h : heap) (minArea : value)
    (feature : Feature.t) : outcome (list SpatialResult.t) :=
  if bool_decide (is_Some (Feature.geometry feature))
  then
    area ← call (turf_area (arg_of_feature h feature));
    let areaInSqMiles := (area / 2589988.110336)%float in
    Returns (if (to_number minArea <=? areaInSqMiles)%float
             then [areaResult feature areaInSqMiles area]
             else [])
  else Returns [].

Definition processAreaFilter (operation : SpatialOperation.t)
    (data : list Feature.t) (h : heap) : outcome (list SpatialResult.t) :=
  let minArea := get (SpatialOperation.parameters operation) "minArea" in
  for_each (processAreaFilter_step h minArea) data.

(** *** UNION *)

(** The body of [for (let i = 1; ...)]: [unioned] is a feature or the
    [null] a union may yield; a union feature gets a geometry object of its
    own. *)
Fixpoint processUnion_loop (unioned : value) (rest : list Feature.t)
    (h : heap) : outcome (value * heap) :=
  match rest with
  | [] => Returns (unioned, h)
  | feature :: rest' =>
      u ← call (turf_union (arg_of_value h unioned)
                           (arg_of_feature h feature));
      match u with
      | Some g =>
          let l := fresh (dom h) in
          processUnion_loop (VFeature (Feature.mk (Some l) (Some ∅))) rest'
            (<[l := g]> h)
      | None => processUnion_loop (VPrim PNull) rest' h
      end
  end.

(** [unioned.geometry] *)
Definition geometry_of (v : value) : outcome (option loc) :=
  match v with
  | VFeature u => Returns (Feature.geometry u)
  | VPrim PUndefined | VPrim PNull => Throws TypeError
  | VPrim _ | VInherited _ => Returns None
  end.

Definition processUnion (operation : SpatialOperation.t)
    (data : list Feature.t) (h : heap)
    : outcome (list SpatialResult.t * heap) :=
  if (length data <? 2)%nat
  then Throws (Error "Union operation requires at least 2 geometries")
  else
    match data with
    | [] => Throws TypeError
    | first :: rest =>
        '(unioned, h') ← processUnion_loop (VFeature first) rest h;
        geometry ← geometry_of unioned;
        Returns
          ([SpatialResult.mk geometry
              (<["feature_count" :=
                   num (number_of_Z (Z.of_nat (length data)))]>
               (<["operation" := str "UNION"]> ∅))
              (meta "UNION")], h')
    end.

(** *** DIFFERENCE *)

(** The loop over [subtractors] leaves at its first turn ([break]) without
    touching [result]; [!result] is false for a feature object. *)
Definition processDifference (operation : SpatialOperation.t)
    (data : list Feature.t) : outcome (list SpatialResult.t) :=
  if (length data <? 2)%nat
  then Throws (Error "Difference operation requires at least 2 geometries")
  else
    match data with
    | [] => Throws TypeError
    | base :: subtractors =>
        let result := base in
        Returns
          [SpatialResult.mk (Feature.geometry result)
             (<["original_count" :=
                  num (number_of_Z (Z.of_nat (length data)))]>
              (<["operation" := str "DIFFERENCE"]> ∅))
             (meta "DIFFERENCE")]
    end.

(** *** [processOperation] *)

Definition processOperation (operation : SpatialOperation.t)
    (data : list Feature.t) (h : heap)
    : outcome (list SpatialResult.t * heap) :=
  let type := SpatialOperation.type operation in
  if String.eqb type "BUFFER" then processBuffer operation data h
  else if String.eqb type "WITHIN"
  then Returns (processWithin operation data h, h)
  else if String.eqb type "TOUCHES"
  then results ← processTouches operation data h; Returns (results, h)
  else if String.eqb type "INTERSECTS"
  then results ← processIntersects operation data h; Returns (results, h)
  else if String.eqb type "AREA_FILTER"
  then results ← processAreaFilter operation data h; Returns (results, h)
  else if String.eqb type "UNION" then processUnion operation data h
  else if String.eqb type "DIFFERENCE"
  then results ← processDifference operation data; Returns (results, h)
  else Throws (Error ("Unsupported operation: " +:+ type)).

End Engine.

(** ** The place-name resolver *)

(** [feature.properties?.[key]?.toLowerCase()]: [undefined] when the map or
    the field is missing or [null]; a field that is not a string has no
    [toLowerCase] and the call throws. *)
Definition lowerField (key : string) (feature : Feature.t)
    : outcome (option string) :=
  match Feature.properties feature with
  | None => Returns None
  | Some m =>
      match m !! key with
      | None | Some PUndefined | Some PNull => Returns None
      | Some (PStr s) => Returns (Some (toLowerCase s))
      | Some (PBool _) | Some (PNum _) => Throws TypeError
      end
  end.

(** [features.find(predicate)] for a predicate that may throw. *)
Fixpoint array_find (predicate : Feature.t -> outcome bool) (features : list Feature.t)
    : outcome (option Feature.t) :=
  match features with
  | [] => Returns None
  | feature :: rest =>
      found ← predicate feature;
      if (found : bool) then Returns (Some feature) else array_find predicate rest
  end.

(** [country === 'united states' || country === 'usa'] *)
Definition isUS (country : option string) : bool :=
  match country with
  | Some c => String.eqb c "united states" || String.eqb c "usa"
  | None => false
  end.

(** [featureName === s] *)
Definition nameIs (featureName : option string) (s : string) : bool :=
  match featureName with
  | Some n => String.eqb n s
  | None => false
  end.

(** [featureName.includes(s)]: throws on an [undefined] name. *)
Definition nameIncludes (featureName : option string) (s : string)
    : outcome bool :=
  match featureName with
  | Some n => Returns (includes n s)
  | None => Throws TypeError
  end.

Definition exactUS (feature : Feature.t) : outcome bool :=
  featureName ← lowerField "NAME" feature;
  country ← lowerField "SOV0NAME" feature;
  Returns (nameIs featureName "san francisco" && isUS country).

Definition partialUS (normalizedName : string) (feature : Feature.t)
    : outcome bool :=
  featureName ← lowerField "NAME" feature;
  country ← lowerField "SOV0NAME" feature;
  inName ← nameIncludes featureName normalizedName;
  Returns (inName && isUS country).

Definition exact (normalizedName : string) (feature : Feature.t)
    : outcome bool :=
  featureName ← lowerField "NAME" feature;
  Returns (nameIs featureName normalizedName).

Definition partialAny (normalizedName : string) (feature : Feature.t)
    : outcome bool :=
  featureName ← lowerField "NAME" feature;
  nameIncludes featureName normalizedName.

(** The part of [findFeatureByName] after the San Francisco special case. *)
Definition findFeatureByName_general (features : list Feature.t)
    (normalizedName : string) : outcome (option Feature.t) :=
  exactMatch ← array_find (exact normalizedName) features;
  match exactMatch with
  | Some f => Returns (Some f)
  | None =>
      usMatch ← array_find (partialUS normalizedName) features;
      match usMatch with
      | Some f => Returns (Some f)
      | None => array_find (partialAny normalizedName) features
      end
  end.

Definition findFeatureByName (features : list Feature.t) (name : string)
    : outcome (option Feature.t) :=
  let normalizedName := toLowerCase name in
  if includes normalizedName "san francisco"
  then
    usSanFrancisco ← array_find exactUS features;
    match usSanFrancisco with
    | Some f => Returns (Some f)
    | None =>
        usMatch ← array_find (partialUS "san francisco") features;
        match usMatch with
        | Some f => Returns (Some f)
        | None => findFeatureByName_general features normalizedName
        end
    end
  else findFeatureByName_general features normalizedName.

(** ** The rest of the processor module: the PostGIS processor and the factory *)

Module RawOperation.
(** An operation as a caller hands it over (in the parsed body of a request,
    in the parsed reply of the language model), where nothing has checked
    its fields yet.  [type], when present, is a string; [parameters] is
    [None] when missing or [null]; [layers] is [None] when missing or no
    array, and else the list of the layer names its elements stand for. *)
Record t : Type := mk {
  type : option string;
  parameters : option (gmap string value);
  layers : option (list string)
}.
End RawOperation.

(** The kinds whose method begins by destructuring
    [operation.parameters]. *)
Definition destructuring : list string :=
  ["BUFFER"; "WITHIN"; "TOUCHES"; "INTERSECTS"; "AREA_FILTER"].

Section Processors.

Context `{Turf}.

(** [validateOperation] on an operation as it arrives:
    [validOperations.includes(undefined)] is false. *)
Definition validateOperation_any (operation : RawOperation.t) : bool :=
  match RawOperation.type operation with
  | Some type => bool_decide (type ∈ validOperations)
  | None => false
  end.

(** [processOperation] on an operation as it arrives.  No method reads
    [operation.layers]; the five feature-by-feature methods read
    [operation.parameters] first thing, and destructuring [undefined] or
    [null] throws. *)
Definition processOperation_any (operation : RawOperation.t)
    (data : list Feature.t) (h : heap)
    : outcome (list SpatialResult.t * heap) :=
  let layers := default [] (RawOperation.layers operation) in
  match RawOperation.type operation with
  | None => Throws (Error "Unsupported operation: undefined")
  | Some type =>
      match RawOperation.parameters operation with
      | Some parameters =>
          processOperation (SpatialOperation.mk type parameters layers) data h
      | None =>
          if bool_decide (type ∈ destructuring) then Throws TypeError
          else processOperation (SpatialOperation.mk type ∅ layers) data h
      end
  end.

End Processors.

Module SpatialProcessor.
(** [interface SpatialProcessor] *)
Record t `{Turf} : Type := mk {
  processOperation :
    RawOperation.t → list Feature.t → heap →
    outcome (list SpatialResult.t * heap);
  validateOperation : RawOperation.t → bool
}.
End SpatialProcessor.

Definition TurfSpatialProcessor `{Turf} : SpatialProcessor.t :=
  SpatialProcessor.mk _ processOperation_any validateOperation_any.

Definition PostGISpatialProcessor `{Turf} : SpatialProcessor.t :=
  SpatialProcessor.mk _
    (fun operation data h =>
       Throws (Error "PostGIS spatial processor not yet implemented"))
    (fun operation => true).

Module SpatialProcessorFactory.
Definition create `{Turf} (engine : string) : outcome SpatialProcessor.t :=
  if String.eqb engine "turf" then Returns TurfSpatialProcessor
  else if String.eqb engine "postgis" then Returns PostGISpatialProcessor
  else Throws (Error ("Unsupported spatial engine: " +:+ engine)).
End SpatialProcessorFactory.

(** ** [SpatialAIEngine] ([src/lib/openai.ts]) *)

Definition postgisFunctions : list string :=
  ["ST_AsGeoJSON"; "ST_Buffer"; "ST_Intersects"; "ST_Within"; "ST_DWithin";
   "ST_Contains"; "ST_Area"; "ST_Distance"].

(** [postgisFunctions.some(func => sql.includes(func))] *)
Definition validateQuery (sql : string) : bool :=
  existsb (fun func => includes sql func) postgisFunctions.

Module AIResult.
(** [interface SpatialOperationAIResult], as parsed from the reply of the
    language model: any field may be missing. *)
Record t : Type := mk {
  operation : option RawOperation.t;
  explanation : option string;
  confidence : option float
}.
End AIResult.

(** [SpatialAIEngine.interpretQuery].  [ask] stands for the body of its
    [try]: the key check, the call of the model and [JSON.parse] of the
    reply ([null] is a reply that parses).  Whatever is thrown there is
    replaced by one fixed error. *)
Definition interpretQuery
    (ask : string → list string → outcome (option AIResult.t))
    (query : string) (availableLayers : list string)
    : outcome (option AIResult.t) :=
  match ask query availableLayers with
  | Returns parsedResponse => Returns parsedResponse
  | Throws _ =>
      Throws (Error "Failed to interpret query as spatial operation")
  end.

(** ** The layer route ([src/app/api/geojson/[layer]/route.ts]) *)

Module LayerRoute.

Definition LAYER_MAP : gmap string string :=
  <["states" := "ne_10m_admin_1_states_provinces.json"]>
  (<["coastline" := "ne_10m_coastline.json"]>
   (<["cities" := "ne_10m_populated_places.json"]>
    (<["rivers" := "ne_10m_rivers_lake_centerlines.json"]>
     (<["lakes" := "ne_10m_lakes.json"]> ∅)))).

(** The names every object inherits from [Object.prototype]: for these
    [LAYER_MAP[layer]] is a function or an object, not [undefined]. *)
Definition objectPrototype : list string :=
  Eval cbv in objectPrototype.

(** [text] is the [error] field of the body. *)
Inductive Response : Type :=
  | Status200 (data : string)
  | Status404 (text : string)
  | Status500 (text : string).

(** [readData fileName] stands for [fs.readFile] of the file [fileName] of
    the [data] directory.  For an inherited name [fileName] is truthy and no
    string: [path.join], which is outside the [try], throws a [TypeError]. *)
Definition GET (readData : string → outcome string) (layer : string)
    : outcome Response :=
  match LAYER_MAP !! layer with
  | None =>
      if bool_decide (layer ∈ objectPrototype) then Throws TypeError
      else Returns (Status404 "Layer not found")
  | Some fileName =>
      if nonEmpty fileName then
        match readData fileName with
        | Returns data => Returns (Status200 data)
        | Throws _ => Returns (Status500 "Failed to load data")
        end
      else Returns (Status404 "Layer not found")
  end.

End LayerRoute.

(** ** The operation route ([src/app/api/spatial/route.ts]) *)

Module SpatialRoute.

(** The members [operation] and [engine] of the parsed body: [operation] is
    [None] when missing or falsy; [engine], when present, is a string. *)
Record Request : Type := mkRequest {
  operation : option RawOperation.t;
  engine : option string
}.

Record GeoFeature : Type := mkFeature {
  type : string;
  geometry : option loc;
  properties : gmap string value
}.

(** [text] is the [error] field of the body. *)
Inductive Response : Type :=
  | Status400 (text : string)
  | Status500 (text : string) (details : error)
  | Status200 (engine operation : string) (features : list GeoFeature)
              (featureCount : nat) (processingEngine : string).

(** [POST].  [body] is what [req.json()] comes to: it throws, or gives
    [null] (which cannot be destructured), or gives the members read from
    it.  [loadGeoJSONData] stands for
    [SpatialUtils.loadGeoJSONData(layer, origin)] and [h] for the store the
    loaded features refer to; the store is handed back with the answer,
    whose geometries refer to it. *)
Definition POST `{Turf} (loadGeoJSONData : string → list Feature.t)
    (h : heap) (body : outcome (option Request)) : Response * heap :=
  match body with
  | Throws e => (Status500 "Failed to process spatial operation" e, h)
  | Returns None =>
      (Status500 "Failed to process spatial operation" TypeError, h)
  | Returns (Some request) =>
      let engine := default "turf" (engine request) in
      match operation request with
      | None => (Status400 "Operation type is required", h)
      | Some operation =>
          match RawOperation.type operation with
          | None => (Status400 "Operation type is required", h)
          | Some type =>
              if negb (nonEmpty type)
              then (Status400 "Operation type is required", h)
              else
                match SpatialProcessorFactory.create engine with
                | Throws e =>
                    (Status500 "Failed to process spatial operation" e, h)
                | Returns processor =>
                    if negb (SpatialProcessor.validateOperation processor
                               operation)
                    then
                      (Status400 "Invalid operation for the specified engine",
                       h)
                    else
                      match RawOperation.layers operation with
                      | None =>
                          (* [operation.layers.map] *)
                          (Status500 "Failed to process spatial operation"
                             TypeError, h)
                      | Some layers =>
                          let flatData := layers ≫= loadGeoJSONData in
                          match SpatialProcessor.processOperation processor
                                  operation flatData h with
                          | Throws e =>
                              (Status500
                                 "Failed to process spatial operation" e, h)
                          | Returns (results, h') =>
                              (Status200 engine type
                                 ((fun result =>
                                     mkFeature "Feature"
                                       (SpatialResult.geometry result)
                                       (SpatialResult.properties result))
                                    <$> results)
                                 (length results) engine, h')
                          end
                      end
                end
          end
      end
  end.

End SpatialRoute.

(** ** The query route ([src/app/api/query/route.ts]) *)

Module QueryRoute.

Definition AVAILABLE_LAYERS : list string :=
  ["states"; "coastline"; "cities"; "rivers"; "lakes"].

(** [parameters] is [None] when the operation has none ([undefined] is left
    out of the JSON of the answer). *)
Record Success : Type := mkSuccess {
  method : string;
  operation : string;
  explanation : string;
  confidence : float;
  layers : list string;
  parameters : option (gmap string value);
  results : list SpatialResult.t
}.

(** [text] is the [error] field of the body. *)
Inductive Response : Type :=
  | Status400 (text : string)
  | Status500 (text : string) (details : error)
  | Status200 (body : Success).

(** [features.filter(predicate)] for a predicate that may throw. *)
Fixpoint array_filter (predicate : Feature.t → outcome bool)
    (features : list Feature.t) : outcome (list Feature.t) :=
  match features with
  | [] => Returns []
  | feature :: rest =>
      keep ← predicate feature;
      kept ← array_filter predicate rest;
      Returns (if (keep : bool) then feature :: kept else kept)
  end.

(** [city.properties?.name?.toLowerCase().includes('san francisco') ||
     city.properties?.NAME?.toLowerCase().includes('san francisco')] *)
Definition mentionsSanFrancisco (city : Feature.t) : outcome bool :=
  name ← lowerField "name" city;
  if match name with
     | Some n => includes n "san francisco"
     | None => false
     end
  then Returns true
  else
    NAME ← lowerField "NAME" city;
    Returns match NAME with
            | Some n => includes n "san francisco"
            | None => false
            end.

(** [city.geometry.coordinates], read for the log. *)
Definition coordinates (city : Feature.t) : outcome unit :=
  match Feature.geometry city with
  | Some _ => Returns tt
  | None => Throws TypeError
  end.

Fixpoint each (action : Feature.t → outcome unit) (features : list Feature.t)
    : outcome unit :=
  match features with
  | [] => Returns tt
  | feature :: rest => _ ← action feature; each action rest
  end.

(** The lookup of the city a WITHIN operation names: the two logging steps
    (which read [geometry.coordinates]) and [findFeatureByName]. *)
Definition resolveCity (citiesData : list Feature.t) (cityName : string)
    : outcome (option Feature.t) :=
  sanFranciscoCities ← array_filter mentionsSanFrancisco citiesData;
  _ ← each coordinates (take 5 sanFranciscoCities);
  cityFeature ← findFeatureByName citiesData cityName;
  match cityFeature with
  | Some city => _ ← coordinates city; Returns (Some city)
  | None => Returns None
  end.

(** The name to look up: [parameters.targetGeometry] when it is a string,
    else [parameters.location] when it is a string. *)
Definition cityNameOf (parameters : gmap string value) : option string :=
  match get parameters "targetGeometry" with
  | VPrim (PStr name) => Some name
  | _ =>
      match get parameters "location" with
      | VPrim (PStr name) => Some name
      | _ => None
      end
  end.

Definition validOperationTypes : list string :=
  ["BUFFER"; "WITHIN"; "TOUCHES"; "INTERSECTS"; "AREA_FILTER"; "UNION";
   "DIFFERENCE"].

(** What [POST] does once the operation has its final type and parameters:
    load the layers ([spatialOperation.layers.map]), run the Turf processor,
    answer. *)
Definition run `{Turf} (loadGeoJSONData : string → list Feature.t)
    (h : heap) (aiResult : AIResult.t) (type : string)
    (parameters : option (gmap string value)) (layers : option (list string))
    : outcome (Response * heap) :=
  match layers with
  | None => Throws TypeError
  | Some layers =>
      let data := layers ≫= loadGeoJSONData in
      '(results, h') ←
        SpatialProcessor.processOperation TurfSpatialProcessor
          (RawOperation.mk (Some type) parameters (Some layers)) data h;
      Returns
        (Status200
           (mkSuccess "ai" type
              (default "" (AIResult.explanation aiResult))
              (match AIResult.confidence aiResult with
               | Some c => if truthy (num c) then c else 1
               | None => 1
               end)%float
              layers parameters results), h')
  end.

(** The body of the [try] of [POST].  [body] is what [req.json()] comes to:
    it throws, or gives [null] (which cannot be destructured), or gives the
    member [query] read from it. *)
Definition handle `{Turf}
    (ask : string → list string → outcome (option AIResult.t))
    (loadGeoJSONData : string → list Feature.t) (h : heap)
    (body : outcome (option value))
    : outcome (Response * heap) :=
  parsed ← body;
  match parsed with
  | None => Throws TypeError
  | Some (VPrim (PStr query)) =>
      if negb (nonEmpty query)
      then Returns (Status400 "Query is required and must be a string", h)
      else
        aiResult ← interpretQuery ask query AVAILABLE_LAYERS;
        match aiResult ≫= fun r => pair r <$> AIResult.operation r with
        | None => Returns (Status400 "AI could not interpret the query.", h)
        | Some (aiResult, operation) =>
            let type :=
              match RawOperation.type operation with
              | Some type =>
                  Some (if String.eqb type "NEAR" then "WITHIN" else type)
              | None => None
              end in
            match type with
            | None =>
                Returns (Status400 "Invalid operation type: undefined", h)
            | Some type =>
                if negb (bool_decide (type ∈ validOperationTypes))
                then
                  Returns (Status400 ("Invalid operation type: " +:+ type), h)
                else
                  let parameters := RawOperation.parameters operation in
                  let layers := RawOperation.layers operation in
                  if String.eqb type "WITHIN" then
                    match parameters with
                    | None =>
                        (* [typeof spatialOperation.parameters.targetGeometry] *)
                        Throws TypeError
                    | Some map =>
                        match cityNameOf map with
                        | Some cityName =>
                            if nonEmpty cityName then
                              cityFeature ←
                                resolveCity (loadGeoJSONData "cities")
                                  cityName;
                              match cityFeature with
                              | Some city =>
                                  run loadGeoJSONData h aiResult type
                                    (Some (<["targetGeometry" :=
                                               VFeature city]> map))
                                    layers
                              | None =>
                                  Returns
                                    (Status400
                                       ("Could not find city: " +:+ cityName),
                                     h)
                              end
                            else run loadGeoJSONData h aiResult type
                                   parameters layers
                        | None =>
                            run loadGeoJSONData h aiResult type parameters
                              layers
                        end
                    end
                  else run loadGeoJSONData h aiResult type parameters layers
            end
        end
  | Some _ => Returns (Status400 "Query is required and must be a string", h)
  end.

(** [POST]: whatever the body of the [try] throws becomes a 500 answer. *)
Definition POST `{Turf}
    (ask : string → list string → outcome (option AIResult.t))
    (loadGeoJSONData : string → list Feature.t) (h : heap)
    (body : outcome (option value))
    : Response * heap :=
  match handle ask loadGeoJSONData h body with
  | Returns answer => answer
  | Throws e => (Status500 "Internal server error" e, h)
  end.

End QueryRoute.

(** ** A grid geometry library

    A small executable stand-in for the geometry library, used to run the
    engine on concrete data: a geometry is a finite list of cells of an
    integer grid whose cells are one kilometre wide. *)

Module Grid.

Definition Cells : Type := list (Z * Z).

Definition cells (a : arg Cells) : option Cells :=
  match a with
  | ArgObject (Some g) => Some g
  | _ => None
  end.

Definition gap (p q : Z * Z) : Z :=
  Z.abs (p.1 - q.1) + Z.abs (p.2 - q.2).

Definition share (x y : Cells) : bool :=
  existsb (fun p => existsb (fun q => (gap p q =? 0)%Z) y) x.

Definition adjacent (x y : Cells) : bool :=
  existsb (fun p => existsb (fun q => (gap p q =? 1)%Z) y) x.

(** Distance between the first cells, in kilometres; it throws on anything
    that is not a geometry with a cell. *)
Definition distance (a b : arg Cells) : answer float :=
  match cells a, cells b with
  | Some (p :: _), Some (q :: _) => Answers (number_of_Z (gap p q))
  | _, _ => Fails "coordinates must be an Array"
  end.

Definition booleanIntersects (a b : arg Cells) : answer bool :=
  match cells a, cells b with
  | Some x, Some y => Answers (share x y)
  | _, _ => Fails "geometry is required"
  end.

Definition booleanTouches (a b : arg Cells) : answer bool :=
  match cells a, cells b with
  | Some x, Some y => Answers (negb (share x y) && adjacent x y)
  | _, _ => Fails "geometry is required"
  end.

(** Square metres: a cell is a square kilometre. *)
Definition area (a : arg Cells) : answer float :=
  match cells a with
  | Some x => Answers (number_of_Z (1000000 * Z.of_nat (length x)))
  | None => Answers 0%float
  end.

(** Each cell with its four neighbours.  It throws on a geometry without
    cells and on a radius that is not a number; a negative radius leaves
    nothing, and the answer is [undefined]. *)
Definition buffer (a radius : arg Cells) : answer (option Cells) :=
  match cells a, radius with
  | Some (p :: x), ArgPrim (PNum r) =>
      if is_nan r then Fails "radius must be a number"
      else if (r <? 0)%float then Answers None
      else Answers (Some ((p :: x) ≫= fun p =>
             [p; (p.1 + 1, p.2); (p.1 - 1, p.2); (p.1, p.2 + 1);
              (p.1, p.2 - 1)]%Z))
  | Some (_ :: _), _ => Fails "radius is required"
  | _, _ => Fails "coordinates must contain numbers"
  end.

(** It throws on anything that is not a geometry; the union of two
    geometries without cells is [null]. *)
Definition union (a b : arg Cells) : answer (option Cells) :=
  match cells a, cells b with
  | Some [], Some [] => Answers None
  | Some x, Some y => Answers (Some (x ++ y))
  | _, _ => Fails "geometry is required"
  end.

(** The cells of [x] that are not cells of [y]. *)
Definition difference (x y : Cells) : Cells :=
  filter (fun p => negb (existsb (fun q => (gap p q =? 0)%Z) y)) x.

Definition toNumber (s : string) : float := nan.

#[global] Instance turf : Turf := {|
  Geometry := Cells;
  StringToNumber := toNumber;
  turf_buffer := buffer;
  turf_distance := distance;
  turf_booleanTouches := booleanTouches;
  turf_booleanIntersects := booleanIntersects;
  turf_area := area;
  turf_union := union
|}.

End Grid.

(** ** Sample data on the grid *)

Module Sample.

Definition city (name country : string) (geometry : option loc)
    : Feature.t :=
  Feature.mk geometry
    (Some (<["NAME" := PStr name]> (<["SOV0NAME" := PStr country]> ∅))).

Definition sanFrancisco : Feature.t :=
  city "San Francisco" "United States" (Some 1%positive).
Definition oakland : Feature.t :=
  city "Oakland" "United States" (Some 2%positive).
Definition sacramento : Feature.t :=
  city "Sacramento" "United States" (Some 3%positive).
Definition sanFranciscoMX : Feature.t :=
  city "San Francisco" "Mexico" (Some 4%positive).
(** A feature without geometry. *)
Definition unplaced : Feature.t := city "Null Island" "Nowhere" None.
(** A feature whose property map has no [NAME]. *)
Definition nameless : Feature.t := Feature.mk (Some 5%positive) (Some ∅).

(** Two lakes, the second inside the first. *)
Definition lake : Feature.t := Feature.mk (Some 6%positive) None.
Definition pond : Feature.t := Feature.mk (Some 7%positive) None.

Definition store : heap :=
  (<[1%positive := [(0, 0)]]>
   (<[2%positive := [(0, 13)]]>
    (<[3%positive := [(0, 120)]]>
     (<[4%positive := [(900, -2500)]]>
      (<[5%positive := [(7, 7)]]>
       (<[6%positive := [(0, 0); (1, 0); (2, 0)]]>
        (<[7%positive := [(1, 0)]]> ∅)))))))%Z.

Definition cities : list Feature.t :=
  [sanFranciscoMX; oakland; sanFrancisco; unplaced; sacramento].

Definition lakes : list Feature.t := [lake; pond].

Definition within50 : SpatialOperation.t :=
  SpatialOperation.mk "WITHIN"
    (<["targetGeometry" := VFeature sanFrancisco]>
     (<["distance" := num 50]> (<["units" := str "miles"]> ∅)))
    ["cities"].

Definition buffer50 : SpatialOperation.t :=
  SpatialOperation.mk "BUFFER"
    (<["distance" := num 50]> (<["units" := str "miles"]> ∅))
    ["cities"].

Definition areaAtLeast (minArea : float) : SpatialOperation.t :=
  SpatialOperation.mk "AREA_FILTER"
    (<["minArea" := num minArea]> (<["units" := str "square_miles"]> ∅))
    ["lakes"].

Definition difference : SpatialOperation.t :=
  SpatialOperation.mk "DIFFERENCE" ∅ ["lakes"].

Definition union : SpatialOperation.t :=
  SpatialOperation.mk "UNION" ∅ ["lakes"].

(** A feature whose geometry object has no coordinates, between the two
    lakes, and a store that holds it. *)
Definition reef : Feature.t := Feature.mk (Some 8%positive) None.

Definition storeWithReef : heap := <[8%positive := []]> store.

Definition waters : list Feature.t := [lake; reef; pond].

(** BUFFER without a distance. *)
Definition bufferNoDistance : SpatialOperation.t :=
  SpatialOperation.mk "BUFFER" (<["units" := str "miles"]> ∅) ["lakes"].

(** WITHIN at 50 kilometres of San Francisco. *)
Definition within50km : SpatialOperation.t :=
  SpatialOperation.mk "WITHIN"
    (<["targetGeometry" := VFeature sanFrancisco]>
     (<["distance" := num 50]> (<["units" := str "kilometers"]> ∅)))
    ["cities"].

End Sample.

(** ** Sample requests *)

Module SampleRoutes.

(** The layers as the layer route would serve them. *)
Definition loadGeoJSONData (layerName : string) : list Feature.t :=
  if String.eqb layerName "cities" then Sample.cities
  else if String.eqb layerName "lakes" then Sample.lakes
  else if String.eqb layerName "waters" then Sample.waters
  else [].

(** The operations of [Sample], as they arrive in a request. *)
Definition raw (operation : SpatialOperation.t) : RawOperation.t :=
  RawOperation.mk (Some (SpatialOperation.type operation))
    (Some (SpatialOperation.parameters operation))
    (Some (SpatialOperation.layers operation)).

(** The cities near San Francisco. *)
Definition near50 : RawOperation.t :=
  RawOperation.mk (Some "NEAR")
    (Some (<["targetGeometry" := str "San Francisco"]>
           (<["distance" := num 50]> (<["units" := str "miles"]> ∅))))
    (Some ["cities"]).

(** A reply of the model. *)
Definition reply : AIResult.t :=
  AIResult.mk (Some near50)
    (Some "Cities within 50 miles of San Francisco.")
    (Some 0.9%float).

(** A model that understands one query. *)
Definition ask (query : string) (availableLayers : list string)
    : outcome (option AIResult.t) :=
  if String.eqb query "cities near San Francisco"
  then Returns (Some reply)
  else Throws (Error "No response from OpenAI").

(** A UNION over a layer that has no features. *)
Definition unionOfRivers : RawOperation.t :=
  RawOperation.mk (Some "UNION") (Some ∅) (Some ["rivers"]).

(** A BUFFER that names no layers. *)
Definition bufferNoLayers : RawOperation.t :=
  RawOperation.mk (Some "BUFFER") (Some (<["distance" := num 50]> ∅)) None.

(** A BUFFER of 50 miles over the waters, one of which has no
    coordinates. *)
Definition bufferWaters : RawOperation.t :=
  RawOperation.mk (Some "BUFFER")
    (Some (<["distance" := num 50]> (<["units" := str "miles"]> ∅)))
    (Some ["waters"]).

End SampleRoutes.

(** ** Vocabulary of the statements *)

(** The parameters the table of operation kinds requires of each kind,
    written after the specification's words: it is what the validation claim
    speaks of and is read by no function of the code. *)
Definition spec_requiredParameters (type : string) : list string :=
  if String.eqb type "BUFFER" then ["distance"]
  else if String.eqb type "WITHIN" then ["targetGeometry"; "distance"]
  else if String.eqb type "TOUCHES" then ["targetGeometry"]
  else if String.eqb type "INTERSECTS" then ["targetGeometry"]
  else if String.eqb type "AREA_FILTER" then ["minArea"]
  else [].

Definition spec_missesParameter (operation : SpatialOperation.t) : Prop :=
  ∃ key, key ∈ spec_requiredParameters (SpatialOperation.type operation) ∧
         get (SpatialOperation.parameters operation) key = undefined.

(** Every input feature's geometry is an object of the store. *)
Definition stored `{Turf} (h : heap) (data : list Feature.t) : Prop :=
  Forall (fun feature =>
            ∀ l, Feature.geometry feature = Some l → is_Some (h !! l)) data.

(** A result whose geometry is the very geometry object of a feature. *)
Definition aliases (result : SpatialResult.t) (feature : Feature.t) : Prop :=
  ∃ l, SpatialResult.geometry result = Some l ∧
       Feature.geometry feature = Some l.

(** The [NAME] and [SOV0NAME] of a feature, where present, are strings. *)
Definition textFields (feature : Feature.t) : Prop :=
  (∃ name, lowerField "NAME" feature = Returns name) ∧
  (∃ country, lowerField "SOV0NAME" feature = Returns country).

(** A feature named San Francisco, in any letter case. *)
Definition namedSanFrancisco (feature : Feature.t) : Prop :=
  lowerField "NAME" feature = Returns (Some "san francisco").

(** A feature whose sovereign field says United States or USA, in any letter
    case. *)
Definition inUnitedStates (feature : Feature.t) : Prop :=
  ∃ country, lowerField "SOV0NAME" feature = Returns (Some country) ∧
             (country = "united states" ∨ country = "usa").

(** Every character of [s] satisfies [p]. *)
Fixpoint allChars (p : ascii → bool) (s : string) : bool :=
  match s with
  | EmptyString => true
  | String c s' => p c && allChars p s'
  end.

(** The string does not begin with a space. *)
Definition noLeadingSpace (s : string) : bool :=
  match s with
  | EmptyString => true
  | String c _ => negb (isSpace c)
  end.

(** The property keys a feature-by-feature operation adds to a result. *)
Definition addedKeys (type : string) : list string :=
  if String.eqb type "BUFFER"
  then ["buffer_distance"; "buffer_units"; "original_type"]
  else if String.eqb type "WITHIN"
  then ["distance_to_target"; "within_distance"]
  else if String.eqb type "TOUCHES" then ["touches_target"]
  else if String.eqb type "INTERSECTS" then ["intersects_target"]
  else if String.eqb type "AREA_FILTER"
  then ["area_sq_miles"; "area_sq_meters"]
  else [].

(** The feature has a geometry. *)
Definition hasGeometry (feature : Feature.t) : Prop :=
  is_Some (Feature.geometry feature).

(** [result] carries the properties of [feature], the keys its operation
    adds apart, which are present. *)
Definition keepsProperties (type : string) (feature : Feature.t)
    (result : SpatialResult.t) : Prop :=
  (∀ key, key ∉ addedKeys type →
          SpatialResult.properties result !! key
            = spread (Feature.properties feature) !! key) ∧
  (∀ key, key ∈ addedKeys type →
          is_Some (SpatialResult.properties result !! key)).

(** The feature has a [NAME], and its fields [NAME] and [SOV0NAME] are
    strings where present. *)
Definition hasName (feature : Feature.t) : Prop :=
  (∃ n, lowerField "NAME" feature = Returns (Some n)) ∧
  (∃ country, lowerField "SOV0NAME" feature = Returns country).

(** The name of the feature contains [query], letter case apart. *)
Definition nameContains (query : string) (feature : Feature.t) : Prop :=
  ∃ n, lowerField "NAME" feature = Returns (Some n) ∧
       includes n (toLowerCase query) = true.

(** The name of the feature is [query], letter case apart. *)
Definition nameEquals (query : string) (feature : Feature.t) : Prop :=
  lowerField "NAME" feature = Returns (Some (toLowerCase query)).

(** What a turn of a loop pushes when it does not throw. *)
Definition pushes (step : Feature.t → outcome (list SpatialResult.t))
    (feature : Feature.t) : list SpatialResult.t :=
  match step feature with
  | Returns results => results
  | Throws _ => []
  end.

(** The search radius in metres after the words of the specification
    ("the search radius converted to meters"), for the units it names and
    for kilometres; it is read by no function of the code. *)
Definition spec_radiusInMeters (distance : float) (units : string) : float :=
  if String.eqb units "miles" then (distance * 1609.34)%float
  else if String.eqb units "kilometers" then (distance * 1000)%float
  else distance.


(** The call of the library gives an answer: it does not throw. *)
Definition answers {A : Type} (r : answer A) : Prop :=
  ∃ a, r = Answers a.


(** The type the query route runs an operation as. *)
Definition runAs (type : string) : string :=
  if String.eqb type "NEAR" then "WITHIN" else type.
(** * Facts *)

(** ** Template matcher *)

Ltac split_rules H :=
  repeat match goal with
         | |- context [if ?b then _ else _] =>
             let E := fresh "E" in
             destruct b eqn:E; try discriminate H; try reflexivity
         end.

(** No test inside the loop of [findMatchingTemplate] reads the template:
    when no rule fires for one template, none fires for any. *)
Lemma findMatchingTemplate_loop_none normalizedQuery template templates :
  findMatchingTemplate_loop normalizedQuery [template] = None →
  findMatchingTemplate_loop normalizedQuery templates = None.
Proof.
  intros H. induction templates as [|next rest IH]; [reflexivity|].
  cbn [findMatchingTemplate_loop] in H |- *.
  split_rules H. exact IH.
Qed.

Lemma findMatchingTemplate_loop_head normalizedQuery template rest :
  findMatchingTemplate_loop normalizedQuery (template :: rest) = None ∨
  findMatchingTemplate_loop normalizedQuery (template :: rest) = Some template.
Proof.
  destruct (findMatchingTemplate_loop normalizedQuery [template]) eqn:H.
  - right. cbn [findMatchingTemplate_loop] in H |- *.
    split_rules H.
  - left. by apply findMatchingTemplate_loop_none with template.
Qed.

(** X1.  Whatever the query, [findMatchingTemplate] answers [null] or the
    first template of [SPATIAL_QUERY_TEMPLATES]. *)
Lemma findMatchingTemplate_first query :
  findMatchingTemplate query = None ∨
  findMatchingTemplate query = Some coastlineTemplate.
Proof. apply findMatchingTemplate_loop_head. Qed.

(** C1.  The matcher at the two queries of the claim: both are answered with
    the first template of the list (the coastline buffer), which is neither
    the border template nor the cities template; the parameters extracted
    from the second query are [distance = 50] and
    [location = "San Francisco"]. *)
Theorem findMatchingTemplate_ignores_precedence :
  findMatchingTemplate "states that border Texas" = Some coastlineTemplate ∧
  findMatchingTemplate "cities within 50 miles of San Francisco"
    = Some coastlineTemplate ∧
  coastlineTemplate ≠ borderTemplate ∧
  coastlineTemplate ≠ citiesTemplate ∧
  extractParameters "cities within 50 miles of San Francisco" citiesTemplate
    = <["location" := str "San Francisco"]> (<["distance" := num 50]> ∅).
Proof.
  split_and!.
  - vm_compute. reflexivity.
  - vm_compute. reflexivity.
  - intros H. apply (f_equal QueryTemplate.pattern) in H. discriminate H.
  - intros H. apply (f_equal QueryTemplate.pattern) in H. discriminate H.
  - vm_compute. reflexivity.
Qed.

(** ** Operation validation *)

(** X2.  The operation built for a border query: no extraction rule yields
    a [state], so the placeholder of its only parameter is replaced by
    [undefined]; validation accepts the operation. *)
Lemma border_operation_undefined_parameter :
  ∃ operation,
    createSpatialOperation borderTemplate
      (extractParameters "states that border Texas" borderTemplate)
      = Some operation ∧
    SpatialOperation.parameters operation !! "targetState" = Some undefined ∧
    validateOperation operation = true.
Proof. eexists. split_and!; vm_compute; reflexivity. Qed.

(** C3, as stated, fails: a BUFFER operation without [distance] is one of the
    seven kinds, misses a required parameter, and passes validation. *)
Lemma validateOperation_accepts_missing_parameter :
  ¬ (∀ operation,
       SpatialOperation.type operation ∈ validOperations →
       spec_missesParameter operation →
       validateOperation operation = false).
Proof.
  intros H.
  specialize (H (SpatialOperation.mk "BUFFER" ∅ ["coastline"])).
  assert (validateOperation (SpatialOperation.mk "BUFFER" ∅ ["coastline"])
          = true) as Hok by (vm_compute; reflexivity).
  rewrite H in Hok; [discriminate Hok| |].
  - simpl. set_solver.
  - exists "distance". split; [simpl; set_solver|reflexivity].
Qed.

(** ** Arithmetic of numbers *)

Lemma SFleb_trans (a b c : spec_float) :
  SFleb a b = true → SFleb b c = true → SFleb a c = true.
Proof.
  unfold SFleb, SFcompare.
  destruct a as [sa|sa| |sa ma ea], b as [sb|sb| |sb mb eb],
           c as [sc|sc| |sc mc ec];
    try (destruct sa); try (destruct sb); try (destruct sc); try done.
  all: destruct (Z.compare_spec ea eb), (Z.compare_spec eb ec),
         (Z.compare_spec ea ec); try done; try lia.
  all: subst.
  all: repeat match goal with
       | |- context [PosDef.Pos.compare_cont Eq ?m ?n] =>
           let H := fresh in
           pose proof (Pos.compare_spec m n) as H;
           change (Pos.compare m n) with (PosDef.Pos.compare_cont Eq m n) in H;
           destruct H
       end; simpl; try done; try lia.
Qed.

(** [<=] on numbers is transitive (a comparison with [NaN] is false). *)
Lemma number_leb_trans (a b c : float) :
  (a <=? b)%float = true → (b <=? c)%float = true → (a <=? c)%float = true.
Proof. rewrite !leb_spec. apply SFleb_trans. Qed.

(** ** The spatial processor *)

(** *** Loops that may throw *)

Lemma for_each_Returns step data results :
  for_each step data = Returns results ↔
  Forall (fun feature => ∃ pushed, step feature = Returns pushed) data ∧
  results = data ≫= pushes step.
Proof.
  revert results. induction data as [|feature data IH]; intros results.
  - simpl. split.
    + intros [= <-]. split; [constructor|done].
    + by intros [_ ->].
  - rewrite bind_cons. unfold pushes at 1. cbn [for_each].
    destruct (step feature) as [pushed|e] eqn:Hstep; simpl.
    + destruct (for_each step data) as [rest|e] eqn:Hrest; simpl.
      * destruct (proj1 (IH rest) eq_refl) as [Hall ->]. split.
        -- intros [= <-]. split; [|done].
           constructor; [by exists pushed|done].
        -- by intros [_ ->].
      * split; [done|]. intros [Hall _].
        apply Forall_cons in Hall as [_ Hall].
        by pose proof (proj2 (IH _) (conj Hall eq_refl)).
    + split; [done|]. intros [Hall _].
      apply Forall_cons in Hall as [[pushed Hpushed] _]. congruence.
Qed.

Lemma for_each_Throws step data e :
  for_each step data = Throws e ↔
  ∃ before feature after,
    data = before ++ feature :: after ∧
    Forall (fun f => ∃ pushed, step f = Returns pushed) before ∧
    step feature = Throws e.
Proof.
  induction data as [|feature data IH]; cbn [for_each].
  - split; [done|]. intros (before & f & after & Heq & _).
    by destruct before.
  - destruct (step feature) as [pushed|e'] eqn:Hstep; simpl.
    + destruct (for_each step data) as [rest|e''] eqn:Hrest; simpl.
      * split; [done|].
        intros ([|first before] & f & after & Heq & Hall & Hf).
        -- simpl in Heq. injection Heq as <- <-. congruence.
        -- simpl in Heq. injection Heq as <- ->.
           apply Forall_cons in Hall as [_ Hall].
           by pose proof (proj2 IH (ex_intro _ before (ex_intro _ f
             (ex_intro _ after (conj eq_refl (conj Hall Hf)))))).
      * split.
        -- intros [= <-].
           destruct (proj1 IH eq_refl)
             as (before & f & after & -> & Hall & Hf).
           exists (feature :: before), f, after. split_and!; [done| |done].
           constructor; [by exists pushed|done].
        -- intros ([|first before] & f & after & Heq & Hall & Hf).
           ++ simpl in Heq. injection Heq as <- <-. congruence.
           ++ simpl in Heq. injection Heq as <- ->.
              apply Forall_cons in Hall as [_ Hall].
              apply (proj2 IH). by exists before, f, after.
    + split.
      * intros [= <-]. exists [], feature, data. split_and!; done.
      * intros ([|first before] & f & after & Heq & Hall & Hf).
        -- simpl in Heq. injection Heq as <- <-. congruence.
        -- simpl in Heq. injection Heq as <- ->.
           apply Forall_cons in Hall as [[pushed Hpushed] _]. congruence.
Qed.

(** A comparison with [NaN] is false. *)
Lemma leb_nan_r (x : float) : (x <=? nan)%float = false.
Proof.
  rewrite leb_spec. change (Prim2SF nan) with S754_nan.
  unfold SFleb, SFcompare. by destruct (Prim2SF x) as [| | |[]].
Qed.

Lemma leb_nan_l (x : float) : (nan <=? x)%float = false.
Proof. rewrite leb_spec. by change (Prim2SF nan) with S754_nan. Qed.

Section EngineFacts.

Context `{Turf}.

(** *** A missing parameter, kind by kind *)

Lemma processWithin_no_target operation data h :
  truthy (get (SpatialOperation.parameters operation) "targetGeometry")
    = false →
  processWithin operation data h = [].
Proof.
  intros Hfalsy. unfold processWithin.
  induction data as [|feature data IH]; [done|].
  rewrite bind_cons, IH, app_nil_r.
  unfold processWithin_step. by rewrite Hfalsy, andb_false_r.
Qed.

Lemma processTouches_no_target operation data h :
  truthy (get (SpatialOperation.parameters operation) "targetGeometry")
    = false →
  processTouches operation data h = Returns [].
Proof.
  intros Hfalsy. unfold processTouches.
  induction data as [|feature data IH]; [done|].
  cbn [for_each]. rewrite IH.
  unfold processTouches_step. by rewrite Hfalsy, andb_false_r.
Qed.

Lemma processIntersects_no_target operation data h :
  truthy (get (SpatialOperation.parameters operation) "targetGeometry")
    = false →
  processIntersects operation data h = Returns [].
Proof.
  intros Hfalsy. unfold processIntersects.
  induction data as [|feature data IH]; [done|].
  cbn [for_each]. rewrite IH.
  unfold processIntersects_step. by rewrite Hfalsy, andb_false_r.
Qed.

Lemma to_meters_undefined units :
  to_number (to_meters undefined units) = nan.
Proof. unfold to_meters. by destruct (is_string units "miles"). Qed.

Lemma processWithin_no_distance operation data h :
  get (SpatialOperation.parameters operation) "distance" = undefined →
  processWithin operation data h = [].
Proof.
  intros Hmissing. unfold processWithin. rewrite Hmissing.
  induction data as [|feature data IH]; [done|].
  rewrite bind_cons, IH, app_nil_r. unfold processWithin_step.
  destruct (_ && _); [|done].
  destruct (turf_distance _ _); [|done].
  by rewrite to_meters_undefined, leb_nan_r.
Qed.

(** Without a [minArea] every feature with a geometry is measured and none
    passes. *)
Lemma processAreaFilter_step_no_minArea h feature :
  pushes (processAreaFilter_step h undefined) feature = [] ∧
  (∀ e, processAreaFilter_step h undefined feature = Throws e →
        ∃ thrown, turf_area (arg_of_feature h feature) = Fails thrown ∧
                  e = Library thrown) ∧
  (answers (turf_area (arg_of_feature h feature)) →
   processAreaFilter_step h undefined feature = Returns []).
Proof.
  unfold pushes, processAreaFilter_step.
  destruct (bool_decide _); [|by split_and!].
  destruct (turf_area _) as [area|thrown] eqn:Harea; simpl.
  - change (to_number undefined) with nan. rewrite leb_nan_l.
    by split_and!.
  - split_and!; [done| |by intros [a [=]]].
    intros e [= <-]. by exists thrown.
Qed.

Lemma processAreaFilter_no_minArea operation data h :
  get (SpatialOperation.parameters operation) "minArea" = undefined →
  (∀ results, processAreaFilter operation data h = Returns results →
              results = []) ∧
  (∀ e, processAreaFilter operation data h = Throws e →
        ∃ feature thrown,
          feature ∈ data ∧
          turf_area (arg_of_feature h feature) = Fails thrown ∧
          e = Library thrown) ∧
  (Forall (fun feature => answers (turf_area (arg_of_feature h feature)))
          data →
   processAreaFilter operation data h = Returns []).
Proof.
  intros Hmissing. unfold processAreaFilter. rewrite Hmissing.
  assert (data ≫= pushes (processAreaFilter_step h undefined) = [])
    as Hnone.
  { induction data as [|feature data IH]; [done|].
    rewrite bind_cons, IH, app_nil_r.
    apply processAreaFilter_step_no_minArea. }
  split_and!.
  - intros results [_ ->]%for_each_Returns. exact Hnone.
  - intros e (before & feature & after & -> & _ & Hthrows)%for_each_Throws.
    apply processAreaFilter_step_no_minArea in Hthrows
      as (thrown & Harea & ->).
    exists feature, thrown. split_and!; [|done|done].
    apply elem_of_app. right. apply list_elem_of_here.
  - intros Hall. apply for_each_Returns. split; [|by rewrite Hnone].
    eapply Forall_impl; [exact Hall|].
    intros feature Hanswers. exists [].
    by apply processAreaFilter_step_no_minArea.
Qed.

(** *** Validation and execution *)

Lemma fresh_insert_subseteq (h : heap) (g : Geometry) :
  h ⊆ <[fresh (dom h) := g]> h.
Proof. apply insert_subseteq, not_elem_of_dom, is_fresh. Qed.

Lemma not_in_dom_weaken (h h' : heap) (l : loc) :
  h ⊆ h' → l ∉ dom h' → l ∉ dom h.
Proof. intros Hsub Hl Hin. apply Hl. by apply (subseteq_dom _ _ Hsub). Qed.

Lemma arg_of_feature_weaken (h0 h : heap) feature :
  h0 ⊆ h →
  (∀ l, Feature.geometry feature = Some l → is_Some (h0 !! l)) →
  arg_of_feature h feature = arg_of_feature h0 feature.
Proof.
  intros Hsub Hstored. unfold arg_of_feature.
  destruct (Feature.geometry feature) as [l|]; [|done]. simpl.
  destruct (Hstored l eq_refl) as [g Hg].
  by rewrite Hg, (lookup_weaken _ _ _ _ Hg Hsub).
Qed.

(** The buffer loop only adds geometry objects to the store, and every
    result refers to one of the objects it added. *)
Lemma processBuffer_loop_frame distance units bufferDistance data h
    results h' :
  processBuffer_loop distance units bufferDistance data h
    = Returns (results, h') →
  h ⊆ h' ∧
  Forall (fun result =>
            ∃ l, SpatialResult.geometry result = Some l ∧ l ∉ dom h)
         results.
Proof.
  revert h results h'.
  induction data as [|feature data IH]; intros h results h'; simpl.
  - intros [= <- <-]. split; [done|constructor].
  - destruct (Feature.geometry feature) as [l0|]; [|apply IH].
    destruct (turf_buffer _ _) as [[g|]|thrown]; simpl; [|apply IH|done].
    destruct (processBuffer_loop _ _ _ data _) as [[rest h1]|e] eqn:Hrest;
      simpl; [|done].
    intros [= <- <-].
    destruct (IH _ _ _ Hrest) as [Hsub Hfresh].
    pose proof (fresh_insert_subseteq h g) as Hins.
    split; [by trans (<[fresh (dom h) := g]> h)|].
    constructor.
    + exists (fresh (dom h)). split; [done|apply is_fresh].
    + eapply Forall_impl; [exact Hfresh|].
      intros result (l & Hl & Hnew). exists l. split; [done|].
      by apply (not_in_dom_weaken _ _ _ Hins).
Qed.


(** The buffer loop when the library throws: the call throws what the
    library throws at the first feature on which it does, and no result is
    handed back. *)
Lemma processBuffer_loop_aborts distance units (radius : prim)
    before feature after h0 h thrown :
  h0 ⊆ h →
  stored h0 (before ++ feature :: after) →
  Forall (fun f =>
            is_Some (Feature.geometry f) →
            answers (turf_buffer (arg_of_feature h0 f) (ArgPrim radius)))
         before →
  is_Some (Feature.geometry feature) →
  turf_buffer (arg_of_feature h0 feature) (ArgPrim radius) = Fails thrown →
  processBuffer_loop distance units (VPrim radius)
    (before ++ feature :: after) h
  = Throws (Library thrown).
Proof.
  intros Hsub Hstored Hbefore [l Hl] Hfails. revert h Hsub.
  induction before as [|first before IH]; intros h Hsub.
  - simpl app. cbn [processBuffer_loop].
    apply Forall_cons in Hstored as [Hfeature _].
    rewrite (arg_of_feature_weaken h0 h feature Hsub Hfeature).
    rewrite Hl. simpl arg_of_value. by rewrite Hfails.
  - simpl app in *. cbn [processBuffer_loop].
    apply Forall_cons in Hstored as [Hfirst Hstored].
    apply Forall_cons in Hbefore as [Hanswer Hbefore].
    specialize (IH Hstored Hbefore).
    rewrite (arg_of_feature_weaken h0 h first Hsub Hfirst).
    destruct (Feature.geometry first) as [l0|] eqn:Hl0; [|by apply IH].
    simpl arg_of_value.
    destruct (Hanswer (ex_intro _ l0 eq_refl)) as [[g|] Hg]; rewrite Hg;
      simpl; [|by apply IH].
    pose proof (fresh_insert_subseteq h g) as Hins.
    rewrite (IH (<[fresh (dom h) := g]> h)) by by trans h.
    done.
Qed.

Lemma bufferResult_distance feature l distance units :
  SpatialResult.properties (bufferResult feature l distance units)
    !! "buffer_distance" = Some distance.
Proof.
  unfold bufferResult. simpl.
  rewrite !lookup_insert_ne by done. by rewrite lookup_insert_eq.
Qed.

(** Every result of the buffer loop carries the distance it was given. *)
Lemma processBuffer_loop_distance distance units bufferDistance data h
    results h' :
  processBuffer_loop distance units bufferDistance data h
    = Returns (results, h') →
  Forall (fun result =>
            SpatialResult.properties result !! "buffer_distance"
              = Some distance) results.
Proof.
  revert h results h'.
  induction data as [|feature data IH]; intros h results h'; simpl.
  - intros [= <- <-]. constructor.
  - destruct (Feature.geometry feature) as [l0|]; [|apply IH].
    destruct (turf_buffer _ _) as [[g|]|thrown]; simpl; [|apply IH|done].
    destruct (processBuffer_loop _ _ _ data _) as [[rest h1]|e] eqn:Hrest;
      simpl; [|done].
    intros [= <- <-]. constructor; [apply bufferResult_distance|].
    by apply (IH _ _ _ Hrest).
Qed.

(** C3, amended.  Validation looks at the type alone: an operation is
    accepted exactly when its type is one of the seven kinds, whatever its
    parameters and layers are.  An operation that misses a parameter is
    then run, and what happens depends on the kind.  WITHIN without a
    usable [targetGeometry] or without a [distance], and TOUCHES and
    INTERSECTS without a usable [targetGeometry], return no result and no
    error.  AREA_FILTER without a [minArea] measures every feature and
    keeps none: it returns no result, or throws what the library throws
    while measuring.  BUFFER without a [distance] asks the library, for each
    feature with a geometry, for a buffer whose radius is [NaN] (in miles,
    the default unit) or [undefined] (in another unit): it throws what the
    library throws at the first feature on which it does, and a result it
    returns carries [buffer_distance] [undefined]. *)
Theorem validateOperation_type_only (operation : SpatialOperation.t)
    (data : list Feature.t) (h : heap) :
  (validateOperation operation = true ↔
     SpatialOperation.type operation ∈ validOperations) ∧
  (∀ parameters layers,
     validateOperation
       (SpatialOperation.mk (SpatialOperation.type operation) parameters layers)
     = validateOperation operation) ∧
  (SpatialOperation.type operation = "WITHIN" →
   truthy (get (SpatialOperation.parameters operation) "targetGeometry")
     = false ∨
   get (SpatialOperation.parameters operation) "distance" = undefined →
   processOperation operation data h = Returns ([], h)) ∧
  (SpatialOperation.type operation ∈ ["TOUCHES"; "INTERSECTS"] →
   truthy (get (SpatialOperation.parameters operation) "targetGeometry")
     = false →
   processOperation operation data h = Returns ([], h)) ∧
  (SpatialOperation.type operation = "AREA_FILTER" →
   get (SpatialOperation.parameters operation) "minArea" = undefined →
   (∀ results h',
      processOperation operation data h = Returns (results, h') →
      results = [] ∧ h' = h) ∧
   (∀ e, processOperation operation data h = Throws e →
         ∃ feature thrown,
           feature ∈ data ∧
           turf_area (arg_of_feature h feature) = Fails thrown ∧
           e = Library thrown) ∧
   (Forall (fun feature => answers (turf_area (arg_of_feature h feature)))
           data →
    processOperation operation data h = Returns ([], h))) ∧
  (SpatialOperation.type operation = "BUFFER" →
   get (SpatialOperation.parameters operation) "distance" = undefined →
   let radius :=
     if is_string
          (defaulted (get (SpatialOperation.parameters operation) "units")
                     (str "miles")) "miles"
     then PNum nan else PUndefined in
   (∀ before feature after thrown,
      data = before ++ feature :: after →
      stored h data →
      Forall (fun f =>
                is_Some (Feature.geometry f) →
                answers (turf_buffer (arg_of_feature h f) (ArgPrim radius)))
             before →
      is_Some (Feature.geometry feature) →
      turf_buffer (arg_of_feature h feature) (ArgPrim radius)
        = Fails thrown →
      processOperation operation data h = Throws (Library thrown)) ∧
   (∀ results h',
      processOperation operation data h = Returns (results, h') →
      Forall (fun result =>
                SpatialResult.properties result !! "buffer_distance"
                  = Some undefined) results)).
Proof.
  split_and!.
  - unfold validateOperation. apply bool_decide_eq_true.
  - reflexivity.
  - intros Htype Hmissing. unfold processOperation. rewrite Htype. simpl.
    f_equal. f_equal.
    destruct Hmissing as [Hmissing|Hmissing].
    + by apply processWithin_no_target.
    + by apply processWithin_no_distance.
  - intros Htype Hmissing. unfold processOperation.
    apply elem_of_cons in Htype as [->|Htype]; simpl.
    { by rewrite processTouches_no_target. }
    apply list_elem_of_singleton in Htype as ->. simpl.
    by rewrite processIntersects_no_target.
  - intros Htype Hmissing. unfold processOperation. rewrite Htype. simpl.
    destruct (processAreaFilter_no_minArea operation data h Hmissing)
      as (Hresults & Hthrows & Hanswers).
    split_and!.
    + intros results h'.
      destruct (processAreaFilter operation data h) as [rs|e]; simpl;
        [|done].
      intros [= <- <-]. split; [by apply Hresults|done].
    + intros e.
      destruct (processAreaFilter operation data h) as [rs|e']; simpl;
        [done|].
      intros [= <-]. by apply Hthrows.
    + intros Hall. by rewrite (Hanswers Hall).
  - intros Htype Hmissing radius.
    assert (processOperation operation data h
            = processBuffer_loop undefined
                (defaulted
                   (get (SpatialOperation.parameters operation) "units")
                   (str "miles"))
                (VPrim radius) data h) as Hrun.
    { unfold processOperation, processBuffer. rewrite Htype, Hmissing.
      simpl. unfold to_meters, radius.
      by destruct (is_string _ "miles"). }
    rewrite Hrun. split.
    + intros before feature after thrown -> Hstored Hbefore Hgeometry Hfails.
      by apply (processBuffer_loop_aborts _ _ _ _ _ _ h).
    + intros results h'. apply processBuffer_loop_distance.
Qed.

(** *** UNION and DIFFERENCE *)

(** C4.  With fewer than two input features UNION and DIFFERENCE throw,
    before any geometry is looked at, both when called directly and
    through [processOperation]. *)
Theorem union_difference_need_two_features
    (operation : SpatialOperation.t) (data : list Feature.t)
    (h : heap) :
  (length data < 2)%nat →
  processUnion operation data h
    = Throws (Error "Union operation requires at least 2 geometries") ∧
  processDifference operation data
    = Throws (Error "Difference operation requires at least 2 geometries") ∧
  (SpatialOperation.type operation = "UNION" →
   processOperation operation data h
     = Throws (Error "Union operation requires at least 2 geometries")) ∧
  (SpatialOperation.type operation = "DIFFERENCE" →
   processOperation operation data h
     = Throws (Error "Difference operation requires at least 2 geometries")).
Proof.
  intros Hlen.
  assert ((length data <? 2)%nat = true) as Hlt by by apply Nat.ltb_lt.
  assert (processUnion operation data h
    = Throws (Error "Union operation requires at least 2 geometries"))
    as HU by (unfold processUnion; by rewrite Hlt).
  assert (processDifference operation data
    = Throws (Error "Difference operation requires at least 2 geometries"))
    as HD by (unfold processDifference; by rewrite Hlt).
  split_and!; [exact HU|exact HD| |].
  - intros Hty. unfold processOperation. rewrite Hty. simpl.
    exact HU.
  - intros Hty. unfold processOperation. rewrite Hty. simpl.
    by rewrite HD.
Qed.

(** C2.  What DIFFERENCE returns for two or more features: a single result
    whose geometry is the first feature's own geometry reference, the same
    whatever the features after the first are.  Nothing is subtracted. *)
Theorem processDifference_keeps_base (operation : SpatialOperation.t)
    (base subtractor : Feature.t) (subtractors : list Feature.t) :
  ∃ result,
    processDifference operation (base :: subtractor :: subtractors)
      = Returns [result] ∧
    SpatialResult.geometry result = Feature.geometry base ∧
    ∀ subtractor' subtractors',
      length subtractors' = length subtractors →
      processDifference operation (base :: subtractor' :: subtractors')
        = Returns [result].
Proof.
  eexists. split_and!; [reflexivity|reflexivity|].
  intros subtractor' subtractors' Hlength.
  unfold processDifference. simpl. by rewrite Hlength.
Qed.

(** *** WITHIN *)

Lemma to_meters_number (distance : float) (units : string) :
  to_meters (num distance) (str units)
  = num (if String.eqb units "miles"
         then (distance * 1609.34)%float else distance).
Proof.
  unfold to_meters, is_string, str, num, to_number.
  by destruct (String.eqb units "miles").
Qed.

Lemma withinResult_distance feature distanceToTargetM searchDistance :
  SpatialResult.properties
    (withinResult feature distanceToTargetM searchDistance)
    !! "distance_to_target" = Some (num distanceToTargetM).
Proof.
  unfold withinResult. simpl.
  rewrite lookup_insert_ne by done. by rewrite lookup_insert_eq.
Qed.

Lemma withinResult_radius feature distanceToTargetM searchDistance :
  SpatialResult.properties
    (withinResult feature distanceToTargetM searchDistance)
    !! "within_distance" = Some searchDistance.
Proof. unfold withinResult. simpl. by rewrite lookup_insert_eq. Qed.

(** What one turn of the loop pushes, for a target that is a feature. *)
Lemma processWithin_step_elem h target searchDistance feature result :
  result ∈ processWithin_step h (VFeature target) searchDistance feature ↔
  ∃ km, is_Some (Feature.geometry feature) ∧
        turf_distance (arg_of_feature h feature) (arg_of_feature h target)
          = Answers km ∧
        (km * 1000 <=? to_number searchDistance)%float = true ∧
        result = withinResult feature (km * 1000) searchDistance.
Proof.
  unfold processWithin_step. simpl. rewrite andb_true_r.
  case_bool_decide as Hg; simpl.
  - destruct (turf_distance _ _) as [km|thrown] eqn:Hd.
    + destruct (km * 1000 <=? to_number searchDistance)%float eqn:Hle.
      * rewrite list_elem_of_singleton. split.
        -- intros ->. by exists km.
        -- intros (km' & _ & [= <-] & _ & ->). done.
      * split; [by intros ?%elem_of_nil|].
        intros (km' & _ & [= <-] & Hle' & _). congruence.
    + split; [by intros ?%elem_of_nil|]. by intros (km' & _ & [=] & _).
  - split; [by intros ?%elem_of_nil|]. by intros (km' & ? & _).
Qed.

(** C5, amended.  WITHIN with a target feature, a numeric distance and a
    unit.  The search radius is the distance times 1609.34 when the unit is
    [miles], and the distance itself, taken as metres, for every other
    unit.  A feature with geometry whose distance to the target the library
    gives appears in the results exactly when that distance, in metres, is
    at most the search radius; every result comes from such a feature and
    carries the distance in metres under [distance_to_target] and the
    radius under [within_distance]. *)
Theorem processWithin_within_distance (operation : SpatialOperation.t)
    (data : list Feature.t) (h : heap) (target : Feature.t)
    (distance : float) (units : string) :
  get (SpatialOperation.parameters operation) "targetGeometry"
    = VFeature target →
  get (SpatialOperation.parameters operation) "distance" = num distance →
  get (SpatialOperation.parameters operation) "units" = str units →
  let radius :=
    if String.eqb units "miles" then (distance * 1609.34)%float
    else distance in
  (∀ feature km,
     feature ∈ data →
     is_Some (Feature.geometry feature) →
     turf_distance (arg_of_feature h feature) (arg_of_feature h target)
       = Answers km →
     (withinResult feature (km * 1000) (num radius)
        ∈ processWithin operation data h
      ↔ (km * 1000 <=? radius)%float = true)) ∧
  (∀ result,
     result ∈ processWithin operation data h →
     ∃ feature km,
       feature ∈ data ∧
       turf_distance (arg_of_feature h feature) (arg_of_feature h target)
         = Answers km ∧
       (km * 1000 <=? radius)%float = true ∧
       SpatialResult.geometry result = Feature.geometry feature ∧
       SpatialResult.properties result !! "distance_to_target"
         = Some (num (km * 1000)) ∧
       SpatialResult.properties result !! "within_distance"
         = Some (num radius)).
Proof.
  intros Htarget Hdistance Hunits radius.
  assert (∀ result,
    result ∈ processWithin operation data h ↔
    ∃ feature,
      result ∈ processWithin_step h (VFeature target) (num radius) feature ∧
      feature ∈ data) as Hbind.
  { intros result. unfold processWithin.
    rewrite Htarget, Hdistance, Hunits. simpl defaulted.
    rewrite to_meters_number. apply list_elem_of_bind. }
  split.
  - intros feature km Hin Hgeometry Hkm. rewrite Hbind. split.
    + intros (feature' & Hstep & _).
      apply processWithin_step_elem in Hstep
        as (km' & _ & _ & Hle & Heq).
      apply (f_equal (fun r =>
        SpatialResult.properties r !! "distance_to_target")) in Heq.
      rewrite !withinResult_distance in Heq.
      injection Heq as ->. exact Hle.
    + intros Hle. exists feature. split; [|exact Hin].
      apply processWithin_step_elem. by exists km.
  - intros result (feature & Hstep & Hin)%Hbind.
    apply processWithin_step_elem in Hstep as (km & _ & Hkm & Hle & ->).
    exists feature, km. split_and!; try done.
    + apply withinResult_distance.
    + apply withinResult_radius.
Qed.

(** *** AREA_FILTER *)

Lemma processAreaFilter_step_monotone h (a1 a2 : float) feature :
  (a1 <=? a2)%float = true →
  match processAreaFilter_step h (num a1) feature,
        processAreaFilter_step h (num a2) feature with
  | Returns pushed1, Returns pushed2 => pushed2 `sublist_of` pushed1
  | Throws e1, Throws e2 => e1 = e2
  | _, _ => False
  end.
Proof.
  intros Hle. unfold processAreaFilter_step.
  case_bool_decide; [|done].
  destruct (turf_area _) as [area|thrown]; simpl; [|done].
  destruct (a2 <=? _)%float eqn:H2; [|apply sublist_nil_l].
  by rewrite (number_leb_trans _ _ _ Hle H2).
Qed.

Lemma for_each_monotone
    (step1 step2 : Feature.t → outcome (list SpatialResult.t)) data :
  (∀ feature,
     match step1 feature, step2 feature with
     | Returns pushed1, Returns pushed2 => pushed2 `sublist_of` pushed1
     | Throws e1, Throws e2 => e1 = e2
     | _, _ => False
     end) →
  match for_each step1 data, for_each step2 data with
  | Returns results1, Returns results2 => results2 `sublist_of` results1
  | Throws e1, Throws e2 => e1 = e2
  | _, _ => False
  end.
Proof.
  intros Hstep. induction data as [|feature data IH]; [simpl; constructor|].
  cbn [for_each]. specialize (Hstep feature).
  destruct (step1 feature) as [pushed1|e1], (step2 feature) as [pushed2|e2];
    simpl; try done.
  destruct (for_each step1 data) as [results1|e1],
           (for_each step2 data) as [results2|e2]; simpl; try done.
  by apply sublist_app.
Qed.

(** C8.  AREA_FILTER is monotone in [minArea]: for thresholds
    [a1 <= a2] the results for [a2] are, in order, among the results for
    [a1]; in particular each of them is a result for [a1] and there are no
    more of them.  The two calls return or throw together: when the
    library throws while a feature is measured, both throw the same. *)
Theorem processAreaFilter_monotone (operation1 operation2 : SpatialOperation.t)
    (data : list Feature.t) (h : heap) (a1 a2 : float) :
  get (SpatialOperation.parameters operation1) "minArea" = num a1 →
  get (SpatialOperation.parameters operation2) "minArea" = num a2 →
  (a1 <=? a2)%float = true →
  match processAreaFilter operation1 data h,
        processAreaFilter operation2 data h with
  | Returns results1, Returns results2 =>
      results2 `sublist_of` results1 ∧
      (∀ result, result ∈ results2 → result ∈ results1) ∧
      (length results2 ≤ length results1)%nat
  | Throws e1, Throws e2 => e1 = e2
  | _, _ => False
  end.
Proof.
  intros H1 H2 Hle.
  pose proof (for_each_monotone (processAreaFilter_step h (num a1))
                (processAreaFilter_step h (num a2)) data
                (fun feature =>
                   processAreaFilter_step_monotone h a1 a2 feature Hle))
    as Hsub.
  unfold processAreaFilter. rewrite H1, H2.
  destruct (for_each (processAreaFilter_step h (num a1)) data)
    as [results1|e1],
    (for_each (processAreaFilter_step h (num a2)) data) as [results2|e2];
    try done.
  split_and!; [exact Hsub| |by apply sublist_length].
  intros result Hin.
  by apply (sublist_subseteq _ _ Hsub).
Qed.

(** *** BUFFER *)

(** Fifty miles are 80467 metres. *)
Lemma fifty_miles_in_meters : (50 * 1609.34)%float = 80467%float.
Proof. reflexivity. Qed.


(** *** Sharing of geometry objects *)

(** A loop that pushes, for a feature, only results holding that feature's
    own geometry reference. *)
Lemma bind_shares_geometry (step : Feature.t → list SpatialResult.t)
    (data : list Feature.t) :
  (∀ feature result,
     result ∈ step feature →
     SpatialResult.geometry result = Feature.geometry feature) →
  Forall (fun result =>
            ∃ feature, feature ∈ data ∧
              SpatialResult.geometry result = Feature.geometry feature)
         (data ≫= step).
Proof.
  intros Hstep. apply Forall_forall. intros result Hin.
  apply list_elem_of_bind in Hin as (feature & Hin & Hdata).
  exists feature. split; [exact Hdata|by apply Hstep].
Qed.

Ltac step_cases :=
  repeat match goal with
         | H : _ ∈ (if ?b then _ else _) |- _ => destruct b
         | H : _ ∈ match ?o with Answers _ => _ | Fails _ => _ end |- _ =>
             destruct o
         | H : _ ∈ match ?o with Returns _ => _ | Throws _ => _ end |- _ =>
             destruct o; simpl in H
         | H : _ ∈ [] |- _ => by apply elem_of_nil in H
         | H : _ ∈ [_] |- _ => apply list_elem_of_singleton in H; subst
         end.

Lemma processWithin_shares operation data h :
  Forall (fun result =>
            ∃ feature, feature ∈ data ∧
              SpatialResult.geometry result = Feature.geometry feature)
         (processWithin operation data h).
Proof.
  apply bind_shares_geometry. intros feature result Hin.
  unfold processWithin_step in Hin. by step_cases.
Qed.

Lemma processTouches_shares operation data h results :
  processTouches operation data h = Returns results →
  Forall (fun result =>
            ∃ feature, feature ∈ data ∧
              SpatialResult.geometry result = Feature.geometry feature)
         results.
Proof.
  intros [_ ->]%for_each_Returns.
  apply bind_shares_geometry. intros feature result Hin.
  unfold pushes, processTouches_step, call in Hin.
  repeat case_match; simplify_eq/=; by step_cases.
Qed.

Lemma processIntersects_shares operation data h results :
  processIntersects operation data h = Returns results →
  Forall (fun result =>
            ∃ feature, feature ∈ data ∧
              SpatialResult.geometry result = Feature.geometry feature)
         results.
Proof.
  intros [_ ->]%for_each_Returns.
  apply bind_shares_geometry. intros feature result Hin.
  unfold pushes, processIntersects_step, call in Hin.
  repeat case_match; simplify_eq/=; by step_cases.
Qed.

Lemma processAreaFilter_shares operation data h results :
  processAreaFilter operation data h = Returns results →
  Forall (fun result =>
            ∃ feature, feature ∈ data ∧
              SpatialResult.geometry result = Feature.geometry feature)
         results.
Proof.
  intros [_ ->]%for_each_Returns.
  apply bind_shares_geometry. intros feature result Hin.
  unfold pushes, processAreaFilter_step, call in Hin.
  repeat case_match; simplify_eq/=; by step_cases.
Qed.

Lemma processDifference_shares operation data results :
  processDifference operation data = Returns results →
  Forall (fun result =>
            ∃ feature, feature ∈ data ∧
              SpatialResult.geometry result = Feature.geometry feature)
         results.
Proof.
  unfold processDifference. destruct (length data <? 2)%nat; [done|].
  destruct data as [|base subtractors]; [done|].
  intros [= <-]. repeat constructor. exists base. split; [|done].
  apply list_elem_of_here.
Qed.

(** The union loop only adds geometry objects to the store; what it ends
    with is the value it started with (when there was nothing to fold),
    [null], or a feature on an object it added. *)
Lemma processUnion_loop_frame rest unioned h result h' :
  processUnion_loop unioned rest h = Returns (result, h') →
  h ⊆ h' ∧
  (result = unioned ∧ rest = [] ∨
   result = VPrim PNull ∨
   ∃ l, result = VFeature (Feature.mk (Some l) (Some ∅)) ∧ l ∉ dom h).
Proof.
  revert unioned h. induction rest as [|feature rest IH]; intros unioned h.
  - simpl. intros [= <- <-]. split; [done|by left].
  - simpl. destruct (turf_union _ _) as [[g|]|thrown]; simpl; [| |done].
    + intros Hrun. pose proof (fresh_insert_subseteq h g) as Hins.
      destruct (IH _ _ Hrun) as [Hsub [[Heq _]|[Heq|(l & Heq & Hl)]]].
      * split; [by trans (<[fresh (dom h) := g]> h)|].
        right; right. exists (fresh (dom h)). split; [done|apply is_fresh].
      * split; [by trans (<[fresh (dom h) := g]> h)|]. by right; left.
      * split; [by trans (<[fresh (dom h) := g]> h)|].
        right; right. exists l. split; [done|].
        by apply (not_in_dom_weaken _ _ _ Hins).
    + intros Hrun.
      destruct (IH _ _ Hrun) as [Hsub [[Heq _]|[Heq|(l & Heq & Hl)]]].
      * split; [done|]. by right; left.
      * split; [done|]. by right; left.
      * split; [done|]. right; right. by exists l.
Qed.

Lemma processUnion_frame operation data h results h' :
  processUnion operation data h = Returns (results, h') →
  h ⊆ h' ∧
  Forall (fun result =>
            ∃ l, SpatialResult.geometry result = Some l ∧ l ∉ dom h)
         results.
Proof.
  unfold processUnion. destruct (length data <? 2)%nat eqn:Hlen; [done|].
  destruct data as [|first [|second rest]]; [done|done|].
  destruct (processUnion_loop _ _ _) as [[unioned h1]|e] eqn:Hloop;
    simpl; [|done].
  destruct (processUnion_loop_frame _ _ _ _ _ Hloop) as [Hsub Hend].
  destruct Hend as [[_ [=]]|[->|(l & -> & Hl)]]; simpl; [done|].
  intros [= <- <-]. split; [exact Hsub|].
  repeat constructor. by exists l.
Qed.

(** A result on an object outside the input store shares its geometry with
    no stored input feature. *)
Lemma fresh_not_aliased h data result :
  stored h data →
  (∃ l, SpatialResult.geometry result = Some l ∧ l ∉ dom h) →
  ∀ feature, feature ∈ data → ¬ aliases result feature.
Proof.
  intros Hstored (l & Hl & Hfresh) feature Hin (l' & Hl' & Hf).
  rewrite Hl in Hl'. injection Hl' as <-.
  apply Hfresh, elem_of_dom.
  by apply (proj1 (Forall_forall _ _) Hstored feature Hin).
Qed.

Ltac not_listed :=
  let Hin := fresh "Hin" in
  intros Hin;
  repeat (apply elem_of_cons in Hin as [Hin|Hin]; [discriminate Hin|]);
  by apply elem_of_nil in Hin.

(** C9, amended.  A call of the engine that returns leaves every geometry
    object of the input store as it was.  For WITHIN, TOUCHES, INTERSECTS,
    AREA_FILTER and DIFFERENCE the store is not changed at all and the
    geometry of each result is the geometry reference of an input feature
    (the object is shared, not copied); for BUFFER and UNION the geometry
    of each result is an object added by the call, shared with no input
    feature. *)
Theorem processOperation_store_and_sharing (operation : SpatialOperation.t)
    (data : list Feature.t) (h h' : heap) (results : list SpatialResult.t) :
  processOperation operation data h = Returns (results, h') →
  h ⊆ h' ∧
  (SpatialOperation.type operation
     ∈ ["WITHIN"; "TOUCHES"; "INTERSECTS"; "AREA_FILTER"; "DIFFERENCE"] →
   h' = h ∧
   Forall (fun result =>
             ∃ feature, feature ∈ data ∧
               SpatialResult.geometry result = Feature.geometry feature)
          results) ∧
  (SpatialOperation.type operation ∈ ["BUFFER"; "UNION"] →
   Forall (fun result =>
             ∃ l, SpatialResult.geometry result = Some l ∧ l ∉ dom h)
          results ∧
   (stored h data →
    Forall (fun result =>
              ∀ feature, feature ∈ data → ¬ aliases result feature)
           results)).
Proof.
  unfold processOperation.
  repeat match goal with
         | |- context [String.eqb ?a ?b] =>
             destruct (String.eqb_spec a b) as [->|?]
         end.
  - (* BUFFER *)
    intros [Hsub Hfresh]%processBuffer_loop_frame.
    split_and!; [done|not_listed|].
    intros _. split; [done|]. intros Hstored.
    eapply Forall_impl; [exact Hfresh|].
    intros result Hnew. by apply (fresh_not_aliased h).
  - (* WITHIN *)
    intros [= <- <-]. split_and!; [done| |not_listed].
    intros _. split; [done|apply processWithin_shares].
  - (* TOUCHES *)
    destruct (processTouches operation data h) as [rs|e] eqn:Hrun; [|done].
    intros [= <- <-]. split_and!; [done| |not_listed].
    intros _. split; [done|by apply (processTouches_shares operation _ h)].
  - (* INTERSECTS *)
    destruct (processIntersects operation data h) as [rs|e] eqn:Hrun;
      [|done].
    intros [= <- <-]. split_and!; [done| |not_listed].
    intros _.
    split; [done|by apply (processIntersects_shares operation _ h)].
  - (* AREA_FILTER *)
    destruct (processAreaFilter operation data h) as [rs|e] eqn:Hrun;
      [|done].
    intros [= <- <-]. split_and!; [done| |not_listed].
    intros _.
    split; [done|by apply (processAreaFilter_shares operation _ h)].
  - (* UNION *)
    intros [Hsub Hfresh]%processUnion_frame.
    split_and!; [done|not_listed|].
    intros _. split; [done|]. intros Hstored.
    eapply Forall_impl; [exact Hfresh|].
    intros result Hnew. by apply (fresh_not_aliased h).
  - (* DIFFERENCE *)
    destruct (processDifference operation data) as [rs|e] eqn:Hrun; [|done].
    intros [= <- <-]. split_and!; [done| |not_listed].
    intros _. split; [done|by apply (processDifference_shares operation)].
  - done.
Qed.

End EngineFacts.

(** ** The place-name resolver *)

Lemma array_find_Some predicate features feature :
  array_find predicate features = Returns (Some feature) →
  feature ∈ features ∧ predicate feature = Returns true.
Proof.
  induction features as [|first rest IH]; simpl; [done|].
  destruct (predicate first) as [[|]|e] eqn:Hfirst; simpl; [| |done].
  - intros [= <-]. split; [apply list_elem_of_here|done].
  - intros [Hin Hp]%IH. split; [by apply list_elem_of_further|done].
Qed.

Lemma isUS_spec country :
  isUS (Some country) = true ↔ country = "united states" ∨ country = "usa".
Proof.
  unfold isUS. rewrite orb_true_iff.
  by rewrite !String.eqb_eq.
Qed.

Lemma exactUS_true feature :
  exactUS feature = Returns true ↔
  namedSanFrancisco feature ∧ inUnitedStates feature.
Proof.
  unfold exactUS, namedSanFrancisco, inUnitedStates.
  destruct (lowerField "NAME" feature) as [name|e]; simpl;
    [|split; [done|by intros [? _]]].
  destruct (lowerField "SOV0NAME" feature) as [country|e]; simpl;
    [|split; [done|by intros [_ (? & ? & _)]]].
  split.
  - intros [= [Hname Hcountry]%andb_true_iff].
    destruct name as [name|]; [|done]. apply String.eqb_eq in Hname as ->.
    destruct country as [country|]; [|done].
    split; [done|]. exists country. split; [done|by apply isUS_spec].
  - intros [[= ->] (c & [= ->] & Hc)].
    apply isUS_spec in Hc. unfold isUS in Hc. simpl. by rewrite Hc.
Qed.

(** The first search of the San Francisco case finds a United States San
    Francisco whenever the collection holds one. *)
Lemma array_find_exactUS features us :
  Forall textFields features →
  us ∈ features →
  namedSanFrancisco us ∧ inUnitedStates us →
  ∃ feature,
    array_find exactUS features = Returns (Some feature) ∧
    feature ∈ features ∧
    namedSanFrancisco feature ∧ inUnitedStates feature.
Proof.
  intros Htext Hin Hus.
  induction Htext as [|first rest Hfirst Hrest IH]; [by apply elem_of_nil in Hin|].
  simpl. destruct (exactUS first) as [[|]|e] eqn:Hp; simpl.
  - apply exactUS_true in Hp as [Hname Hcountry].
    exists first. split_and!; [done|apply list_elem_of_here|done|done].
  - apply elem_of_cons in Hin as [->|Hin].
    + apply exactUS_true in Hus. congruence.
    + destruct (IH Hin) as (feature & Hfind & Hmem & Hf).
      destruct Hf as [Hname Hcountry].
      exists feature.
      split_and!; [done|by apply list_elem_of_further|done|done].
  - exfalso. destruct Hfirst as [[name Hname] [country Hcountry]].
    unfold exactUS in Hp. by rewrite Hname, Hcountry in Hp.
Qed.

(** C7.  In a collection whose name and country fields are strings where
    present, holding a United States San Francisco and a San Francisco of
    another country, the name ["San Francisco"] resolves to a United States
    San Francisco of the collection, in whatever order the features come;
    when the collection has one such feature only, it is the one returned. *)
Theorem findFeatureByName_prefers_US (features features' : list Feature.t)
    (us other : Feature.t) :
  Forall textFields features →
  us ∈ features →
  namedSanFrancisco us ∧ inUnitedStates us →
  other ∈ features →
  namedSanFrancisco other ∧ ¬ inUnitedStates other →
  features' ≡ₚ features →
  ∃ feature,
    findFeatureByName features' "San Francisco" = Returns (Some feature) ∧
    feature ∈ features ∧
    namedSanFrancisco feature ∧ inUnitedStates feature ∧
    ((∀ f, f ∈ features → namedSanFrancisco f ∧ inUnitedStates f → f = us) →
     feature = us).
Proof.
  intros Htext Hus HusSF _ _ Hperm.
  assert (Forall textFields features') as Htext' by by rewrite Hperm.
  assert (us ∈ features') as Hus' by by rewrite Hperm.
  destruct (array_find_exactUS features' us Htext' Hus' HusSF)
    as (feature & Hfind & Hmem & Hname & Hcountry).
  rewrite Hperm in Hmem.
  exists feature. split_and!; try done.
  - unfold findFeatureByName.
    change (includes (toLowerCase "San Francisco") "san francisco") with true.
    cbv iota. by rewrite Hfind.
  - intros Hunique. by apply Hunique.
Qed.

(** Everything the resolver throws is a [TypeError]. *)
Lemma lowerField_TypeError key feature e :
  lowerField key feature = Throws e → e = TypeError.
Proof.
  unfold lowerField. repeat case_match; congruence.
Qed.

Lemma nameIncludes_TypeError featureName s e :
  nameIncludes featureName s = Throws e → e = TypeError.
Proof. destruct featureName; simpl; congruence. Qed.

Ltac throws_TypeError H :=
  repeat match type of H with
         | context [lowerField ?k ?f] =>
             let E := fresh "E" in
             destruct (lowerField k f) eqn:E; simpl in H;
             [|apply lowerField_TypeError in E]
         | context [nameIncludes ?n ?s] =>
             let E := fresh "E" in
             destruct (nameIncludes n s) eqn:E; simpl in H;
             [|apply nameIncludes_TypeError in E]
         end; congruence.

Lemma exactUS_TypeError feature e :
  exactUS feature = Throws e → e = TypeError.
Proof. unfold exactUS. intros H. throws_TypeError H. Qed.

Lemma partialUS_TypeError normalizedName feature e :
  partialUS normalizedName feature = Throws e → e = TypeError.
Proof. unfold partialUS. intros H. throws_TypeError H. Qed.

Lemma exact_TypeError normalizedName feature e :
  exact normalizedName feature = Throws e → e = TypeError.
Proof. unfold exact. intros H. throws_TypeError H. Qed.

Lemma partialAny_TypeError normalizedName feature e :
  partialAny normalizedName feature = Throws e → e = TypeError.
Proof. unfold partialAny. intros H. throws_TypeError H. Qed.

Lemma array_find_TypeError predicate features e :
  (∀ feature e', predicate feature = Throws e' → e' = TypeError) →
  array_find predicate features = Throws e → e = TypeError.
Proof.
  intros Hp. induction features as [|first rest IH]; simpl; [done|].
  destruct (predicate first) as [[|]|e'] eqn:Hfirst; simpl; [done|exact IH|].
  intros [= <-]. by apply (Hp first).
Qed.

Lemma findFeatureByName_general_TypeError features normalizedName e :
  findFeatureByName_general features normalizedName = Throws e → e = TypeError.
Proof.
  unfold findFeatureByName_general.
  destruct (array_find (exact normalizedName) features) as [[f|]|e1] eqn:H1;
    simpl; [done| |].
  - destruct (array_find (partialUS normalizedName) features)
      as [[f|]|e2] eqn:H2; simpl; [done| |].
    + apply array_find_TypeError, partialAny_TypeError.
    + intros [= <-].
      by apply (array_find_TypeError _ _ _ (partialUS_TypeError _) H2).
  - intros [= <-].
    by apply (array_find_TypeError _ _ _ (exact_TypeError _) H1).
Qed.

Lemma findFeatureByName_TypeError features name e :
  findFeatureByName features name = Throws e → e = TypeError.
Proof.
  unfold findFeatureByName.
  destruct (includes _ _); [|apply findFeatureByName_general_TypeError].
  destruct (array_find exactUS features) as [[f|]|e1] eqn:H1; simpl; [done| |].
  - destruct (array_find (partialUS "san francisco") features)
      as [[f|]|e2] eqn:H2; simpl; [done| |].
    + apply findFeatureByName_general_TypeError.
    + intros [= <-].
      by apply (array_find_TypeError _ _ _ (partialUS_TypeError _) H2).
  - intros [= <-]. by apply (array_find_TypeError _ _ _ exactUS_TypeError H1).
Qed.

(** X3.  [findFeatureByName] returns, or throws a [TypeError]. *)
Lemma findFeatureByName_outcome features name :
  (∃ found, findFeatureByName features name = Returns found) ∨
  findFeatureByName features name = Throws TypeError.
Proof.
  destruct (findFeatureByName features name) as [found|e] eqn:Hrun.
  - left. by exists found.
  - right. f_equal. by apply (findFeatureByName_TypeError features name).
Qed.

(** A search that meets, before any feature it accepts, a feature on which
    its predicate throws, throws. *)
Lemma array_find_reaches predicate before feature after :
  (∀ f, f ∈ before → predicate f ≠ Returns true) →
  (∃ e, predicate feature = Throws e) →
  ∃ e, array_find predicate (before ++ feature :: after) = Throws e.
Proof.
  intros Hbefore [e He].
  induction before as [|first rest IH]; simpl.
  - rewrite He. by exists e.
  - destruct (predicate first) as [[|]|e'] eqn:Hfirst; simpl.
    + exfalso. by apply (Hbefore first); [apply list_elem_of_here|].
    + apply IH. intros f Hf. apply Hbefore. by apply list_elem_of_further.
    + by exists e'.
Qed.

Lemma exact_true normalizedName feature :
  exact normalizedName feature = Returns true →
  lowerField "NAME" feature = Returns (Some normalizedName).
Proof.
  unfold exact. destruct (lowerField "NAME" feature) as [[n|]|e]; simpl;
    [|done|done].
  by intros [= ->%String.eqb_eq].
Qed.

Lemma partialUS_true normalizedName feature :
  partialUS normalizedName feature = Returns true →
  ∃ n, lowerField "NAME" feature = Returns (Some n) ∧
       includes n normalizedName = true.
Proof.
  unfold partialUS. destruct (lowerField "NAME" feature) as [[n|]|e]; simpl;
    destruct (lowerField "SOV0NAME" feature) as [country|e']; simpl;
    try done.
  intros [= [Hin _]%andb_true_iff]. by exists n.
Qed.

Lemma partialUS_nameless normalizedName feature :
  lowerField "NAME" feature = Returns None →
  ∃ e, partialUS normalizedName feature = Throws e.
Proof.
  intros Hname. unfold partialUS. rewrite Hname. simpl.
  destruct (lowerField "SOV0NAME" feature) as [country|e]; simpl; eauto.
Qed.

Lemma partialUS_inUnitedStates normalizedName feature :
  partialUS normalizedName feature = Returns true → inUnitedStates feature.
Proof.
  unfold partialUS, inUnitedStates.
  destruct (lowerField "NAME" feature) as [[n|]|e]; simpl;
    destruct (lowerField "SOV0NAME" feature) as [country|e']; simpl;
    try done.
  intros [= [_ Hus]%andb_true_iff].
  destruct country as [country|]; [|done].
  exists country. split; [done|by apply isUS_spec].
Qed.

(** C10, amended.  Let the lower-cased query be the name of no feature, and
    let the collection hold a feature without a [NAME] that comes before
    every feature whose name contains the query.  If the query does not
    mention San Francisco, [findFeatureByName] throws a [TypeError].  If it
    does, [findFeatureByName] throws a [TypeError] as well, provided that
    the collection holds no United States feature named San Francisco and
    that no United States feature whose name contains "san francisco" comes
    before the feature without a name. *)
Theorem findFeatureByName_nameless_throws (features before after : list Feature.t)
    (nameless : Feature.t) (name : string) :
  (includes (toLowerCase name) "san francisco" = true →
   (∀ f, f ∈ features → ¬ (namedSanFrancisco f ∧ inUnitedStates f)) ∧
   (∀ f n, f ∈ before →
           lowerField "NAME" f = Returns (Some n) →
           includes n "san francisco" = true →
           ¬ inUnitedStates f)) →
  (∀ f, f ∈ features →
        lowerField "NAME" f ≠ Returns (Some (toLowerCase name))) →
  features = before ++ nameless :: after →
  lowerField "NAME" nameless = Returns None →
  (∀ f n, f ∈ before → lowerField "NAME" f = Returns (Some n) →
          includes n (toLowerCase name) = false) →
  findFeatureByName features name = Throws TypeError.
Proof.
  intros Hsf Hexact -> Hnameless Hbefore.
  set (features := before ++ nameless :: after) in *.
  assert (∃ e, array_find (partialUS (toLowerCase name)) features = Throws e)
    as [e2 Hpartial].
  { apply array_find_reaches; [|by apply partialUS_nameless].
    intros f Hf (n & Hn & Hin)%partialUS_true.
    rewrite (Hbefore f n Hf Hn) in Hin. discriminate Hin. }
  assert (∀ f, array_find (exact (toLowerCase name)) features
               ≠ Returns (Some f)) as Hnoexact.
  { intros f [Hf Hp%exact_true]%array_find_Some. by apply (Hexact f). }
  assert (∃ e, findFeatureByName_general features (toLowerCase name) = Throws e)
    as [e3 Hgeneral].
  { unfold findFeatureByName_general.
    destruct (array_find (exact _) features) as [[f|]|e1] eqn:H1; simpl.
    - by destruct (Hnoexact f).
    - rewrite Hpartial. simpl. eauto.
    - eauto. }
  assert (∃ e, findFeatureByName features name = Throws e) as [e He].
  { unfold findFeatureByName.
    destruct (includes (toLowerCase name) "san francisco") eqn:Hinc;
      [|eauto].
    destruct (Hsf eq_refl) as [Hnone Hnopartial].
    assert (∃ e, array_find (partialUS "san francisco") features = Throws e)
      as [e4 Hspecial].
    { apply array_find_reaches; [|by apply partialUS_nameless].
      intros f Hf Htrue.
      pose proof (partialUS_inUnitedStates _ _ Htrue) as Hus.
      apply partialUS_true in Htrue as (n & Hn & Hin).
      by apply (Hnopartial f n Hf Hn Hin). }
    destruct (array_find exactUS features) as [[f|]|e1] eqn:H1; simpl.
    - exfalso. apply array_find_Some in H1 as [Hf Hus%exactUS_true].
      by apply (Hnone f Hf).
    - rewrite Hspecial. simpl. eauto.
    - eauto. }
  rewrite He. f_equal. by apply (findFeatureByName_TypeError features name).
Qed.

(** C10, as stated, fails: the query ["San Francisco, CA"] is the name of no
    feature of this collection and the feature without a [NAME] comes first,
    before any feature whose name contains the query; the special case
    returns the United States San Francisco and nothing is thrown. *)
Lemma findFeatureByName_nameless_returns :
  let nameless := Feature.mk (Some 1%positive) (Some ∅) in
  let sf := Feature.mk (Some 2%positive)
              (Some (<["NAME" := PStr "San Francisco"]>
                     (<["SOV0NAME" := PStr "United States"]> ∅))) in
  let name := "San Francisco, CA" in
  (∀ f, f ∈ [nameless; sf] →
        lowerField "NAME" f ≠ Returns (Some (toLowerCase name))) ∧
  lowerField "NAME" nameless = Returns None ∧
  (∀ f n, f ∈ [] → lowerField "NAME" f = Returns (Some n) →
          includes n (toLowerCase name) = false) ∧
  findFeatureByName ([] ++ nameless :: [sf]) name = Returns (Some sf) ∧
  findFeatureByName ([] ++ nameless :: [sf]) name ≠ Throws TypeError.
Proof.
  split_and!; [| | | |by vm_compute].
  - intros f Hf.
    apply elem_of_cons in Hf as [->|Hf]; [by vm_compute|].
    apply list_elem_of_singleton in Hf as ->. by vm_compute.
  - reflexivity.
  - intros f n Hf. by apply elem_of_nil in Hf.
  - vm_compute. reflexivity.
Qed.


(** * Runs on the sample data *)

Ltac in_list :=
  repeat first [apply list_elem_of_here | apply list_elem_of_further].

Ltac all_stored :=
  unfold stored;
  repeat (constructor;
          [let l := fresh "l" in
           let Hl := fresh "Hl" in
           intros l Hl; simpl in Hl;
           first [discriminate Hl
                 |injection Hl as <-; vm_compute; eauto]|]);
  constructor.


(** C2 on the grid: the lake minus the pond inside it.  The result refers to
    the lake's own geometry object, which still holds the three cells of the
    lake; subtracting the pond's cell would leave two. *)
Example processDifference_skips_subtraction :
  ∃ result,
    processDifference Sample.difference Sample.lakes = Returns [result] ∧
    SpatialResult.geometry result = Feature.geometry Sample.lake ∧
    Sample.store !! 6%positive = Some [(0, 0); (1, 0); (2, 0)]%Z ∧
    Grid.difference [(0, 0); (1, 0); (2, 0)]%Z [(1, 0)]%Z
      = [(0, 0); (2, 0)]%Z.
Proof. eexists. split_and!; reflexivity. Qed.

(** C9, as stated, fails: the engine run for the cities within 50 miles of
    San Francisco returns a result whose geometry is the geometry object of
    the input feature Oakland. *)
Lemma within_result_shares_input_geometry :
  ¬ (∀ results h',
       processOperation Sample.within50 Sample.cities Sample.store
         = Returns (results, h') →
       ∀ result feature,
         result ∈ results → feature ∈ Sample.cities →
         ¬ aliases result feature).
Proof.
  intros H.
  apply (H (processWithin Sample.within50 Sample.cities Sample.store)
           Sample.store eq_refl
           (withinResult Sample.oakland (13 * 1000) (num (50 * 1609.34)))
           Sample.oakland).
  - vm_compute. in_list.
  - unfold Sample.cities. in_list.
  - exists 2%positive. split; reflexivity.
Qed.

Lemma sample_lakes_stored : stored Sample.store Sample.lakes.
Proof. all_stored. Qed.

Lemma validateOperation_type_only_witness :
  validateOperation Sample.bufferNoDistance = true ∧
  SpatialOperation.type Sample.bufferNoDistance = "BUFFER" ∧
  get (SpatialOperation.parameters Sample.bufferNoDistance) "distance"
    = undefined ∧
  Sample.lakes = [] ++ Sample.lake :: [Sample.pond] ∧
  stored Sample.store Sample.lakes ∧
  is_Some (Feature.geometry Sample.lake) ∧
  turf_buffer (arg_of_feature Sample.store Sample.lake) (ArgPrim (PNum nan))
    = Fails "radius must be a number" ∧
  processOperation Sample.bufferNoDistance Sample.lakes Sample.store
    = Throws (Library "radius must be a number").
Proof.
  assert (is_Some (Feature.geometry Sample.lake)) as Hgeometry
    by (by eexists).
  destruct (validateOperation_type_only Sample.bufferNoDistance Sample.lakes
              Sample.store) as (Hvalid & _ & _ & _ & _ & Hbuffer).
  destruct (Hbuffer eq_refl eq_refl) as [Haborts _].
  split; [reflexivity|].
  split; [reflexivity|].
  split; [reflexivity|].
  split; [reflexivity|].
  split; [exact sample_lakes_stored|].
  split; [exact Hgeometry|].
  split; [reflexivity|].
  exact (Haborts [] Sample.lake [Sample.pond] "radius must be a number"
           eq_refl sample_lakes_stored (Forall_nil_2 _) Hgeometry eq_refl).
Defined.

Lemma union_difference_need_two_features_witness :
  (length [Sample.lake] < 2)%nat ∧
  processUnion Sample.union [Sample.lake] Sample.store
    = Throws (Error "Union operation requires at least 2 geometries") ∧
  processDifference Sample.difference [Sample.lake]
    = Throws (Error "Difference operation requires at least 2 geometries").
Proof.
  assert (length [Sample.lake] < 2)%nat as Hlen by (simpl; lia).
  split; [exact Hlen|].
  destruct (union_difference_need_two_features Sample.union [Sample.lake]
              Sample.store Hlen) as (HU & _).
  destruct (union_difference_need_two_features Sample.difference [Sample.lake]
              Sample.store Hlen) as (_ & HD & _).
  split; [exact HU|exact HD].
Defined.

Lemma processWithin_within_distance_witness :
  get (SpatialOperation.parameters Sample.within50) "targetGeometry"
    = VFeature Sample.sanFrancisco ∧
  get (SpatialOperation.parameters Sample.within50) "distance" = num 50 ∧
  get (SpatialOperation.parameters Sample.within50) "units" = str "miles" ∧
  Sample.oakland ∈ Sample.cities ∧
  is_Some (Feature.geometry Sample.oakland) ∧
  turf_distance (arg_of_feature Sample.store Sample.oakland)
                (arg_of_feature Sample.store Sample.sanFrancisco)
    = Answers 13%float ∧
  (withinResult Sample.oakland (13 * 1000) (num (50 * 1609.34))
     ∈ processWithin Sample.within50 Sample.cities Sample.store
   ↔ (13 * 1000 <=? 50 * 1609.34)%float = true).
Proof.
  assert (Sample.oakland ∈ Sample.cities) as Hin
    by (unfold Sample.cities; in_list).
  assert (is_Some (Feature.geometry Sample.oakland)) as Hgeometry
    by (by eexists).
  split_and!; [reflexivity|reflexivity|reflexivity|exact Hin|exact Hgeometry
              |reflexivity|].
  exact (proj1 (processWithin_within_distance Sample.within50 Sample.cities
                  Sample.store Sample.sanFrancisco 50 "miles"
                  eq_refl eq_refl eq_refl)
           Sample.oakland 13%float Hin Hgeometry eq_refl).
Defined.

(** C5, as stated, fails: with the unit [kilometers] the radius is not
    converted.  Oakland is 13 km from San Francisco, which is within 50 km,
    and the engine run for 50 kilometres returns no result for it: the
    radius it uses is 50 metres. *)
Lemma processWithin_kilometers_not_converted :
  ¬ (∀ (operation : SpatialOperation.t) (data : list Feature.t) (h : heap)
       (target : Feature.t) (distance : float) (units : string),
       get (SpatialOperation.parameters operation) "targetGeometry"
         = VFeature target →
       get (SpatialOperation.parameters operation) "distance"
         = num distance →
       get (SpatialOperation.parameters operation) "units" = str units →
       ∀ feature km,
         feature ∈ data →
         is_Some (Feature.geometry feature) →
         turf_distance (arg_of_feature h feature) (arg_of_feature h target)
           = Answers km →
         ((∃ result,
             result ∈ processWithin operation data h ∧
             SpatialResult.geometry result = Feature.geometry feature)
          ↔ (km * 1000 <=? spec_radiusInMeters distance units)%float
            = true)).
Proof.
  intros Hclaim.
  assert (Sample.oakland ∈ Sample.cities) as Hin
    by (unfold Sample.cities; in_list).
  assert (is_Some (Feature.geometry Sample.oakland)) as Hgeometry
    by (by eexists).
  destruct (proj2 (Hclaim Sample.within50km Sample.cities Sample.store
                     Sample.sanFrancisco 50%float "kilometers"
                     eq_refl eq_refl eq_refl
                     Sample.oakland 13%float Hin Hgeometry eq_refl)
              eq_refl) as (result & Hresult & Hshared).
  vm_compute in Hresult.
  apply list_elem_of_singleton in Hresult as ->.
  discriminate Hshared.
Qed.




Lemma processAreaFilter_monotone_witness :
  get (SpatialOperation.parameters (Sample.areaAtLeast 0.1)) "minArea"
    = num 0.1 ∧
  get (SpatialOperation.parameters (Sample.areaAtLeast 0.5)) "minArea"
    = num 0.5 ∧
  (0.1 <=? 0.5)%float = true ∧
  ∃ results1 results2,
    processAreaFilter (Sample.areaAtLeast 0.1) Sample.lakes Sample.store
      = Returns results1 ∧
    processAreaFilter (Sample.areaAtLeast 0.5) Sample.lakes Sample.store
      = Returns results2 ∧
    results2 `sublist_of` results1 ∧
    length results1 = 2%nat ∧ length results2 = 1%nat.
Proof.
  split; [reflexivity|].
  split; [reflexivity|].
  split; [reflexivity|].
  pose proof (processAreaFilter_monotone (Sample.areaAtLeast 0.1)
                (Sample.areaAtLeast 0.5) Sample.lakes Sample.store
                0.1%float 0.5%float eq_refl eq_refl eq_refl) as Hmonotone.
  destruct (processAreaFilter (Sample.areaAtLeast 0.1) Sample.lakes
              Sample.store) as [results1|e1] eqn:H1;
    [|vm_compute in H1; discriminate H1].
  destruct (processAreaFilter (Sample.areaAtLeast 0.5) Sample.lakes
              Sample.store) as [results2|e2] eqn:H2;
    [|vm_compute in H2; discriminate H2].
  exists results1, results2.
  split; [reflexivity|].
  split; [reflexivity|].
  split; [exact (proj1 Hmonotone)|].
  vm_compute in H1. injection H1 as <-.
  vm_compute in H2. injection H2 as <-.
  split; reflexivity.
Defined.

Lemma processOperation_store_and_sharing_witness :
  processOperation Sample.within50 Sample.cities Sample.store
    = Returns (processWithin Sample.within50 Sample.cities Sample.store,
               Sample.store) ∧
  Forall (fun result =>
            ∃ feature, feature ∈ Sample.cities ∧
              SpatialResult.geometry result = Feature.geometry feature)
         (processWithin Sample.within50 Sample.cities Sample.store).
Proof.
  split; [reflexivity|].
  destruct (processOperation_store_and_sharing Sample.within50 Sample.cities
              Sample.store Sample.store
              (processWithin Sample.within50 Sample.cities Sample.store)
              eq_refl) as (_ & Hshared & _).
  apply Hshared. simpl. in_list.
Defined.

Ltac all_text :=
  repeat (constructor; [split; eexists; vm_compute; reflexivity|]);
  constructor.

Lemma sample_cities_text : Forall textFields Sample.cities.
Proof. all_text. Qed.

Lemma sample_us_san_francisco :
  namedSanFrancisco Sample.sanFrancisco ∧ inUnitedStates Sample.sanFrancisco.
Proof.
  split; [reflexivity|].
  exists "united states". split; [reflexivity|by left].
Qed.

Lemma sample_other_san_francisco :
  namedSanFrancisco Sample.sanFranciscoMX ∧
  ¬ inUnitedStates Sample.sanFranciscoMX.
Proof.
  split; [reflexivity|].
  intros (country & Hcountry & Hus). vm_compute in Hcountry.
  injection Hcountry as <-. by destruct Hus.
Qed.

Lemma findFeatureByName_prefers_US_witness :
  Forall textFields Sample.cities ∧
  Sample.sanFrancisco ∈ Sample.cities ∧
  (namedSanFrancisco Sample.sanFrancisco ∧
   inUnitedStates Sample.sanFrancisco) ∧
  Sample.sanFranciscoMX ∈ Sample.cities ∧
  (namedSanFrancisco Sample.sanFranciscoMX ∧
   ¬ inUnitedStates Sample.sanFranciscoMX) ∧
  reverse Sample.cities ≡ₚ Sample.cities ∧
  ∃ feature,
    findFeatureByName (reverse Sample.cities) "San Francisco"
      = Returns (Some feature) ∧
    namedSanFrancisco feature ∧ inUnitedStates feature.
Proof.
  assert (Sample.sanFrancisco ∈ Sample.cities) as Hus
    by (unfold Sample.cities; in_list).
  assert (Sample.sanFranciscoMX ∈ Sample.cities) as Hother
    by (unfold Sample.cities; in_list).
  split; [exact sample_cities_text|].
  split; [exact Hus|].
  split; [exact sample_us_san_francisco|].
  split; [exact Hother|].
  split; [exact sample_other_san_francisco|].
  split; [apply reverse_Permutation|].
  destruct (findFeatureByName_prefers_US Sample.cities (reverse Sample.cities)
              Sample.sanFrancisco Sample.sanFranciscoMX
              sample_cities_text Hus sample_us_san_francisco
              Hother sample_other_san_francisco
              (reverse_Permutation Sample.cities))
    as (feature & Hfound & _ & Hname & Hcountry & _).
  exists feature. split_and!; [exact Hfound|exact Hname|exact Hcountry].
Defined.

Lemma findFeatureByName_nameless_throws_witness :
  let features :=
    [Sample.sacramento; Sample.nameless; Sample.sanFranciscoMX] in
  let name := "San Francisco, CA" in
  includes (toLowerCase name) "san francisco" = true ∧
  (∀ f, f ∈ features → ¬ (namedSanFrancisco f ∧ inUnitedStates f)) ∧
  (∀ f n, f ∈ [Sample.sacramento] →
          lowerField "NAME" f = Returns (Some n) →
          includes n "san francisco" = true →
          ¬ inUnitedStates f) ∧
  (∀ f, f ∈ features →
        lowerField "NAME" f ≠ Returns (Some (toLowerCase name))) ∧
  features
    = [Sample.sacramento] ++ Sample.nameless :: [Sample.sanFranciscoMX] ∧
  lowerField "NAME" Sample.nameless = Returns None ∧
  (∀ f n, f ∈ [Sample.sacramento] →
          lowerField "NAME" f = Returns (Some n) →
          includes n (toLowerCase name) = false) ∧
  findFeatureByName features name = Throws TypeError.
Proof.
  intros features name.
  assert (∀ f, f ∈ features → ¬ (namedSanFrancisco f ∧ inUnitedStates f))
    as Hnone.
  { intros f Hf [Hname (country & Hcountry & Hus)]. unfold features in Hf.
    repeat (apply elem_of_cons in Hf as [->|Hf];
            [vm_compute in Hname; vm_compute in Hcountry;
             first [discriminate Hname
                   |discriminate Hcountry
                   |injection Hcountry as <-; by destruct Hus]|]).
    by apply elem_of_nil in Hf. }
  assert (∀ f n, f ∈ [Sample.sacramento] →
                 lowerField "NAME" f = Returns (Some n) →
                 includes n "san francisco" = true →
                 ¬ inUnitedStates f) as Hnopartial.
  { intros f n Hf Hn Hin. apply list_elem_of_singleton in Hf as ->.
    vm_compute in Hn. injection Hn as <-. vm_compute in Hin.
    discriminate Hin. }
  assert (∀ f, f ∈ features →
               lowerField "NAME" f ≠ Returns (Some (toLowerCase name)))
    as Hexact.
  { intros f Hf. unfold features in Hf.
    repeat (apply elem_of_cons in Hf as [->|Hf]; [by vm_compute|]).
    by apply elem_of_nil in Hf. }
  assert (∀ f n, f ∈ [Sample.sacramento] →
                 lowerField "NAME" f = Returns (Some n) →
                 includes n (toLowerCase name) = false) as Hbefore.
  { intros f n Hf Hn. apply list_elem_of_singleton in Hf as ->.
    vm_compute in Hn. injection Hn as <-. reflexivity. }
  split; [reflexivity|].
  split; [exact Hnone|].
  split; [exact Hnopartial|].
  split; [exact Hexact|].
  split; [reflexivity|].
  split; [reflexivity|].
  split; [exact Hbefore|].
  exact (findFeatureByName_nameless_throws features [Sample.sacramento]
           [Sample.sanFranciscoMX] Sample.nameless name
           (fun _ => conj Hnone Hnopartial) Hexact eq_refl eq_refl Hbefore).
Defined.


(** * Further facts *)

(** ** Strings *)

Lemma append_nil (s : string) : "" +:+ s = s.
Proof. reflexivity. Qed.

Lemma append_cons (c : ascii) (s t : string) :
  String c s +:+ t = String c (s +:+ t).
Proof. reflexivity. Qed.

Lemma append_nil_r (s : string) : s +:+ "" = s.
Proof. induction s as [|c s IH]; [done|]. by rewrite append_cons, IH. Qed.

Lemma append_assoc (a b c : string) : (a +:+ b) +:+ c = a +:+ (b +:+ c).
Proof.
  induction a as [|x a IH]; [done|]. by rewrite !append_cons, IH.
Qed.

Lemma startsWith_spec s sub :
  startsWith s sub = true ↔ ∃ post, s = sub +:+ post.
Proof.
  revert s. induction sub as [|a sub IH]; intros s.
  - split; [intros _; exists s; reflexivity|]. by destruct s.
  - destruct s as [|b s]; simpl.
    + split; [done|]. intros [post Heq]. by rewrite append_cons in Heq.
    + rewrite andb_true_iff, IH. split.
      * intros [->%Ascii.eqb_eq [post ->]]. by exists post.
      * intros [post Heq]. rewrite append_cons in Heq.
        injection Heq as -> ->.
        split; [apply Ascii.eqb_refl|by exists post].
Qed.

(** [includes] is containment of a substring. *)
Lemma includes_spec s sub :
  includes s sub = true ↔ ∃ pre post, s = pre +:+ sub +:+ post.
Proof.
  induction s as [|c s IH].
  - cbn [includes]. rewrite orb_false_r, startsWith_spec. split.
    + intros [post ->]. exists "", post. reflexivity.
    + intros (pre & post & Heq). destruct pre as [|? ?].
      * exists post. exact Heq.
      * by rewrite append_cons in Heq.
  - cbn [includes]. rewrite orb_true_iff, startsWith_spec, IH. split.
    + intros [[post ->]|(pre & post & ->)].
      * exists "", post. reflexivity.
      * exists (String c pre), post. reflexivity.
    + intros (pre & post & Heq). destruct pre as [|c' pre].
      * left. exists post. exact Heq.
      * right. rewrite append_cons in Heq. injection Heq as -> ->.
        by exists pre, post.
Qed.

Lemma includes_refl s : includes s s = true.
Proof.
  apply includes_spec. exists "", "". by rewrite append_nil, append_nil_r.
Qed.

Lemma span_allChars p s : allChars p (span p s).1 = true.
Proof.
  induction s as [|c s IH]; [done|]. simpl.
  destruct (p c) eqn:Hc; [|done].
  destruct (span p s) as [a b]. simpl in *. by rewrite Hc, IH.
Qed.

Lemma allChars_impl (p q : ascii → bool) s :
  (∀ c, p c = true → q c = true) → allChars p s = true → allChars q s = true.
Proof.
  intros Hpq. induction s as [|c s IH]; [done|]. simpl.
  intros [Hc Hs]%andb_true_iff. by rewrite (Hpq c Hc), IH.
Qed.

Lemma allChars_rev_string p acc s :
  allChars p (rev_string acc s) = allChars p s && allChars p acc.
Proof.
  revert acc. induction s as [|c s IH]; intros acc; [done|]. simpl.
  rewrite IH. simpl. by destruct (p c), (allChars p s), (allChars p acc).
Qed.

Lemma allChars_trimStart p s :
  allChars p s = true → allChars p (trimStart s) = true.
Proof.
  induction s as [|c s IH]; [done|]. simpl.
  intros [Hc Hs]%andb_true_iff.
  destruct (isSpace c); [by apply IH|]. simpl. by rewrite Hc, Hs.
Qed.

Lemma allChars_trim p s : allChars p s = true → allChars p (trim s) = true.
Proof.
  intros Hs. unfold trim.
  rewrite allChars_rev_string, andb_true_r.
  apply allChars_trimStart.
  rewrite allChars_rev_string, andb_true_r.
  by apply allChars_trimStart.
Qed.

Lemma allChars_lastChar p s : allChars p s = true → allChars p (lastChar s) = true.
Proof.
  induction s as [|c s IH]; [done|].
  intros [Hc Hs]%andb_true_iff. destruct s as [|c' s]; simpl.
  - by rewrite Hc.
  - by apply IH.
Qed.

(** *** [trim] leaves no space at either end *)

Lemma rev_string_append acc s : rev_string acc s = rev_string "" s +:+ acc.
Proof.
  revert acc. induction s as [|c s IH]; intros acc; [done|]. simpl.
  rewrite (IH (String c acc)), (IH (String c "")).
  by rewrite append_assoc.
Qed.

Lemma rev_string_app (a b : string) :
  rev_string "" (a +:+ b) = rev_string "" b +:+ rev_string "" a.
Proof.
  induction a as [|c a IH].
  - by rewrite append_nil, append_nil_r.
  - rewrite append_cons. simpl.
    rewrite (rev_string_append (String c "") (a +:+ b)), IH.
    rewrite (rev_string_append (String c "") a).
    by rewrite append_assoc.
Qed.

Lemma rev_string_involutive s : rev_string "" (rev_string "" s) = s.
Proof.
  induction s as [|c s IH]; [done|]. simpl.
  rewrite (rev_string_append (String c "") s), rev_string_app, IH.
  reflexivity.
Qed.

Lemma trimStart_noLeadingSpace s : noLeadingSpace (trimStart s) = true.
Proof.
  induction s as [|c s IH]; [done|]. simpl.
  destruct (isSpace c) eqn:Hc; [exact IH|]. simpl. by rewrite Hc.
Qed.

Lemma trimStart_id s : noLeadingSpace s = true → trimStart s = s.
Proof. destruct s as [|c s]; [done|]. simpl. by destruct (isSpace c). Qed.

Lemma trimStart_split s :
  ∃ spaces, s = spaces +:+ trimStart s.
Proof.
  induction s as [|c s [spaces IH]]; [by exists ""|]. simpl.
  destruct (isSpace c).
  - exists (String c spaces). by rewrite append_cons, <- IH.
  - by exists "".
Qed.

Lemma noLeadingSpace_prefix (a b : string) :
  noLeadingSpace (a +:+ b) = true → nonEmpty a = true →
  noLeadingSpace a = true.
Proof. by destruct a. Qed.

Lemma trim_ends s :
  noLeadingSpace (trim s) = true ∧
  noLeadingSpace (rev_string "" (trim s)) = true.
Proof.
  unfold trim. rewrite rev_string_involutive.
  split; [|apply trimStart_noLeadingSpace].
  pose proof (trimStart_noLeadingSpace s) as Hstart.
  destruct (trimStart_split (rev_string "" (trimStart s))) as [spaces Hsplit].
  set (w := trimStart (rev_string "" (trimStart s))) in *.
  apply (f_equal (rev_string "")) in Hsplit.
  rewrite rev_string_involutive, rev_string_app in Hsplit.
  rewrite Hsplit in Hstart.
  destruct (rev_string "" w) as [|c r] eqn:Hw; [done|].
  by apply (noLeadingSpace_prefix _ _ Hstart).
Qed.

(** [trim] is idempotent: what it returns has nothing left to remove. *)
Lemma trim_idempotent s : trim (trim s) = trim s.
Proof.
  destruct (trim_ends s) as [Hfirst Hlast].
  unfold trim at 1.
  by rewrite (trimStart_id _ Hfirst), (trimStart_id _ Hlast),
    rev_string_involutive.
Qed.

(** ** Parameter extraction and operation construction *)

Lemma leftmost_Some at_front s capture :
  leftmost at_front s = Some capture →
  ∃ pre rest, s = pre +:+ rest ∧ at_front rest = Some capture.
Proof.
  induction s as [|c s IH]; simpl.
  - destruct (at_front "") eqn:Hfront; [|done].
    intros [= ->]. by exists "", "".
  - destruct (at_front (String c s)) eqn:Hfront.
    + intros [= ->]. by exists "", (String c s).
    + intros (pre & rest & -> & Hrest)%IH. by exists (String c pre), rest.
Qed.

Lemma location_at_group s group :
  location_at s = Some group →
  allChars (fun c => isLetter c || isSpace c) group = true.
Proof.
  unfold location_at. destruct (keyword s) as [rest|]; [|done].
  pose proof (span_allChars isSpace rest) as Hspaces.
  destruct (span isSpace rest) as [spaces rest']. simpl in Hspaces.
  destruct (nonEmpty spaces); [|done].
  pose proof (span_allChars (fun c => isLetter c || isSpace c) rest')
    as Hgroup.
  destruct (span _ rest') as [g ?]. simpl in Hgroup.
  destruct (nonEmpty g); [by intros [= <-]|].
  destruct (2 <=? String.length spaces)%nat; [|done].
  intros [= <-]. apply allChars_lastChar.
  eapply allChars_impl; [|exact Hspaces].
  intros c ->. apply orb_true_r.
Qed.

Lemma digitsValue_nonneg acc s : (0 ≤ acc → 0 ≤ digitsValue acc s)%Z.
Proof.
  revert acc. induction s as [|c s IH]; intros acc Hacc; [done|].
  simpl. apply IH. lia.
Qed.

(** What [extractParameters] puts under a key. *)
Lemma extractParameters_lookup query template key v :
  extractParameters query template !! key = Some v →
  (key = "distance" ∧
   ∃ digits, leftmost distance_at query = Some digits ∧
             v = num (parseInt digits)) ∨
  (key = "location" ∧
   ∃ group, leftmost location_at query = Some group ∧
            v = str (trim group)) ∨
  (key = "area" ∧
   ∃ digits, leftmost area_at query = Some digits ∧
             v = num (parseInt digits)).
Proof.
  unfold extractParameters.
  destruct (leftmost distance_at query) as [d|],
           (leftmost location_at query) as [g|],
           (leftmost area_at query) as [a|];
    intros Hlookup;
    repeat (apply lookup_insert_Some in Hlookup
              as [[<- <-]|[? Hlookup]]; [naive_solver|]);
    by rewrite lookup_empty in Hlookup.
Qed.

(** X4.  [extractParameters] yields at most the keys [distance], [location]
    and [area].  [distance] and [area] are the number of a non-negative
    integer (what [parseInt] gives for a run of digits); [location] is a
    string of letters and spaces with no space at either end (possibly
    empty). *)
Theorem extractParameters_shape (query : string) (template : QueryTemplate.t)
    (key : string) (v : value) :
  extractParameters query template !! key = Some v →
  ((key = "distance" ∨ key = "area") ∧
   ∃ z, (0 ≤ z)%Z ∧ v = num (number_of_Z z)) ∨
  (key = "location" ∧
   ∃ s, v = str s ∧
        allChars (fun c => isLetter c || isSpace c) s = true ∧
        trim s = s).
Proof.
  intros [(-> & d & Hd & ->)|[(-> & g & Hg & ->)|(-> & d & Hd & ->)]]
    %extractParameters_lookup.
  - left. split; [by left|]. exists (digitsValue 0 d).
    split; [by apply digitsValue_nonneg|done].
  - right. split; [done|]. exists (trim g). split_and!; [done| |].
    + apply leftmost_Some in Hg as (pre & rest & _ & Hg).
      by apply allChars_trim, (location_at_group rest).
    + apply trim_idempotent.
  - left. split; [by right|]. exists (digitsValue 0 d).
    split; [by apply digitsValue_nonneg|done].
Qed.

Lemma extractParameters_other query template key :
  key ≠ "distance" → key ≠ "location" → key ≠ "area" →
  get (extractParameters query template) key = undefined.
Proof.
  intros H1 H2 H3. unfold get.
  destruct (extractParameters query template !! key) as [v|] eqn:Hv; [|done].
  by apply extractParameters_lookup
    in Hv as [(-> & _)|[(-> & _)|(-> & _)]].
Qed.

Ltac only_key Hk :=
  repeat (apply lookup_insert_Some in Hk as [[<- <-]|[? Hk]];
          [try done|]);
  try by rewrite lookup_empty in Hk.

(** A placeholder is replaced by what the parameters hold under its name,
    for a name that [Object.prototype] does not define. *)
Lemma fill_placeholder params name :
  existsb (String.eqb name) objectPrototype = false →
  fill params (str ("{" +:+ name +:+ "}")) = get params name.
Proof.
  intros Hown.
  assert (startsWith ("{" +:+ name +:+ "}") "{" = true) as Hstarts
    by (apply startsWith_spec; by eexists).
  assert (endsWith ("{" +:+ name +:+ "}") "}" = true) as Hends.
  { unfold endsWith. rewrite !rev_string_app. apply startsWith_spec.
    by eexists. }
  assert (slice_1_m1 ("{" +:+ name +:+ "}") = name) as Hslice.
  { unfold slice_1_m1. simpl.
    rewrite append_nil, rev_string_app.
    change (rev_string "" "}") with "}".
    rewrite append_cons, append_nil. by rewrite rev_string_involutive. }
  unfold fill, str. rewrite Hstarts, Hends, Hslice. cbn [andb].
  unfold member, get. rewrite Hown. by destruct (params !! name).
Qed.

(** X5.  No extraction rule yields a [state], a [layer1] or a [layer2]: for
    every query, the operations built from the border, the rivers and the
    intersection templates have all their parameters [undefined]. *)
Theorem placeholders_never_filled (query : string) (template : QueryTemplate.t) :
  Forall
    (fun t =>
       ∃ operation,
         createSpatialOperation t (extractParameters query template)
           = Some operation ∧
         ∀ key, get (SpatialOperation.parameters operation) key = undefined)
    [borderTemplate; riversTemplate; intersectionTemplate].
Proof.
  repeat constructor; eexists; (split; [reflexivity|]); intros key;
    simpl; unfold get at 1; rewrite lookup_fmap;
    destruct (_ !! key) as [v|] eqn:Hk; simpl; try done.
  - only_key Hk.
    change (str "{state}") with (str ("{" +:+ "state" +:+ "}")).
    rewrite fill_placeholder by reflexivity.
      by apply extractParameters_other.
  - only_key Hk.
    change (str "{state}") with (str ("{" +:+ "state" +:+ "}")).
    rewrite fill_placeholder by reflexivity.
      by apply extractParameters_other.
  - only_key Hk.
    + change (str "{layer1}") with (str ("{" +:+ "layer1" +:+ "}")).
      rewrite fill_placeholder by reflexivity.
      by apply extractParameters_other.
    + change (str "{layer2}") with (str ("{" +:+ "layer2" +:+ "}")).
      rewrite fill_placeholder by reflexivity.
      by apply extractParameters_other.
Qed.

(** ** The template pipeline *)

Lemma toLowerCase_append (a b : string) :
  toLowerCase (a +:+ b) = toLowerCase a +:+ toLowerCase b.
Proof.
  induction a as [|c a IH]; [done|].
  rewrite append_cons. cbn [toLowerCase]. by rewrite append_cons, IH.
Qed.

Lemma includes_within (s word before after : string) :
  includes s word = true →
  includes (before +:+ s +:+ after) word = true.
Proof.
  rewrite !includes_spec. intros (pre & post & ->).
  exists (before +:+ pre), (post +:+ after).
  by rewrite !append_assoc.
Qed.

(** The rules of the matcher only ask whether words occur: a text in which
    every word of another occurs fires a rule when the other does. *)
Lemma findMatchingTemplate_loop_words (q q' : string)
    (template : QueryTemplate.t) :
  (∀ word, includes q word = true → includes q' word = true) →
  findMatchingTemplate_loop q' [template] = None →
  findMatchingTemplate_loop q [template] = None.
Proof.
  intros Hwords. cbn [findMatchingTemplate_loop]. intros Hnone.
  repeat match type of Hnone with
         | (if ?b then _ else _) = None =>
             let E := fresh "E" in
             destruct b eqn:E; [discriminate Hnone|]
         end.
  repeat match goal with
         | |- (if ?b then _ else _) = None =>
             replace b with false;
             [|symmetry;
               repeat match goal with
                      | |- context [includes q ?word] =>
                          let A := fresh "A" in
                          destruct (includes q word) eqn:A;
                          [rewrite (Hwords word A) in *|]
                      end;
               simpl in *; rewrite ?orb_true_r, ?andb_true_r in *;
               simpl in *; congruence]
         end.
  reflexivity.
Qed.

Lemma findMatchingTemplate_loop_single q template rest :
  findMatchingTemplate_loop q (template :: rest) = None →
  findMatchingTemplate_loop q [template] = None.
Proof.
  intros Hnone. cbn [findMatchingTemplate_loop] in Hnone |- *.
  repeat match goal with
         | |- context [if ?b then _ else _] =>
             let E := fresh "E" in
             destruct b eqn:E; try discriminate Hnone
         end.
  reflexivity.
Qed.

(** X6.  The matcher looks for key words only, in any letter case: when a
    query is matched, so is every text that contains it, letter case apart,
    and with the same template. *)
Theorem findMatchingTemplate_contains (query query' before after : string)
    (template : QueryTemplate.t) :
  toLowerCase query' = before +:+ toLowerCase query +:+ after →
  findMatchingTemplate query = Some template →
  findMatchingTemplate query' = Some template.
Proof.
  unfold findMatchingTemplate, SPATIAL_QUERY_TEMPLATES. intros -> Hmatch.
  destruct (findMatchingTemplate_loop_head (toLowerCase query)
              coastlineTemplate
              [citiesTemplate; borderTemplate; riversTemplate; lakesTemplate;
               intersectionTemplate]) as [Hnone|Hsome]; [congruence|].
  destruct (findMatchingTemplate_loop_head
              (before +:+ toLowerCase query +:+ after) coastlineTemplate
              [citiesTemplate; borderTemplate; riversTemplate; lakesTemplate;
               intersectionTemplate]) as [Hnone'|Hsome']; [|congruence].
  exfalso.
  apply findMatchingTemplate_loop_single in Hnone'.
  apply (findMatchingTemplate_loop_words (toLowerCase query)) in Hnone'.
  - apply (findMatchingTemplate_loop_none _ _
             [coastlineTemplate; citiesTemplate; borderTemplate;
              riversTemplate; lakesTemplate; intersectionTemplate]) in Hnone'.
    congruence.
  - intros word Hword. by apply includes_within.
Qed.
(** X7.  Whatever a query asks for, the operation the template path builds
    for it (match, extract, create) is a BUFFER over the coastline layer in
    miles, whose distance is the extracted distance ([undefined] when the
    query has none); validation accepts it. *)
Theorem template_pipeline_always_buffer (query : string)
    (template : QueryTemplate.t) :
  findMatchingTemplate query = Some template →
  ∃ operation,
    createSpatialOperation template (extractParameters query template)
      = Some operation ∧
    SpatialOperation.type operation = "BUFFER" ∧
    SpatialOperation.layers operation = ["coastline"] ∧
    get (SpatialOperation.parameters operation) "units" = str "miles" ∧
    get (SpatialOperation.parameters operation) "distance"
      = get (extractParameters query template) "distance" ∧
    validateOperation operation = true.
Proof.
  intros Hmatch.
  assert (template = coastlineTemplate) as ->.
  { unfold findMatchingTemplate, SPATIAL_QUERY_TEMPLATES in Hmatch.
    destruct (findMatchingTemplate_loop_head (toLowerCase query)
                coastlineTemplate
                [citiesTemplate; borderTemplate; riversTemplate;
                 lakesTemplate; intersectionTemplate]) as [Hnone|Hsome];
      congruence. }
  eexists. split_and!; [reflexivity|reflexivity|reflexivity| | |reflexivity].
  - reflexivity.
  - unfold createSpatialOperation, get at 1.
    cbn [QueryTemplate.spatialOperation coastlineTemplate
         SpatialOperation.parameters TemplateOperation.parameters].
    rewrite lookup_fmap.
    replace (_ !! "distance")
      with (Some (str ("{" +:+ "distance" +:+ "}")))
      by (vm_compute; reflexivity).
    cbn [fmap option_fmap option_map default].
    by rewrite fill_placeholder by reflexivity.
Qed.

(** ** The spatial processor *)

Section EngineFurther.

Context `{Turf}.

Ltac by_type :=
  unfold processOperation;
  repeat match goal with
         | |- context [String.eqb ?a ?b] =>
             destruct (String.eqb_spec a b) as [->|?]
         end.

Ltac listed Hin :=
  repeat (apply elem_of_cons in Hin as [Hin|Hin];
          [try discriminate Hin; try done|]);
  try by apply elem_of_nil in Hin.

(** What a turn that does not throw has pushed. *)
Ltac from_step Hin :=
  unfold pushes, processTouches_step, processIntersects_step,
    processAreaFilter_step, processWithin_step, call in Hin;
  simpl in Hin; repeat (case_match; simplify_eq/=);
  try (by apply elem_of_nil in Hin);
  apply list_elem_of_singleton in Hin as ->.

(** *** What the engine throws *)

Lemma validateOperation_false_throws operation data h :
  validateOperation operation = false →
  processOperation operation data h
    = Throws (Error ("Unsupported operation: "
                     +:+ SpatialOperation.type operation)).
Proof.
  unfold validateOperation. rewrite bool_decide_eq_false.
  intros Hout. unfold processOperation.
  repeat match goal with
         | |- context [String.eqb ?a ?b] =>
             destruct (String.eqb_spec a b) as [Heq|?];
             [exfalso; apply Hout; rewrite Heq; unfold validOperations;
              repeat first [apply list_elem_of_here
                           |apply list_elem_of_further]|]
         end.
  reflexivity.
Qed.

Lemma processBuffer_loop_throws distance units bufferDistance data h e :
  processBuffer_loop distance units bufferDistance data h = Throws e →
  ∃ thrown, e = Library thrown.
Proof.
  revert h. induction data as [|feature data IH]; intros h; simpl; [done|].
  destruct (Feature.geometry feature) as [l0|]; [|apply IH].
  destruct (turf_buffer _ _) as [[g|]|thrown]; simpl; [|apply IH|].
  - destruct (processBuffer_loop _ _ _ data _) as [[rest h1]|e'] eqn:Hrest;
      simpl; [done|].
    intros [= <-]. by apply (IH _ Hrest).
  - intros [= <-]. by exists thrown.
Qed.

Lemma for_each_throws step data e :
  (∀ feature e', step feature = Throws e' → ∃ thrown, e' = Library thrown) →
  for_each step data = Throws e →
  ∃ thrown, e = Library thrown.
Proof.
  intros Hstep (before & feature & after & _ & _ & Hthrows)%for_each_Throws.
  by apply (Hstep feature).
Qed.

Lemma processTouches_step_throws h targetGeometry feature e :
  processTouches_step h targetGeometry feature = Throws e →
  ∃ thrown, e = Library thrown.
Proof.
  unfold processTouches_step, call. intros Hthrows.
  repeat case_match; simplify_eq/=. by eexists.
Qed.

Lemma processIntersects_step_throws h targetGeometry feature e :
  processIntersects_step h targetGeometry feature = Throws e →
  ∃ thrown, e = Library thrown.
Proof.
  unfold processIntersects_step, call. intros Hthrows.
  repeat case_match; simplify_eq/=. by eexists.
Qed.

Lemma processAreaFilter_step_throws h minArea feature e :
  processAreaFilter_step h minArea feature = Throws e →
  ∃ thrown, e = Library thrown.
Proof.
  unfold processAreaFilter_step, call. intros Hthrows.
  repeat case_match; simplify_eq/=. by eexists.
Qed.

Lemma processUnion_loop_throws rest unioned h e :
  processUnion_loop unioned rest h = Throws e →
  ∃ thrown, e = Library thrown.
Proof.
  revert unioned h. induction rest as [|feature rest IH]; intros unioned h;
    simpl; [done|].
  destruct (turf_union _ _) as [[g|]|thrown]; simpl; [apply IH|apply IH|].
  intros [= <-]. by exists thrown.
Qed.

(** The errors of [processOperation]. *)
Lemma processOperation_throws operation data h e :
  processOperation operation data h = Throws e →
  validateOperation operation = false ∧
  e = Error ("Unsupported operation: " +:+ SpatialOperation.type operation) ∨
  SpatialOperation.type operation = "UNION" ∧
  e ∈ [Error "Union operation requires at least 2 geometries"; TypeError] ∨
  SpatialOperation.type operation = "DIFFERENCE" ∧
  e = Error "Difference operation requires at least 2 geometries" ∨
  SpatialOperation.type operation
    ∈ ["BUFFER"; "TOUCHES"; "INTERSECTS"; "AREA_FILTER"; "UNION"] ∧
  ∃ thrown, e = Library thrown.
Proof.
  destruct (validateOperation operation) eqn:Hvalid.
  - intros Hrun. right. revert Hrun.
    unfold validateOperation in Hvalid.
    apply bool_decide_eq_true in Hvalid. unfold validOperations in Hvalid.
    unfold processOperation.
    repeat (apply elem_of_cons in Hvalid as [->|Hvalid]; [simpl|]);
      try (by apply elem_of_nil in Hvalid).
    + intros Hrun%processBuffer_loop_throws. right; right.
      split; [apply list_elem_of_here|done].
    + done.
    + destruct (processTouches operation data h) as [rs|e'] eqn:Hrun;
        simpl; [done|].
      intros [= <-]. right; right.
      split; [apply list_elem_of_further, list_elem_of_here|].
      apply (for_each_throws _ _ _
               (processTouches_step_throws h _) Hrun).
    + destruct (processIntersects operation data h) as [rs|e'] eqn:Hrun;
        simpl; [done|].
      intros [= <-]. right; right.
      split; [do 2 apply list_elem_of_further; apply list_elem_of_here|].
      apply (for_each_throws _ _ _
               (processIntersects_step_throws h _) Hrun).
    + destruct (processAreaFilter operation data h) as [rs|e'] eqn:Hrun;
        simpl; [done|].
      intros [= <-]. right; right.
      split; [do 3 apply list_elem_of_further; apply list_elem_of_here|].
      apply (for_each_throws _ _ _
               (processAreaFilter_step_throws h _) Hrun).
    + unfold processUnion. intros Hrun.
      destruct (length data <? 2)%nat.
      { injection Hrun as <-. left. split; [done|apply list_elem_of_here]. }
      destruct data as [|first rest].
      { injection Hrun as <-. left. split; [done|].
        apply list_elem_of_further, list_elem_of_here. }
      destruct (processUnion_loop _ _ _) as [[unioned h1]|e'] eqn:Hloop;
        simpl in Hrun.
      * destruct (geometry_of unioned) as [geometry|e'] eqn:Hgeometry;
          simpl in Hrun; [done|].
        injection Hrun as <-. left. split; [done|].
        apply list_elem_of_further.
        destruct unioned as [[| | | |]|u|name]; simpl in Hgeometry;
          try discriminate Hgeometry; injection Hgeometry as <-;
          apply list_elem_of_here.
      * injection Hrun as <-. right; right.
        split; [do 4 apply list_elem_of_further; apply list_elem_of_here|].
        by apply (processUnion_loop_throws _ _ _ _ Hloop).
    + unfold processDifference. intros Hrun. right; left. split; [done|].
      destruct (Nat.ltb_spec (length data) 2) as [Hlen|Hlen]; simpl in *.
      { by injection Hrun as <-. }
      destruct data as [|base subtractors]; [simpl in Hlen; lia|done].
  - intros Hrun. left. split; [done|].
    rewrite (validateOperation_false_throws operation data h Hvalid) in Hrun.
    by injection Hrun as <-.
Qed.

Lemma validateOperation_unsupported operation data h :
  validateOperation operation = false ↔
  processOperation operation data h
    = Throws (Error ("Unsupported operation: "
                     +:+ SpatialOperation.type operation)).
Proof.
  split; [apply validateOperation_false_throws|].
  intros [[Hvalid _]|[[Htype Hin]|[[Htype Heq]|[_ [thrown Heq]]]]]
    %processOperation_throws; [done| | |done].
  - rewrite Htype in Hin. listed Hin.
  - rewrite Htype in Heq. discriminate Heq.
Qed.

(** X8.  Validation and the dispatcher agree: [validateOperation] rejects
    an operation exactly when [processOperation] would throw its
    "Unsupported operation" error for it.  An operation that passed
    validation never meets that error. *)
Theorem validateOperation_iff_supported (operation : SpatialOperation.t)
    (data : list Feature.t) (h : heap) :
  validateOperation operation = false ↔
  processOperation operation data h
    = Throws (Error ("Unsupported operation: "
                     +:+ SpatialOperation.type operation)).
Proof. apply validateOperation_unsupported. Qed.

(** X16.  What the engine throws, errors of the geometry library apart
    (BUFFER, TOUCHES, INTERSECTS, AREA_FILTER and UNION throw what the
    library throws): the error of the dispatcher, for a type validation
    rejects; for UNION, the error on the number of geometries or a
    [TypeError] (the last union gave [null]); for DIFFERENCE, the error on
    the number of geometries.  WITHIN throws nothing: what the library
    throws there is caught. *)
Theorem processOperation_errors (operation : SpatialOperation.t)
    (data : list Feature.t) (h : heap) (e : error) :
  processOperation operation data h = Throws e →
  validateOperation operation = false ∧
  e = Error ("Unsupported operation: " +:+ SpatialOperation.type operation) ∨
  SpatialOperation.type operation = "UNION" ∧
  e ∈ [Error "Union operation requires at least 2 geometries"; TypeError] ∨
  SpatialOperation.type operation = "DIFFERENCE" ∧
  e = Error "Difference operation requires at least 2 geometries" ∨
  SpatialOperation.type operation
    ∈ ["BUFFER"; "TOUCHES"; "INTERSECTS"; "AREA_FILTER"; "UNION"] ∧
  ∃ thrown, e = Library thrown.
Proof. apply processOperation_throws. Qed.

(** *** Missing parameters *)

(** X9.  Without a usable [targetGeometry] (missing, [undefined], [null],
    [false], [0], [NaN] or the empty string) WITHIN, TOUCHES and INTERSECTS
    return no result, whatever the data, and the library is not called. *)
Theorem no_target_no_result (operation : SpatialOperation.t)
    (data : list Feature.t) (h : heap) :
  truthy (get (SpatialOperation.parameters operation) "targetGeometry")
    = false →
  processWithin operation data h = [] ∧
  processTouches operation data h = Returns [] ∧
  processIntersects operation data h = Returns [].
Proof.
  intros Hfalsy. split_and!.
  - by apply processWithin_no_target.
  - by apply processTouches_no_target.
  - by apply processIntersects_no_target.
Qed.

(** X10.  A missing number silently empties the result, because every
    comparison with [NaN] fails: WITHIN without a [distance] (whatever the
    unit) returns no result on any data; AREA_FILTER without a [minArea]
    returns no result when it returns, which it does when the library
    measures every feature, and else throws what the library threw. *)
Theorem missing_number_no_result (operation : SpatialOperation.t)
    (data : list Feature.t) (h : heap) :
  (get (SpatialOperation.parameters operation) "distance" = undefined →
   processWithin operation data h = []) ∧
  (get (SpatialOperation.parameters operation) "minArea" = undefined →
   (∀ results, processAreaFilter operation data h = Returns results →
               results = []) ∧
   (∀ e, processAreaFilter operation data h = Throws e →
         ∃ feature thrown,
           feature ∈ data ∧
           turf_area (arg_of_feature h feature) = Fails thrown ∧
           e = Library thrown) ∧
   (Forall (fun feature => answers (turf_area (arg_of_feature h feature)))
           data →
    processAreaFilter operation data h = Returns [])).
Proof.
  split.
  - apply processWithin_no_distance.
  - apply processAreaFilter_no_minArea.
Qed.

(** *** Results against input features *)

Lemma sublist_filter_geometry (step : Feature.t → list SpatialResult.t)
    (data : list Feature.t) :
  (∀ feature,
     step feature = [] ∨
     ∃ result, step feature = [result] ∧ hasGeometry feature ∧
               SpatialResult.geometry result = Feature.geometry feature) →
  SpatialResult.geometry <$> (data ≫= step)
    `sublist_of` Feature.geometry <$> filter hasGeometry data.
Proof.
  intros Hstep. induction data as [|feature data IH]; [done|].
  rewrite bind_cons, fmap_app.
  destruct (Hstep feature) as [->|(result & -> & Hgeometry & Heq)].
  - simpl. destruct (decide (hasGeometry feature)).
    + rewrite filter_cons_True by done. by apply sublist_cons.
    + by rewrite filter_cons_False.
  - rewrite filter_cons_True by done. simpl. rewrite Heq.
    by apply sublist_skip.
Qed.

Ltac one_or_none :=
  match goal with
  | |- context [bool_decide (is_Some (Feature.geometry ?f))] =>
      let Hg := fresh "Hg" in
      destruct (bool_decide_reflect (is_Some (Feature.geometry f))) as [Hg|];
      simpl; [|by left];
      repeat match goal with
             | |- context [if ?b then _ else _] =>
                 destruct b; simpl; try (by left)
             | |- context [match ?o with
                           | Answers _ => _
                           | Fails _ => _
                           end] =>
                 destruct o; simpl; try (by left)
             end;
      right; eexists; split_and!; [reflexivity|exact Hg|reflexivity]
  end.

Lemma processWithin_step_shape h targetGeometry searchDistance feature :
  processWithin_step h targetGeometry searchDistance feature = [] ∨
  ∃ result,
    processWithin_step h targetGeometry searchDistance feature = [result] ∧
    hasGeometry feature ∧
    SpatialResult.geometry result = Feature.geometry feature.
Proof. unfold processWithin_step. one_or_none. Qed.

Lemma processTouches_step_shape h targetGeometry feature :
  pushes (processTouches_step h targetGeometry) feature = [] ∨
  ∃ result,
    pushes (processTouches_step h targetGeometry) feature = [result] ∧
    hasGeometry feature ∧
    SpatialResult.geometry result = Feature.geometry feature.
Proof. unfold pushes, processTouches_step, call. one_or_none. Qed.

Lemma processIntersects_step_shape h targetGeometry feature :
  pushes (processIntersects_step h targetGeometry) feature = [] ∨
  ∃ result,
    pushes (processIntersects_step h targetGeometry) feature = [result] ∧
    hasGeometry feature ∧
    SpatialResult.geometry result = Feature.geometry feature.
Proof. unfold pushes, processIntersects_step, call. one_or_none. Qed.

Lemma processAreaFilter_step_shape h minArea feature :
  pushes (processAreaFilter_step h minArea) feature = [] ∨
  ∃ result,
    pushes (processAreaFilter_step h minArea) feature = [result] ∧
    hasGeometry feature ∧
    SpatialResult.geometry result = Feature.geometry feature.
Proof. unfold pushes, processAreaFilter_step, call. one_or_none. Qed.

Lemma processBuffer_loop_length distance units bufferDistance data h
    results h' :
  processBuffer_loop distance units bufferDistance data h
    = Returns (results, h') →
  (length results ≤ length (filter hasGeometry data))%nat.
Proof.
  revert h results h'.
  induction data as [|feature data IH]; intros h results h'; simpl.
  { by intros [= <- <-]. }
  destruct (Feature.geometry feature) as [l|] eqn:Hl.
  - rewrite filter_cons_True by (unfold hasGeometry; by rewrite Hl).
    destruct (turf_buffer _ _) as [[g|]|thrown]; simpl; [| |done].
    + destruct (processBuffer_loop _ _ _ data _) as [[rest h1]|e] eqn:Hrest;
        simpl; [|done].
      intros [= <- <-]. apply IH in Hrest. simpl. lia.
    + intros Hrest%IH. simpl. lia.
  - rewrite filter_cons_False
      by (unfold hasGeometry; rewrite Hl; by intros [? ?]).
    apply IH.
Qed.

(** X11.  The feature-by-feature operations give at most one result per
    input feature that has a geometry, and none for a feature without one.
    For WITHIN, TOUCHES, INTERSECTS and AREA_FILTER the results come in the
    order of the input: their geometries are, in order, among the geometries
    of the input features. *)
Theorem results_follow_features (operation : SpatialOperation.t)
    (data : list Feature.t) (h h' : heap) (results : list SpatialResult.t) :
  processOperation operation data h = Returns (results, h') →
  (SpatialOperation.type operation
     ∈ ["BUFFER"; "WITHIN"; "TOUCHES"; "INTERSECTS"; "AREA_FILTER"] →
   (length results ≤ length (filter hasGeometry data))%nat) ∧
  (SpatialOperation.type operation
     ∈ ["WITHIN"; "TOUCHES"; "INTERSECTS"; "AREA_FILTER"] →
   SpatialResult.geometry <$> results
     `sublist_of` Feature.geometry <$> filter hasGeometry data).
Proof.
  assert (∀ step,
    (∀ feature,
       step feature = [] ∨
       ∃ result, step feature = [result] ∧ hasGeometry feature ∧
                 SpatialResult.geometry result = Feature.geometry feature) →
    (length (data ≫= step) ≤ length (filter hasGeometry data))%nat ∧
    SpatialResult.geometry <$> (data ≫= step)
      `sublist_of` Feature.geometry <$> filter hasGeometry data)
    as Hboth.
  { intros step Hstep.
    pose proof (sublist_filter_geometry step data Hstep) as Hsub.
    split; [|done]. apply sublist_length in Hsub.
    by rewrite !length_fmap in Hsub. }
  by_type.
  - intros Hrun%processBuffer_loop_length.
    split; [done|intros Hin; listed Hin].
  - intros [= <- <-].
    destruct (Hboth _ (processWithin_step_shape h
      (get (SpatialOperation.parameters operation) "targetGeometry")
      (to_meters (get (SpatialOperation.parameters operation) "distance")
         (defaulted (get (SpatialOperation.parameters operation) "units")
            (str "miles"))))).
    by split.
  - destruct (processTouches operation data h) as [rs|e] eqn:Hrun; [|done].
    intros [= <- <-]. apply for_each_Returns in Hrun as [_ ->].
    destruct (Hboth _ (processTouches_step_shape h
      (get (SpatialOperation.parameters operation) "targetGeometry"))).
    by split.
  - destruct (processIntersects operation data h) as [rs|e] eqn:Hrun;
      [|done].
    intros [= <- <-]. apply for_each_Returns in Hrun as [_ ->].
    destruct (Hboth _ (processIntersects_step_shape h
      (get (SpatialOperation.parameters operation) "targetGeometry"))).
    by split.
  - destruct (processAreaFilter operation data h) as [rs|e] eqn:Hrun;
      [|done].
    intros [= <- <-]. apply for_each_Returns in Hrun as [_ ->].
    destruct (Hboth _ (processAreaFilter_step_shape h
      (get (SpatialOperation.parameters operation) "minArea"))).
    by split.
  - intros _. split; intros Hin; listed Hin.
  - intros _. split; intros Hin; listed Hin.
  - done.
Qed.

(** *** What a result carries *)

Ltac keys_apart :=
  let key := fresh "key" in
  let Hkey := fresh "Hkey" in
  split; intros key Hkey; simpl in *;
  [repeat (apply not_elem_of_cons in Hkey as [? Hkey]);
   by rewrite ?lookup_insert_ne by done
  |repeat (apply elem_of_cons in Hkey as [->|Hkey];
           [rewrite ?lookup_insert_ne by done;
            rewrite lookup_insert_eq; by eexists|]);
   by apply elem_of_nil in Hkey].

Lemma bufferResult_keeps feature l distance units :
  keepsProperties "BUFFER" feature (bufferResult feature l distance units).
Proof. unfold keepsProperties, bufferResult. keys_apart. Qed.

Lemma withinResult_keeps feature distanceToTargetM searchDistance :
  keepsProperties "WITHIN" feature
    (withinResult feature distanceToTargetM searchDistance).
Proof. unfold keepsProperties, withinResult. keys_apart. Qed.

Lemma touchesResult_keeps feature :
  keepsProperties "TOUCHES" feature
    (flagResult "TOUCHES" "touches_target" feature).
Proof. unfold keepsProperties, flagResult. keys_apart. Qed.

Lemma intersectsResult_keeps feature :
  keepsProperties "INTERSECTS" feature
    (flagResult "INTERSECTS" "intersects_target" feature).
Proof. unfold keepsProperties, flagResult. keys_apart. Qed.

Lemma areaResult_keeps feature areaInSqMiles area :
  keepsProperties "AREA_FILTER" feature
    (areaResult feature areaInSqMiles area).
Proof. unfold keepsProperties, areaResult. keys_apart. Qed.

(** The results of a loop, each with the feature it was pushed for. *)
Lemma bind_Forall (step : Feature.t → list SpatialResult.t)
    (P : Feature.t → SpatialResult.t → Prop) (data : list Feature.t) :
  (∀ feature result, result ∈ step feature → P feature result) →
  Forall (fun result => ∃ feature, feature ∈ data ∧ P feature result)
         (data ≫= step).
Proof.
  intros Hstep. apply Forall_forall. intros result Hin.
  apply list_elem_of_bind in Hin as (feature & Hin & Hdata).
  exists feature. split; [exact Hdata|by apply Hstep].
Qed.

Lemma processBuffer_loop_Forall (P : Feature.t → SpatialResult.t → Prop)
    distance units bufferDistance data h results h' :
  (∀ feature l, P feature (bufferResult feature l distance units)) →
  processBuffer_loop distance units bufferDistance data h
    = Returns (results, h') →
  Forall (fun result => ∃ feature, feature ∈ data ∧ P feature result)
         results.
Proof.
  intros HP. revert h results h'.
  induction data as [|feature data IH]; intros h results h'; simpl.
  { intros [= <- <-]. constructor. }
  assert (∀ h0 rs h1,
    processBuffer_loop distance units bufferDistance data h0
      = Returns (rs, h1) →
    Forall (fun result => ∃ f, f ∈ feature :: data ∧ P f result) rs)
    as IH'.
  { intros h0 rs h1 Hrun. eapply Forall_impl; [by apply (IH h0 rs h1)|].
    intros result (f & Hf & HPf). exists f.
    split; [by apply list_elem_of_further|done]. }
  destruct (Feature.geometry feature); [|apply IH'].
  destruct (turf_buffer _ _) as [[g|]|thrown]; simpl; [|apply IH'|done].
  destruct (processBuffer_loop _ _ _ data _) as [[rest h1]|e] eqn:Hrest;
    simpl; [|done].
  intros [= <- <-]. constructor; [|by apply (IH' _ _ _ Hrest)].
  exists feature. split; [apply list_elem_of_here|apply HP].
Qed.

(** X12.  A result of a feature-by-feature operation carries every property
    of the feature it comes from, except under the keys the operation adds
    (a property of the feature under such a key is replaced). *)
Theorem results_keep_properties (operation : SpatialOperation.t)
    (data : list Feature.t) (h h' : heap) (results : list SpatialResult.t) :
  processOperation operation data h = Returns (results, h') →
  SpatialOperation.type operation
    ∈ ["BUFFER"; "WITHIN"; "TOUCHES"; "INTERSECTS"; "AREA_FILTER"] →
  Forall (fun result =>
            ∃ feature, feature ∈ data ∧
              keepsProperties (SpatialOperation.type operation)
                feature result)
         results.
Proof.
  by_type.
  - intros Hrun _. apply (processBuffer_loop_Forall _ _ _ _ _ _ _ _
                            (fun feature l => bufferResult_keeps feature l _ _)
                            Hrun).
  - intros [= <- <-] _. apply bind_Forall. intros feature result Hin.
    from_step Hin. apply withinResult_keeps.
  - destruct (processTouches operation data h) as [rs|e] eqn:Hrun; [|done].
    intros [= <- <-] _. apply for_each_Returns in Hrun as [_ ->].
    apply bind_Forall. intros feature result Hin.
    from_step Hin. apply touchesResult_keeps.
  - destruct (processIntersects operation data h) as [rs|e] eqn:Hrun;
      [|done].
    intros [= <- <-] _. apply for_each_Returns in Hrun as [_ ->].
    apply bind_Forall. intros feature result Hin.
    from_step Hin. apply intersectsResult_keeps.
  - destruct (processAreaFilter operation data h) as [rs|e] eqn:Hrun;
      [|done].
    intros [= <- <-] _. apply for_each_Returns in Hrun as [_ ->].
    apply bind_Forall. intros feature result Hin.
    from_step Hin. apply areaResult_keeps.
  - intros _ Hin. listed Hin.
  - intros _ Hin. listed Hin.
  - done.
Qed.

(** X13.  Every result the engine returns is tagged with the type of the
    operation that was run, the engine name [turf] and a processing time of
    zero. *)
Theorem results_metadata (operation : SpatialOperation.t)
    (data : list Feature.t) (h h' : heap) (results : list SpatialResult.t) :
  processOperation operation data h = Returns (results, h') →
  Forall (fun result =>
            SpatialResult.metadata result
              = Metadata.mk (SpatialOperation.type operation) 0 "turf")
         results.
Proof.
  assert (∀ (Q : SpatialResult.t → Prop) rs,
    Forall (fun result => ∃ feature : Feature.t, feature ∈ data ∧ Q result) rs →
    Forall Q rs) as Hdrop.
  { intros Q rs HF. eapply Forall_impl; [exact HF|].
    by intros result (_ & _ & HQ). }
  by_type.
  - intros Hrun. apply Hdrop.
    by apply (processBuffer_loop_Forall (fun _ result =>
      SpatialResult.metadata result = Metadata.mk "BUFFER" 0 "turf")
      _ _ _ _ _ _ _ (fun _ _ => eq_refl) Hrun).
  - intros [= <- <-]. apply Hdrop.
    apply (bind_Forall _ (fun _ result =>
      SpatialResult.metadata result = Metadata.mk "WITHIN" 0 "turf")).
    intros feature result Hin. by from_step Hin.
  - destruct (processTouches operation data h) as [rs|e] eqn:Hrun; [|done].
    intros [= <- <-]. apply for_each_Returns in Hrun as [_ ->].
    apply Hdrop.
    apply (bind_Forall _ (fun _ result =>
      SpatialResult.metadata result = Metadata.mk "TOUCHES" 0 "turf")).
    intros feature result Hin. by from_step Hin.
  - destruct (processIntersects operation data h) as [rs|e] eqn:Hrun;
      [|done].
    intros [= <- <-]. apply for_each_Returns in Hrun as [_ ->].
    apply Hdrop.
    apply (bind_Forall _ (fun _ result =>
      SpatialResult.metadata result = Metadata.mk "INTERSECTS" 0 "turf")).
    intros feature result Hin. by from_step Hin.
  - destruct (processAreaFilter operation data h) as [rs|e] eqn:Hrun;
      [|done].
    intros [= <- <-]. apply for_each_Returns in Hrun as [_ ->].
    apply Hdrop.
    apply (bind_Forall _ (fun _ result =>
      SpatialResult.metadata result = Metadata.mk "AREA_FILTER" 0 "turf")).
    intros feature result Hin. by from_step Hin.
  - unfold processUnion. destruct (length data <? 2)%nat; [done|].
    destruct data as [|first rest]; [done|].
    destruct (processUnion_loop _ _ _) as [[unioned h1]|e]; simpl; [|done].
    destruct (geometry_of unioned) as [geometry|e]; simpl; [|done].
    intros [= <- <-]. by repeat constructor.
  - unfold processDifference. destruct (length data <? 2)%nat; [done|].
    destruct data as [|base subtractors]; [done|]. simpl.
    intros [= <- <-]. by repeat constructor.
  - done.
Qed.

(** *** Units *)

Lemma to_meters_other distance (units : string) :
  String.eqb units "miles" = false →
  to_meters distance (defaulted (str units) (str "miles")) = distance.
Proof. intros Hunits. unfold to_meters. simpl. by rewrite Hunits. Qed.

(** X15.  Only the unit [miles] is converted: with any other unit name
    ([kilometers], [feet], ...) the distance of WITHIN is taken as a number
    of metres, so two such units give the same results. *)
Theorem processWithin_unit_names (operation : SpatialOperation.t)
    (units1 units2 : string) (data : list Feature.t) (h : heap) :
  String.eqb units1 "miles" = false →
  String.eqb units2 "miles" = false →
  processWithin
    (SpatialOperation.mk "WITHIN"
       (<["units" := str units1]> (SpatialOperation.parameters operation))
       (SpatialOperation.layers operation)) data h
  = processWithin
      (SpatialOperation.mk "WITHIN"
         (<["units" := str units2]> (SpatialOperation.parameters operation))
         (SpatialOperation.layers operation)) data h.
Proof.
  intros Hunits1 Hunits2. unfold processWithin, get. simpl.
  rewrite !lookup_insert_eq, !lookup_insert_ne by done. simpl.
  by rewrite (to_meters_other _ units1), (to_meters_other _ units2).
Qed.

End EngineFurther.

(** ** The place-name resolver, further *)

Lemma array_find_None predicate features :
  array_find predicate features = Returns None →
  Forall (fun feature => predicate feature = Returns false) features.
Proof.
  induction features as [|first rest IH]; simpl; [constructor|].
  destruct (predicate first) as [[|]|e] eqn:Hfirst; simpl; [done| |done].
  intros Hrest. constructor; [done|by apply IH].
Qed.

Lemma array_find_first predicate before feature after :
  Forall (fun f => predicate f = Returns false) before →
  predicate feature = Returns true →
  array_find predicate (before ++ feature :: after) = Returns (Some feature).
Proof.
  intros Hbefore Hfeature.
  induction Hbefore as [|first rest Hfirst Hrest IH]; simpl.
  - by rewrite Hfeature.
  - by rewrite Hfirst.
Qed.

Lemma array_find_returns predicate features :
  Forall (fun f => ∃ b, predicate f = Returns b) features →
  ∃ found, array_find predicate features = Returns found.
Proof.
  intros Hall. induction Hall as [|first rest [b Hfirst] Hrest IH]; simpl.
  - by exists None.
  - rewrite Hfirst. simpl. destruct b; [by exists (Some first)|exact IH].
Qed.

Lemma partialAny_true normalizedName feature :
  partialAny normalizedName feature = Returns true →
  ∃ n, lowerField "NAME" feature = Returns (Some n) ∧
       includes n normalizedName = true.
Proof.
  unfold partialAny. destruct (lowerField "NAME" feature) as [[n|]|e]; simpl;
    [|done|done].
  intros [= Hin]. by exists n.
Qed.

Lemma partialAny_false normalizedName feature :
  partialAny normalizedName feature = Returns false →
  ∃ n, lowerField "NAME" feature = Returns (Some n) ∧
       includes n normalizedName = false.
Proof.
  unfold partialAny. destruct (lowerField "NAME" feature) as [[n|]|e]; simpl;
    [|done|done].
  intros [= Hin]. by exists n.
Qed.

Lemma partialUS_false normalizedName feature :
  partialUS normalizedName feature = Returns false →
  ∃ n country,
    lowerField "NAME" feature = Returns (Some n) ∧
    lowerField "SOV0NAME" feature = Returns country ∧
    includes n normalizedName && isUS country = false.
Proof.
  unfold partialUS. destruct (lowerField "NAME" feature) as [[n|]|e]; simpl;
    destruct (lowerField "SOV0NAME" feature) as [country|e']; simpl;
    try done.
  intros [= Hin]. by exists n, country.
Qed.

Lemma findFeatureByName_general_None features normalizedName :
  findFeatureByName_general features normalizedName = Returns None →
  array_find (partialAny normalizedName) features = Returns None.
Proof.
  unfold findFeatureByName_general.
  destruct (array_find (exact _) features) as [[f|]|e]; simpl; [done| |done].
  by destruct (array_find (partialUS _) features) as [[f|]|e]; simpl.
Qed.

Lemma findFeatureByName_None features name :
  findFeatureByName features name = Returns None →
  array_find (partialAny (toLowerCase name)) features = Returns None.
Proof.
  unfold findFeatureByName.
  destruct (includes _ _); [|apply findFeatureByName_general_None].
  destruct (array_find exactUS features) as [[f|]|e]; simpl; [done| |done].
  destruct (array_find (partialUS _) features) as [[f|]|e]; simpl;
    [done| |done].
  apply findFeatureByName_general_None.
Qed.

(** X17.  [findFeatureByName] answers [null] only when every feature has a
    name and no name contains the query, letter case apart. *)
Theorem findFeatureByName_null (features : list Feature.t) (name : string) :
  findFeatureByName features name = Returns None →
  Forall (fun feature =>
            ∃ n, lowerField "NAME" feature = Returns (Some n) ∧
                 includes n (toLowerCase name) = false)
         features.
Proof.
  intros Hnone%findFeatureByName_None%array_find_None.
  eapply Forall_impl; [exact Hnone|].
  intros feature Hfeature. by apply partialAny_false.
Qed.

Lemma findFeatureByName_general_sound features normalizedName feature :
  findFeatureByName_general features normalizedName = Returns (Some feature) →
  feature ∈ features ∧
  ∃ n, lowerField "NAME" feature = Returns (Some n) ∧
       includes n normalizedName = true.
Proof.
  unfold findFeatureByName_general.
  destruct (array_find (exact _) features) as [[f|]|e] eqn:H1; simpl;
    [| |done].
  { intros [= ->]. apply array_find_Some in H1 as [Hin Hname%exact_true].
    split; [done|]. exists normalizedName. split; [done|apply includes_refl]. }
  destruct (array_find (partialUS _) features) as [[f|]|e] eqn:H2; simpl;
    [| |done].
  { intros [= ->]. apply array_find_Some in H2 as [Hin Hname%partialUS_true].
    by split. }
  intros [Hin Hname%partialAny_true]%array_find_Some. by split.
Qed.

(** X18.  A feature [findFeatureByName] returns is one of the collection,
    and its name contains the query, letter case apart, or, for a query that
    mentions San Francisco, contains "san francisco". *)
Theorem findFeatureByName_sound (features : list Feature.t) (name : string)
    (feature : Feature.t) :
  findFeatureByName features name = Returns (Some feature) →
  feature ∈ features ∧
  (nameContains name feature ∨
   includes (toLowerCase name) "san francisco" = true ∧
   nameContains "san francisco" feature).
Proof.
  unfold findFeatureByName, nameContains.
  destruct (includes _ _) eqn:Hsf.
  - destruct (array_find exactUS features) as [[f|]|e] eqn:H1; simpl;
      [| |done].
    { intros [= ->].
      apply array_find_Some in H1 as [Hin [Hname _]%exactUS_true].
      split; [done|]. right. split; [done|].
      exists "san francisco". by split. }
    destruct (array_find (partialUS _) features) as [[f|]|e] eqn:H2; simpl;
      [| |done].
    { intros [= ->].
      apply array_find_Some in H2 as [Hin Hname%partialUS_true].
      split; [done|]. by right. }
    intros [Hin Hname]%findFeatureByName_general_sound.
    split; [done|by left].
  - intros [Hin Hname]%findFeatureByName_general_sound.
    split; [done|by left].
Qed.

Lemma nameContains_not_US normalizedName features :
  array_find (partialUS normalizedName) features = Returns None →
  Forall (fun g =>
            (∃ n, lowerField "NAME" g = Returns (Some n) ∧
                  includes n normalizedName = true) →
            ¬ inUnitedStates g) features.
Proof.
  intros Hnone%array_find_None.
  eapply Forall_impl; [exact Hnone|].
  intros g (n & country & Hn & Hcountry & Hboth)%partialUS_false.
  intros (n' & Hn' & Hin) (c & Hc & Hus).
  rewrite Hn in Hn'. injection Hn' as <-.
  rewrite Hcountry in Hc. injection Hc as ->.
  apply isUS_spec in Hus. rewrite Hin, Hus in Hboth. discriminate Hboth.
Qed.

(** X19.  The resolver prefers the United States: a feature of another
    country (or of none) is returned only when its name is the query, letter
    case apart, or when no United States feature has a name that contains
    the query. *)
Theorem findFeatureByName_other_country (features : list Feature.t)
    (name : string) (feature : Feature.t) :
  findFeatureByName features name = Returns (Some feature) →
  inUnitedStates feature ∨
  nameEquals name feature ∨
  Forall (fun g => nameContains name g → ¬ inUnitedStates g) features.
Proof.
  assert (findFeatureByName_general features (toLowerCase name)
            = Returns (Some feature) →
          inUnitedStates feature ∨ nameEquals name feature ∨
          Forall (fun g => nameContains name g → ¬ inUnitedStates g) features)
    as Hgeneral.
  { unfold findFeatureByName_general.
    destruct (array_find (exact _) features) as [[f|]|e] eqn:H1; simpl;
      [| |done].
    { intros [= ->]. apply array_find_Some in H1 as [_ Hname%exact_true].
      by right; left. }
    destruct (array_find (partialUS _) features) as [[f|]|e] eqn:H2; simpl;
      [| |done].
    { intros [= ->]. apply array_find_Some in H2 as [_ Hus].
      left. by apply (partialUS_inUnitedStates (toLowerCase name)). }
    intros _. right; right. by apply nameContains_not_US. }
  unfold findFeatureByName.
  destruct (includes _ _); [|exact Hgeneral].
  destruct (array_find exactUS features) as [[f|]|e] eqn:H1; simpl;
    [| |done].
  { intros [= ->]. apply array_find_Some in H1 as [_ [_ Hus]%exactUS_true].
    by left. }
  destruct (array_find (partialUS _) features) as [[f|]|e] eqn:H2; simpl;
    [| |done].
  { intros [= ->]. apply array_find_Some in H2 as [_ Hus].
    left. by apply (partialUS_inUnitedStates "san francisco"). }
  exact Hgeneral.
Qed.

Lemma exact_returns normalizedName feature n :
  lowerField "NAME" feature = Returns n →
  exact normalizedName feature
    = Returns (bool_decide (n = Some normalizedName)).
Proof.
  intros Hn. unfold exact. rewrite Hn. simpl. f_equal.
  destruct n as [n|]; simpl; [|done].
  destruct (String.eqb_spec n normalizedName) as [->|Hne].
  - by rewrite bool_decide_eq_true_2.
  - rewrite bool_decide_eq_false_2; [done|]. by intros [= ->].
Qed.

(** X20.  For a query that does not mention San Francisco, the first feature
    whose name is the query, letter case apart, is returned, whatever its
    country and whatever features follow it; the features before it may lack
    a name. *)
Theorem findFeatureByName_exact_first (before after : list Feature.t)
    (feature : Feature.t) (name : string) :
  includes (toLowerCase name) "san francisco" = false →
  nameEquals name feature →
  Forall (fun g => ∃ n, lowerField "NAME" g = Returns n ∧
                        n ≠ Some (toLowerCase name)) before →
  findFeatureByName (before ++ feature :: after) name
    = Returns (Some feature).
Proof.
  intros Hsf Hname Hbefore. unfold findFeatureByName. rewrite Hsf.
  unfold findFeatureByName_general.
  rewrite (array_find_first (exact (toLowerCase name)) before feature after).
  - done.
  - eapply Forall_impl; [exact Hbefore|].
    intros g (n & Hn & Hne). rewrite (exact_returns _ _ n Hn).
    by rewrite bool_decide_eq_false_2.
  - rewrite (exact_returns _ _ _ Hname). by rewrite bool_decide_eq_true_2.
Qed.

Lemma partialUS_returns normalizedName feature :
  hasName feature → ∃ b, partialUS normalizedName feature = Returns b.
Proof.
  intros [[n Hn] [country Hcountry]]. unfold partialUS.
  rewrite Hn, Hcountry. simpl. eauto.
Qed.

Lemma partialAny_returns normalizedName feature :
  hasName feature → ∃ b, partialAny normalizedName feature = Returns b.
Proof.
  intros [[n Hn] _]. unfold partialAny. rewrite Hn. simpl. eauto.
Qed.

Lemma exact_returns_some normalizedName feature :
  hasName feature → ∃ b, exact normalizedName feature = Returns b.
Proof.
  intros [[n Hn] _]. rewrite (exact_returns _ _ _ Hn). eauto.
Qed.

Lemma exactUS_returns feature :
  hasName feature → ∃ b, exactUS feature = Returns b.
Proof.
  intros [[n Hn] [country Hcountry]]. unfold exactUS.
  rewrite Hn, Hcountry. simpl. eauto.
Qed.

Lemma findFeatureByName_general_complete features normalizedName :
  Forall hasName features →
  ∃ found,
    findFeatureByName_general features normalizedName = Returns found ∧
    (Exists (fun f => ∃ n, lowerField "NAME" f = Returns (Some n) ∧
                           includes n normalizedName = true) features →
     is_Some found).
Proof.
  intros Hnamed. unfold findFeatureByName_general.
  destruct (array_find_returns (exact normalizedName) features)
    as [[f|] ->]; simpl.
  { eapply Forall_impl; [exact Hnamed|]. apply exact_returns_some. }
  { exists (Some f). by split. }
  destruct (array_find_returns (partialUS normalizedName) features)
    as [[f|] ->]; simpl.
  { eapply Forall_impl; [exact Hnamed|]. apply partialUS_returns. }
  { exists (Some f). by split. }
  destruct (array_find_returns (partialAny normalizedName) features)
    as [[f|] Hany].
  { eapply Forall_impl; [exact Hnamed|]. apply partialAny_returns. }
  { exists (Some f). by split. }
  exists None. split; [done|]. intros Hsome. exfalso.
  apply array_find_None in Hany.
  apply Exists_exists in Hsome as (f & Hin & n & Hn & Hinc).
  apply (proj1 (Forall_forall _ _) Hany) in Hin.
  apply partialAny_false in Hin as (n' & Hn' & Hinc').
  congruence.
Qed.

(** X21.  On a collection whose features all have a name (and text fields),
    [findFeatureByName] does not throw, and it finds a feature whenever some
    name contains the query, letter case apart. *)
Theorem findFeatureByName_complete (features : list Feature.t)
    (name : string) :
  Forall hasName features →
  ∃ found,
    findFeatureByName features name = Returns found ∧
    (Exists (nameContains name) features → is_Some found).
Proof.
  intros Hnamed. unfold findFeatureByName.
  destruct (includes _ _);
    [|by apply findFeatureByName_general_complete].
  destruct (array_find_returns exactUS features) as [[f|] ->]; simpl.
  { eapply Forall_impl; [exact Hnamed|]. apply exactUS_returns. }
  { exists (Some f). by split. }
  destruct (array_find_returns (partialUS "san francisco") features)
    as [[f|] ->]; simpl.
  { eapply Forall_impl; [exact Hnamed|]. apply partialUS_returns. }
  { exists (Some f). by split. }
  by apply findFeatureByName_general_complete.
Qed.

(** ** [validateQuery] *)

(** X22.  [validateQuery] accepts a text exactly when one of the eight
    function names occurs in it, in this spelling; what stands around the
    name is not looked at. *)
Theorem validateQuery_spec (sql : string) :
  validateQuery sql = true ↔
  Exists (fun func => ∃ before after, sql = before +:+ func +:+ after)
         postgisFunctions.
Proof.
  unfold validateQuery. rewrite existsb_exists, Exists_exists. split.
  - intros (func & Hin & Hfunc). exists func.
    split; [by apply list_elem_of_In|by apply includes_spec].
  - intros (func & Hin & Hfunc). exists func.
    split; [by apply list_elem_of_In|by apply includes_spec].
Qed.

(** ** The layer route *)

Ltac outside :=
  let Hin := fresh "Hin" in
  intros Hin;
  repeat (apply elem_of_cons in Hin as [Hin|Hin]; [discriminate Hin|]);
  by apply elem_of_nil in Hin.

Lemma LAYER_MAP_None layer :
  layer ∉ QueryRoute.AVAILABLE_LAYERS → LayerRoute.LAYER_MAP !! layer = None.
Proof.
  unfold QueryRoute.AVAILABLE_LAYERS, LayerRoute.LAYER_MAP. intros Hout.
  repeat (apply not_elem_of_cons in Hout as [? Hout]).
  by rewrite !lookup_insert_ne by done.
Qed.

Lemma LAYER_MAP_Some layer :
  layer ∈ QueryRoute.AVAILABLE_LAYERS →
  ∃ fileName, LayerRoute.LAYER_MAP !! layer = Some fileName ∧
              nonEmpty fileName = true.
Proof.
  unfold QueryRoute.AVAILABLE_LAYERS. intros Hin.
  repeat (apply elem_of_cons in Hin as [->|Hin];
          [eexists; split; [vm_compute; reflexivity|reflexivity]|]).
  by apply elem_of_nil in Hin.
Qed.

Lemma objectPrototype_no_layer layer :
  layer ∈ LayerRoute.objectPrototype → layer ∉ QueryRoute.AVAILABLE_LAYERS.
Proof.
  unfold LayerRoute.objectPrototype, QueryRoute.AVAILABLE_LAYERS.
  intros Hin.
  repeat (apply elem_of_cons in Hin as [->|Hin]; [outside|]).
  by apply elem_of_nil in Hin.
Qed.

(** X23.  The layer route serves the five layers the query route offers and
    no other: for one of them it answers with the contents of its file, or
    500 when the file cannot be read; for a name every object inherits
    ([constructor], [toString], ...) the handler throws a [TypeError]; for
    any other name it answers 404. *)
Theorem layer_GET_answers (readData : string → outcome string) (layer : string) :
  (layer ∈ QueryRoute.AVAILABLE_LAYERS ↔
   ∃ fileName,
     LayerRoute.LAYER_MAP !! layer = Some fileName ∧
     LayerRoute.GET readData layer
       = Returns match readData fileName with
                 | Returns data => LayerRoute.Status200 data
                 | Throws _ => LayerRoute.Status500 "Failed to load data"
                 end) ∧
  (layer ∈ LayerRoute.objectPrototype ↔
   LayerRoute.GET readData layer = Throws TypeError) ∧
  (((layer ∉ QueryRoute.AVAILABLE_LAYERS) ∧
    (layer ∉ LayerRoute.objectPrototype)) ↔
   LayerRoute.GET readData layer
     = Returns (LayerRoute.Status404 "Layer not found")).
Proof.
  destruct (decide (layer ∈ QueryRoute.AVAILABLE_LAYERS)) as [Hin|Hout].
  - destruct (LAYER_MAP_Some layer Hin) as (fileName & Hfile & Hfull).
    assert (LayerRoute.GET readData layer
            = Returns match readData fileName with
                      | Returns data => LayerRoute.Status200 data
                      | Throws _ => LayerRoute.Status500 "Failed to load data"
                      end) as Hget.
    { unfold LayerRoute.GET. rewrite Hfile, Hfull.
      by destruct (readData fileName). }
    split_and!.
    + split; [intros _; by exists fileName|done].
    + split.
      * intros Hproto. by destruct (objectPrototype_no_layer layer Hproto).
      * rewrite Hget. by destruct (readData fileName).
    + split; [by intros [? _]|].
      rewrite Hget. by destruct (readData fileName).
  - pose proof (LAYER_MAP_None layer Hout) as Hnone.
    split_and!.
    + split; [done|]. intros (fileName & Hfile & _). congruence.
    + unfold LayerRoute.GET. rewrite Hnone.
      destruct (decide (layer ∈ LayerRoute.objectPrototype)) as [Hp|Hp].
      * by rewrite bool_decide_eq_true_2.
      * by rewrite bool_decide_eq_false_2.
    + unfold LayerRoute.GET. rewrite Hnone.
      destruct (decide (layer ∈ LayerRoute.objectPrototype)) as [Hp|Hp].
      * rewrite bool_decide_eq_true_2 by done. split; [by intros [_ ?]|done].
      * by rewrite bool_decide_eq_false_2.
Qed.

(** ** The operation route *)

Section RouteFacts.

Context `{Turf}.

Lemma validateOperation_any_type operation :
  validateOperation_any operation = true →
  ∃ type, RawOperation.type operation = Some type ∧ type ∈ validOperations.
Proof.
  unfold validateOperation_any.
  destruct (RawOperation.type operation) as [type|]; [|done].
  intros Hin%bool_decide_eq_true. by exists type.
Qed.

(** The errors of the Turf processor for an operation whose type validation
    accepts. *)
Lemma processOperation_any_throws operation type data h e :
  RawOperation.type operation = Some type →
  type ∈ validOperations →
  processOperation_any operation data h = Throws e →
  RawOperation.parameters operation = None ∧ type ∈ destructuring ∧
  e = TypeError ∨
  type = "UNION" ∧
  e ∈ [Error "Union operation requires at least 2 geometries"; TypeError] ∨
  type = "DIFFERENCE" ∧
  e = Error "Difference operation requires at least 2 geometries" ∨
  type ∈ ["BUFFER"; "TOUCHES"; "INTERSECTS"; "AREA_FILTER"; "UNION"] ∧
  ∃ thrown, e = Library thrown.
Proof.
  intros Htype Hvalid. unfold processOperation_any. rewrite Htype.
  assert (∀ parameters layers,
    processOperation (SpatialOperation.mk type parameters layers) data h
      = Throws e →
    type = "UNION" ∧
    e ∈ [Error "Union operation requires at least 2 geometries"; TypeError] ∨
    type = "DIFFERENCE" ∧
    e = Error "Difference operation requires at least 2 geometries" ∨
    type ∈ ["BUFFER"; "TOUCHES"; "INTERSECTS"; "AREA_FILTER"; "UNION"] ∧
    ∃ thrown, e = Library thrown) as Hrun.
  { intros parameters layers [[Hno _]|Hrun]%processOperation_throws; [|done].
    unfold validateOperation in Hno. simpl in Hno.
    by rewrite bool_decide_eq_true_2 in Hno. }
  destruct (RawOperation.parameters operation) as [parameters|].
  { intros Hthrows. right. by eapply Hrun. }
  destruct (decide (type ∈ destructuring)) as [Hin|Hout].
  - rewrite bool_decide_eq_true_2 by done. intros [= <-]. by left.
  - rewrite bool_decide_eq_false_2 by done. intros Hthrows. right.
    by eapply Hrun.
Qed.

(** X24.  With an engine other than [turf] the operation route never
    succeeds: an operation that has a type is answered 500, whatever else it
    holds, and the store is left as it was.  The detail is the error of the
    factory for an engine it does not know; for [postgis] it is the error of
    the PostGIS processor when the operation has layers, and a [TypeError]
    when it has none ([operation.layers.map] comes first). *)
Theorem spatial_POST_other_engine (loadGeoJSONData : string → list Feature.t)
    (h : heap) (operation : RawOperation.t) (type engine : string) :
  String.eqb engine "turf" = false →
  RawOperation.type operation = Some type →
  nonEmpty type = true →
  SpatialRoute.POST loadGeoJSONData h
    (Returns (Some (SpatialRoute.mkRequest (Some operation) (Some engine))))
  = (SpatialRoute.Status500 "Failed to process spatial operation"
       (if String.eqb engine "postgis"
        then match RawOperation.layers operation with
             | Some _ => Error "PostGIS spatial processor not yet implemented"
             | None => TypeError
             end
        else Error ("Unsupported spatial engine: " +:+ engine)), h).
Proof.
  intros Hengine Htype Hfull. unfold SpatialRoute.POST. simpl.
  rewrite Htype, Hfull. simpl. unfold SpatialProcessorFactory.create.
  rewrite Hengine. destruct (String.eqb engine "postgis"); [|done].
  simpl. by destruct (RawOperation.layers operation).
Qed.

(** X25.  The 500 answers of the operation route with the Turf engine.  A
    body that does not parse is answered 500 with the error of the parser,
    and the body [null] with a [TypeError].  For a parsed request the answer
    is 500 only when the operation has a type validation accepts, and the
    detail is then: a [TypeError], when the operation has no layers, or has
    no parameters and is a BUFFER, WITHIN, TOUCHES, INTERSECTS or
    AREA_FILTER, or is a UNION whose last union gave [null]; the error on
    the number of geometries of UNION or DIFFERENCE; or what the geometry
    library threw, for BUFFER, TOUCHES, INTERSECTS, AREA_FILTER and UNION.
    The error of the dispatcher for an unsupported type is never met,
    validation having answered 400 before.  The store is left as it was. *)
Theorem spatial_POST_turf_failure (loadGeoJSONData : string → list Feature.t)
    (h : heap) :
  (∀ e, SpatialRoute.POST loadGeoJSONData h (Throws e)
        = (SpatialRoute.Status500 "Failed to process spatial operation" e,
           h)) ∧
  SpatialRoute.POST loadGeoJSONData h (Returns None)
    = (SpatialRoute.Status500 "Failed to process spatial operation"
         TypeError, h) ∧
  ∀ request text details h',
    default "turf" (SpatialRoute.engine request) = "turf" →
    SpatialRoute.POST loadGeoJSONData h (Returns (Some request))
      = (SpatialRoute.Status500 text details, h') →
    text = "Failed to process spatial operation" ∧ h' = h ∧
    ∃ operation type,
      SpatialRoute.operation request = Some operation ∧
      RawOperation.type operation = Some type ∧
      type ∈ validOperations ∧
      (RawOperation.layers operation = None ∧ details = TypeError ∨
       RawOperation.parameters operation = None ∧ type ∈ destructuring ∧
       details = TypeError ∨
       type = "UNION" ∧
       details ∈ [Error "Union operation requires at least 2 geometries";
                  TypeError] ∨
       type = "DIFFERENCE" ∧
       details = Error "Difference operation requires at least 2 geometries" ∨
       type ∈ ["BUFFER"; "TOUCHES"; "INTERSECTS"; "AREA_FILTER"; "UNION"] ∧
       ∃ thrown, details = Library thrown).
Proof.
  split_and!; [done|done|].
  intros request text details h' Hengine. unfold SpatialRoute.POST.
  rewrite Hengine. simpl.
  destruct (SpatialRoute.operation request) as [operation|]; [|done].
  destruct (RawOperation.type operation) as [type|] eqn:Htype; [|done].
  destruct (nonEmpty type); simpl; [|done].
  destruct (validateOperation_any operation) eqn:Hvalid; simpl; [|done].
  apply validateOperation_any_type in Hvalid as (type' & Htype' & Hvalid).
  rewrite Htype in Htype'. injection Htype' as <-.
  destruct (RawOperation.layers operation) as [layers|] eqn:Hlayers.
  - destruct (processOperation_any operation _ h) as [[results h1]|e]
      eqn:Hrun; [done|].
    intros [= <- <- <-]. split_and!; [done|done|].
    exists operation, type. split_and!; [done|done|done|]. right.
    by eapply processOperation_any_throws.
  - intros [= <- <- <-]. split_and!; [done|done|].
    exists operation, type. split_and!; [done|done|done|]. by left.
Qed.

(** X26.  A 200 answer of the operation route: the engine is Turf, the type
    is one of the seven kinds, and the features are, in order, the results
    of the Turf processor on the features of the layers of the operation,
    with their geometry and properties; [featureCount] is their number. *)
Theorem spatial_POST_success (loadGeoJSONData : string → list Feature.t)
    (h h' : heap) (body : outcome (option SpatialRoute.Request))
    (engine type processingEngine : string)
    (features : list SpatialRoute.GeoFeature) (featureCount : nat) :
  SpatialRoute.POST loadGeoJSONData h body
    = (SpatialRoute.Status200 engine type features featureCount
         processingEngine, h') →
  engine = "turf" ∧ processingEngine = "turf" ∧
  type ∈ validOperations ∧
  featureCount = length features ∧
  ∃ request operation layers results,
    body = Returns (Some request) ∧
    SpatialRoute.operation request = Some operation ∧
    RawOperation.type operation = Some type ∧
    RawOperation.layers operation = Some layers ∧
    processOperation_any operation (layers ≫= loadGeoJSONData) h
      = Returns (results, h') ∧
    features
      = (fun result =>
           SpatialRoute.mkFeature "Feature"
             (SpatialResult.geometry result)
             (SpatialResult.properties result)) <$> results.
Proof.
  unfold SpatialRoute.POST.
  destruct body as [[request|]|e]; [|done|done].
  destruct (SpatialRoute.operation request) as [operation|] eqn:Hop; [|done].
  destruct (RawOperation.type operation) as [type'|] eqn:Htype; [|done].
  destruct (nonEmpty type'); simpl; [|done].
  unfold SpatialProcessorFactory.create.
  destruct (String.eqb_spec (default "turf" (SpatialRoute.engine request))
              "turf") as [Hengine|Hengine].
  - simpl. destruct (validateOperation_any operation) eqn:Hvalid; simpl;
      [|done].
    apply validateOperation_any_type in Hvalid as (type'' & Htype'' & Hvalid).
    rewrite Htype in Htype''. injection Htype'' as <-.
    destruct (RawOperation.layers operation) as [layers|] eqn:Hlayers;
      [|done].
    destruct (processOperation_any operation _ h) as [[results h1]|e]
      eqn:Hrun; [|done].
    intros [= <- <- <- <- <- <-].
    split_and!; [done|done|done|by rewrite length_fmap|].
    by exists request, operation, layers, results.
  - destruct (String.eqb _ "postgis"); [|done]. simpl.
    by destruct (RawOperation.layers operation).
Qed.

Lemma nonEmpty_false (s : string) : nonEmpty s = false ↔ s = "".
Proof. by destruct s. Qed.

(** X14.  The 400 answers of the operation route, whatever the body.  The
    answer is "Operation type is required" exactly when the body parses to
    an object whose [operation] is missing or falsy, or has a type that is
    missing or empty; it is "Invalid operation for the specified engine"
    exactly when the engine is Turf and the type is none of the seven
    kinds.  No other 400 answer is given, and the store is left as it
    was. *)
Theorem spatial_POST_bad_request (loadGeoJSONData : string → list Feature.t)
    (h h' : heap) (body : outcome (option SpatialRoute.Request))
    (text : string) :
  SpatialRoute.POST loadGeoJSONData h body = (SpatialRoute.Status400 text, h')
  ↔
  h' = h ∧
  ∃ request,
    body = Returns (Some request) ∧
    (text = "Operation type is required" ∧
     (∀ operation type,
        SpatialRoute.operation request = Some operation →
        RawOperation.type operation = Some type → type = "") ∨
     text = "Invalid operation for the specified engine" ∧
     default "turf" (SpatialRoute.engine request) = "turf" ∧
     ∃ operation type,
       SpatialRoute.operation request = Some operation ∧
       RawOperation.type operation = Some type ∧
       type ≠ "" ∧ type ∉ validOperations).
Proof.
  unfold SpatialRoute.POST. split.
  - destruct body as [[request|]|e]; [|done|done].
    destruct (SpatialRoute.operation request) as [operation|] eqn:Hop.
    2:{ intros [= <- <-]. split; [done|]. exists request. split; [done|].
        left. split; [done|]. intros operation type Hsome. congruence. }
    destruct (RawOperation.type operation) as [type|] eqn:Htype.
    2:{ intros [= <- <-]. split; [done|]. exists request. split; [done|].
        left. split; [done|]. intros operation' type Hsome Htype'.
        congruence. }
    destruct (nonEmpty type) eqn:Hfull; simpl.
    2:{ intros [= <- <-]. split; [done|]. exists request. split; [done|].
        left. split; [done|]. intros operation' type' Hsome Htype'.
        assert (type' = type) as -> by congruence.
        by apply nonEmpty_false. }
    unfold SpatialProcessorFactory.create.
    destruct (String.eqb_spec (default "turf" (SpatialRoute.engine request))
                "turf") as [Hengine|Hengine].
    + simpl. unfold validateOperation_any. rewrite Htype.
      destruct (decide (type ∈ validOperations)) as [Hin|Hout].
      * rewrite bool_decide_eq_true_2 by done. simpl.
        destruct (RawOperation.layers operation); [|done].
        by destruct (processOperation_any _ _ _) as [[results h1]|e].
      * rewrite bool_decide_eq_false_2 by done. simpl.
        intros [= <- <-]. split; [done|]. exists request. split; [done|].
        right. split_and!; [done|done|]. exists operation, type.
        split_and!; [done|done| |done].
        intros ->. discriminate Hfull.
    + destruct (String.eqb _ "postgis"); [|done]. simpl.
      by destruct (RawOperation.layers operation).
  - intros (-> & request & -> & [[-> Hnone]|(-> & Hengine & operation & type &
                  Hop & Htype & Hfull & Hout)]).
    + destruct (SpatialRoute.operation request) as [operation|] eqn:Hop;
        [|done].
      destruct (RawOperation.type operation) as [type|] eqn:Htype; [|done].
      by rewrite (Hnone operation type eq_refl Htype).
    + rewrite Hop, Htype, Hengine.
      assert (nonEmpty type = true) as ->.
      { destruct (nonEmpty type) eqn:Hn; [done|].
        by apply nonEmpty_false in Hn. }
      simpl. unfold validateOperation_any. rewrite Htype.
      by rewrite bool_decide_eq_false_2 by done.
Qed.

End RouteFacts.

(** ** The query route *)

Lemma array_filter_TypeError predicate features e :
  (∀ feature e', predicate feature = Throws e' → e' = TypeError) →
  QueryRoute.array_filter predicate features = Throws e → e = TypeError.
Proof.
  intros Hp. induction features as [|first rest IH]; simpl; [done|].
  destruct (predicate first) as [keep|e'] eqn:Hfirst; simpl.
  - destruct (QueryRoute.array_filter predicate rest) as [kept|e'']; simpl;
      [done|].
    intros [= <-]. by apply IH.
  - intros [= <-]. by apply (Hp first).
Qed.

Lemma mentionsSanFrancisco_TypeError city e :
  QueryRoute.mentionsSanFrancisco city = Throws e → e = TypeError.
Proof.
  unfold QueryRoute.mentionsSanFrancisco.
  destruct (lowerField "name" city) as [name|e1] eqn:H1; simpl.
  - destruct (match name with
              | Some n => includes n "san francisco"
              | None => false
              end); [done|].
    destruct (lowerField "NAME" city) as [NAME|e2] eqn:H2; simpl; [done|].
    intros [= <-]. by apply (lowerField_TypeError "NAME" city).
  - intros [= <-]. by apply (lowerField_TypeError "name" city).
Qed.

Lemma coordinates_TypeError city e :
  QueryRoute.coordinates city = Throws e → e = TypeError.
Proof.
  unfold QueryRoute.coordinates. destruct (Feature.geometry city); [done|].
  by intros [= <-].
Qed.

Lemma coordinates_Returns city u :
  QueryRoute.coordinates city = Returns u → hasGeometry city.
Proof.
  unfold QueryRoute.coordinates, hasGeometry.
  destruct (Feature.geometry city); [by eexists|done].
Qed.

Lemma each_coordinates_TypeError features e :
  QueryRoute.each QueryRoute.coordinates features = Throws e → e = TypeError.
Proof.
  induction features as [|first rest IH]; simpl; [done|].
  destruct (QueryRoute.coordinates first) as [u|e'] eqn:Hfirst; simpl;
    [exact IH|].
  intros [= <-]. by apply (coordinates_TypeError first).
Qed.

(** The lookup of the city: what it returns is what [findFeatureByName]
    returns, a city found having a geometry; what it throws is a
    [TypeError]. *)
Lemma resolveCity_outcome citiesData cityName :
  match QueryRoute.resolveCity citiesData cityName with
  | Returns (Some city) =>
      findFeatureByName citiesData cityName = Returns (Some city) ∧
      hasGeometry city
  | Returns None => findFeatureByName citiesData cityName = Returns None
  | Throws e => e = TypeError
  end.
Proof.
  unfold QueryRoute.resolveCity.
  destruct (QueryRoute.array_filter _ citiesData) as [cities|e] eqn:H1; simpl.
  2:{ apply (array_filter_TypeError _ _ _ mentionsSanFrancisco_TypeError H1). }
  destruct (QueryRoute.each _ _) as [u|e] eqn:H2; simpl.
  2:{ by apply (each_coordinates_TypeError (take 5 cities)). }
  destruct (findFeatureByName citiesData cityName) as [[city|]|e] eqn:H3;
    simpl; [|done|].
  2:{ by apply (findFeatureByName_TypeError citiesData cityName). }
  destruct (QueryRoute.coordinates city) as [u'|e] eqn:H4; simpl.
  - split; [done|]. by apply (coordinates_Returns city u').
  - by apply (coordinates_TypeError city).
Qed.

(** The confidence an answer reports is a number other than zero. *)
Lemma confidence_truthy (confidence : option float) :
  truthy (num match confidence with
              | Some c => if truthy (num c) then c else 1
              | None => 1
              end%float) = true.
Proof.
  destruct confidence as [c|]; [|reflexivity].
  by destruct (truthy (num c)) eqn:Hc.
Qed.

Section QueryRouteFacts.

Context `{Turf}.

Lemma run_outcome loadGeoJSONData h aiResult type parameters layers :
  match QueryRoute.run loadGeoJSONData h aiResult type parameters layers with
  | Returns (response, h') =>
      ∃ layers' results,
        layers = Some layers' ∧
        processOperation_any
          (RawOperation.mk (Some type) parameters (Some layers'))
          (layers' ≫= loadGeoJSONData) h
          = Returns (results, h') ∧
        response
          = QueryRoute.Status200
              (QueryRoute.mkSuccess "ai" type
                 (default "" (AIResult.explanation aiResult))
                 (match AIResult.confidence aiResult with
                  | Some c => if truthy (num c) then c else 1
                  | None => 1
                  end)%float
                 layers' parameters results)
  | Throws e =>
      layers = None ∧ e = TypeError ∨
      ∃ layers',
        layers = Some layers' ∧
        processOperation_any
          (RawOperation.mk (Some type) parameters (Some layers'))
          (layers' ≫= loadGeoJSONData) h
          = Throws e
  end.
Proof.
  unfold QueryRoute.run. destruct layers as [layers|]; [|by left]. simpl.
  destruct (processOperation_any _ _ h) as [[results h']|e] eqn:Hrun; simpl.
  - by exists layers, results.
  - right. by exists layers.
Qed.

(** The answers the route gives before running an operation, and the
    operation it runs. *)
Lemma handle_cases ask loadGeoJSONData h body :
  (∃ text,
     QueryRoute.handle ask loadGeoJSONData h body
       = Returns (QueryRoute.Status400 text, h)) ∨
  (∃ e, body = Throws e ∧
        QueryRoute.handle ask loadGeoJSONData h body = Throws e) ∨
  QueryRoute.handle ask loadGeoJSONData h body
    = Throws (Error "Failed to interpret query as spatial operation") ∨
  QueryRoute.handle ask loadGeoJSONData h body = Throws TypeError ∨
  ∃ q aiResult operation type parameters,
    body = Returns (Some (str q)) ∧ nonEmpty q = true ∧
    ask q QueryRoute.AVAILABLE_LAYERS = Returns (Some aiResult) ∧
    AIResult.operation aiResult = Some operation ∧
    RawOperation.type operation = Some type ∧
    runAs type ∈ QueryRoute.validOperationTypes ∧
    QueryRoute.handle ask loadGeoJSONData h body
      = QueryRoute.run loadGeoJSONData h aiResult (runAs type) parameters
          (RawOperation.layers operation) ∧
    (parameters = RawOperation.parameters operation ∨
     ∃ map name city,
       runAs type = "WITHIN" ∧
       RawOperation.parameters operation = Some map ∧
       QueryRoute.cityNameOf map = Some name ∧
       nonEmpty name = true ∧
       findFeatureByName (loadGeoJSONData "cities") name
         = Returns (Some city) ∧
       hasGeometry city ∧
       parameters = Some (<["targetGeometry" := VFeature city]> map)).
Proof.
  unfold QueryRoute.handle.
  destruct body as [[query|]|e]; simpl;
    [|by right; right; right; left|right; left; by exists e].
  destruct query as [[| | | |q]|f|inherited]; try (left; by eexists).
  destruct (nonEmpty q) eqn:Hq; simpl; [|left; by eexists].
  unfold interpretQuery.
  destruct (ask q QueryRoute.AVAILABLE_LAYERS) as [parsed|e] eqn:Hask; simpl;
    [|by right; right; left].
  destruct parsed as [aiResult|]; simpl; [|left; by eexists].
  destruct (AIResult.operation aiResult) as [operation|] eqn:Hop; simpl;
    [|left; by eexists].
  destruct (RawOperation.type operation) as [type|] eqn:Htype;
    [|left; by eexists].
  fold (runAs type).
  destruct (decide (runAs type ∈ QueryRoute.validOperationTypes))
    as [Hvalid|Hno].
  2:{ rewrite bool_decide_eq_false_2 by done. simpl. left. by eexists. }
  rewrite bool_decide_eq_true_2 by done. simpl.
  destruct (String.eqb_spec (runAs type) "WITHIN") as [Hwithin|Hother].
  2:{ right; right; right; right.
      exists q, aiResult, operation, type, (RawOperation.parameters operation).
      split_and!; try done. by left. }
  destruct (RawOperation.parameters operation) as [map|] eqn:Hmap;
    [|by right; right; right; left].
  destruct (QueryRoute.cityNameOf map) as [name|] eqn:Hname.
  2:{ right; right; right; right.
      exists q, aiResult, operation, type, (Some map).
      split_and!; try done. by left. }
  destruct (nonEmpty name) eqn:Hfull.
  2:{ right; right; right; right.
      exists q, aiResult, operation, type, (Some map).
      split_and!; try done. by left. }
  pose proof (resolveCity_outcome (loadGeoJSONData "cities") name) as Hcity.
  destruct (QueryRoute.resolveCity _ name) as [[city|]|e]; simpl.
  - destruct Hcity as [Hfound Hgeometry].
    right; right; right; right.
    exists q, aiResult, operation, type,
      (Some (<["targetGeometry" := VFeature city]> map)).
    split_and!; try done. right. by exists map, name, city.
  - left. by eexists.
  - subst e. by right; right; right; left.
Qed.

(** X27.  A 200 answer of the query route: the query is a string that is
    not empty and the model answered it with an operation; the answer names
    the method [ai], the type of that operation (WITHIN for NEAR), which is
    one of the seven kinds, and its layers; the confidence is a number other
    than zero; the results are those of the Turf engine for the type,
    parameters and layers the answer shows, on the features of these
    layers. *)
Theorem query_POST_success
    (ask : string → list string → outcome (option AIResult.t))
    (loadGeoJSONData : string → list Feature.t) (h h' : heap)
    (body : outcome (option value)) (answer : QueryRoute.Success) :
  QueryRoute.POST ask loadGeoJSONData h body
    = (QueryRoute.Status200 answer, h') →
  ∃ q aiResult operation type,
    body = Returns (Some (str q)) ∧ nonEmpty q = true ∧
    ask q QueryRoute.AVAILABLE_LAYERS = Returns (Some aiResult) ∧
    AIResult.operation aiResult = Some operation ∧
    RawOperation.type operation = Some type ∧
    QueryRoute.method answer = "ai" ∧
    QueryRoute.operation answer
      = (if String.eqb type "NEAR" then "WITHIN" else type) ∧
    QueryRoute.operation answer ∈ validOperations ∧
    RawOperation.layers operation = Some (QueryRoute.layers answer) ∧
    truthy (num (QueryRoute.confidence answer)) = true ∧
    processOperation_any
      (RawOperation.mk (Some (QueryRoute.operation answer))
         (QueryRoute.parameters answer) (Some (QueryRoute.layers answer)))
      (QueryRoute.layers answer ≫= loadGeoJSONData) h
      = Returns (QueryRoute.results answer, h').
Proof.
  unfold QueryRoute.POST.
  destruct (handle_cases ask loadGeoJSONData h body)
    as [[text ->]|[(e & _ & ->)|[->|[->|Hrun]]]]; [done|done|done|done|].
  destruct Hrun as (q & aiResult & operation & type & parameters & -> & Hq &
                    Hask & Hop & Htype & Hvalid & -> & _).
  pose proof (run_outcome loadGeoJSONData h aiResult (runAs type) parameters
                (RawOperation.layers operation)) as Hout.
  destruct (QueryRoute.run _ _ _ _ _ _) as [[response h1]|e]; [|done].
  destruct Hout as (layers & results & Hlayers & Hresults & ->).
  intros [= <- <-]. exists q, aiResult, operation, type. simpl.
  split_and!; try done. apply confidence_truthy.
Qed.

(** X28.  A 500 answer of the query route leaves the store as it was.  Its
    detail is: the error of the parser, for a body that does not parse; the
    fixed error of [interpretQuery] (the cause of a failure of the model is
    not shown); a [TypeError] (the body is [null]; the operation has no
    layers, or no parameters where they are read; a city found has no
    geometry; a name is not a string; the last union gave [null]); one of
    the two errors on the number of geometries; or what the geometry
    library threw.  The error of the dispatcher for an unsupported type is
    never met. *)
Theorem query_POST_failure
    (ask : string → list string → outcome (option AIResult.t))
    (loadGeoJSONData : string → list Feature.t) (h h' : heap)
    (body : outcome (option value)) (text : string) (details : error) :
  QueryRoute.POST ask loadGeoJSONData h body
    = (QueryRoute.Status500 text details, h') →
  text = "Internal server error" ∧ h' = h ∧
  (body = Throws details ∨
   details ∈ [Error "Failed to interpret query as spatial operation";
              TypeError;
              Error "Union operation requires at least 2 geometries";
              Error "Difference operation requires at least 2 geometries"] ∨
   ∃ thrown, details = Library thrown).
Proof.
  unfold QueryRoute.POST.
  destruct (handle_cases ask loadGeoJSONData h body)
    as [[text' ->]|[(e & Hbody & ->)|[->|[->|Hrun]]]]; [done| | | |].
  - intros [= <- <- <-]. split_and!; [done|done|by left].
  - intros [= <- <- <-].
    split_and!; [done|done|right; left; apply list_elem_of_here].
  - intros [= <- <- <-].
    split_and!; [done|done|right; left].
    apply list_elem_of_further, list_elem_of_here.
  - destruct Hrun as (q & aiResult & operation & type & parameters & -> & Hq &
                      Hask & Hop & Htype & Hvalid & -> & _).
    pose proof (run_outcome loadGeoJSONData h aiResult (runAs type)
                  parameters (RawOperation.layers operation)) as Hout.
    destruct (QueryRoute.run _ _ _ _ _ _) as [[response h1]|e].
    { destruct Hout as (layers & results & _ & _ & ->). done. }
    intros [= <- <- <-]. split_and!; [done|done|]. right.
    destruct Hout as [[_ ->]|(layers & _ & Hthrows)].
    { left. apply list_elem_of_further, list_elem_of_here. }
    apply (processOperation_any_throws _ (runAs type)) in Hthrows
      as [(_ & _ & ->)|[[_ Hunion]|[[_ ->]|[_ Hlibrary]]]]; [| | | |done|done].
    + left. apply list_elem_of_further, list_elem_of_here.
    + left. apply elem_of_cons in Hunion as [->|Hunion].
      { do 2 apply list_elem_of_further. apply list_elem_of_here. }
      apply list_elem_of_singleton in Hunion as ->.
      apply list_elem_of_further, list_elem_of_here.
    + left. do 3 apply list_elem_of_further. apply list_elem_of_here.
    + by right.
Qed.

(** X29.  NEAR is run as WITHIN: the route answers a model that names the
    type NEAR as it answers one that names WITHIN with the same parameters,
    layers, explanation and confidence. *)
Theorem query_POST_near_is_within
    (ask : string → list string → outcome (option AIResult.t))
    (loadGeoJSONData : string → list Feature.t) (h : heap) (query : string)
    (aiResult : AIResult.t) (operation : RawOperation.t) :
  ask query QueryRoute.AVAILABLE_LAYERS = Returns (Some aiResult) →
  AIResult.operation aiResult = Some operation →
  RawOperation.type operation = Some "NEAR" →
  QueryRoute.POST ask loadGeoJSONData h (Returns (Some (str query)))
  = QueryRoute.POST
      (fun _ _ =>
         Returns
           (Some (AIResult.mk
                    (Some (RawOperation.mk (Some "WITHIN")
                             (RawOperation.parameters operation)
                             (RawOperation.layers operation)))
                    (AIResult.explanation aiResult)
                    (AIResult.confidence aiResult))))
      loadGeoJSONData h (Returns (Some (str query))).
Proof.
  intros Hask Hop Htype.
  unfold QueryRoute.POST, QueryRoute.handle, interpretQuery, str. simpl.
  destruct (nonEmpty query); simpl; [|done].
  rewrite Hask. simpl. rewrite Hop. simpl. rewrite Htype. simpl.
  reflexivity.
Qed.

(** X30.  A WITHIN (or NEAR) operation that names a city, in
    [targetGeometry] or else in [location]: on a 200 answer the
    [targetGeometry] of the parameters shown is the feature
    [findFeatureByName] finds for that name in the cities layer, and this
    feature has a geometry; a 400 answer says that the city could not be
    found, [findFeatureByName] having answered [null]. *)
Theorem query_POST_city
    (ask : string → list string → outcome (option AIResult.t))
    (loadGeoJSONData : string → list Feature.t) (h : heap) (query : string)
    (aiResult : AIResult.t) (operation : RawOperation.t)
    (type : string) (parameters : gmap string value) (name : string) :
  nonEmpty query = true →
  ask query QueryRoute.AVAILABLE_LAYERS = Returns (Some aiResult) →
  AIResult.operation aiResult = Some operation →
  RawOperation.type operation = Some type →
  type ∈ ["WITHIN"; "NEAR"] →
  RawOperation.parameters operation = Some parameters →
  QueryRoute.cityNameOf parameters = Some name →
  nonEmpty name = true →
  match (QueryRoute.POST ask loadGeoJSONData h
           (Returns (Some (str query)))).1 with
  | QueryRoute.Status200 answer =>
      ∃ city,
        findFeatureByName (loadGeoJSONData "cities") name
          = Returns (Some city) ∧
        hasGeometry city ∧
        QueryRoute.operation answer = "WITHIN" ∧
        QueryRoute.parameters answer
          = Some (<["targetGeometry" := VFeature city]> parameters)
  | QueryRoute.Status400 text =>
      text = "Could not find city: " +:+ name ∧
      findFeatureByName (loadGeoJSONData "cities") name = Returns None
  | QueryRoute.Status500 text details => text = "Internal server error"
  end.
Proof.
  intros Hq Hask Hop Htype Hkind Hmap Hname Hfull.
  unfold QueryRoute.POST, QueryRoute.handle, interpretQuery, str. simpl.
  rewrite Hq. simpl. rewrite Hask. simpl. rewrite Hop. simpl.
  rewrite Htype.
  assert ((if String.eqb type "NEAR" then "WITHIN" else type) = "WITHIN")
    as ->.
  { apply elem_of_cons in Hkind as [->|Hkind]; [done|].
    by apply list_elem_of_singleton in Hkind as ->. }
  simpl. rewrite Hmap, Hname, Hfull.
  pose proof (resolveCity_outcome (loadGeoJSONData "cities") name) as Hcity.
  destruct (QueryRoute.resolveCity _ name) as [[city|]|e]; simpl;
    [|done|done].
  destruct Hcity as [Hfound Hgeometry].
  pose proof (run_outcome loadGeoJSONData h aiResult "WITHIN"
    (Some (<["targetGeometry" := VFeature city]> parameters))
    (RawOperation.layers operation)) as Hout.
  destruct (QueryRoute.run _ _ _ _ _ _) as [[response h1]|e]; [|done].
  destruct Hout as (layers & results & _ & _ & ->). simpl. by exists city.
Qed.

End QueryRouteFacts.

(** * Runs on the sample data, further *)

Lemma extractParameters_shape_witness :
  extractParameters "cities within 50 miles of San Francisco" citiesTemplate
    !! "location" = Some (str "San Francisco") ∧
  (("location" = "distance" ∨ "location" = "area") ∧
   (∃ z, (0 ≤ z)%Z ∧ str "San Francisco" = num (number_of_Z z)) ∨
   "location" = "location" ∧
   ∃ s, str "San Francisco" = str s ∧
        allChars (fun c => isLetter c || isSpace c) s = true ∧
        trim s = s).
Proof.
  assert (extractParameters "cities within 50 miles of San Francisco"
            citiesTemplate !! "location" = Some (str "San Francisco"))
    as Hlocation by (vm_compute; reflexivity).
  split; [exact Hlocation|].
  exact (extractParameters_shape "cities within 50 miles of San Francisco"
           citiesTemplate "location" (str "San Francisco") Hlocation).
Defined.

Lemma findMatchingTemplate_contains_witness :
  toLowerCase "Show me the CITIES WITHIN 50 MILES of here, please"
    = "show me the " +:+ toLowerCase "cities within 50 miles"
      +:+ " of here, please" ∧
  findMatchingTemplate "cities within 50 miles" = Some coastlineTemplate ∧
  findMatchingTemplate "Show me the CITIES WITHIN 50 MILES of here, please"
    = Some coastlineTemplate.
Proof.
  assert (findMatchingTemplate "cities within 50 miles"
          = Some coastlineTemplate) as Hmatch by (vm_compute; reflexivity).
  split; [reflexivity|].
  split; [exact Hmatch|].
  exact (findMatchingTemplate_contains "cities within 50 miles"
           "Show me the CITIES WITHIN 50 MILES of here, please"
           "show me the " " of here, please" coastlineTemplate
           eq_refl Hmatch).
Defined.

Lemma template_pipeline_always_buffer_witness :
  findMatchingTemplate "lakes larger than 100 square miles"
    = Some coastlineTemplate ∧
  ∃ operation,
    createSpatialOperation coastlineTemplate
      (extractParameters "lakes larger than 100 square miles"
         coastlineTemplate) = Some operation ∧
    SpatialOperation.type operation = "BUFFER" ∧
    SpatialOperation.layers operation = ["coastline"] ∧
    get (SpatialOperation.parameters operation) "units" = str "miles" ∧
    get (SpatialOperation.parameters operation) "distance"
      = get (extractParameters "lakes larger than 100 square miles"
               coastlineTemplate) "distance" ∧
    validateOperation operation = true.
Proof.
  assert (findMatchingTemplate "lakes larger than 100 square miles"
          = Some coastlineTemplate) as Hmatch by (vm_compute; reflexivity).
  split; [exact Hmatch|].
  exact (template_pipeline_always_buffer "lakes larger than 100 square miles"
           coastlineTemplate Hmatch).
Defined.

Lemma no_target_no_result_witness :
  truthy (get (SpatialOperation.parameters Sample.buffer50) "targetGeometry")
    = false ∧
  processWithin Sample.buffer50 Sample.cities Sample.store = [] ∧
  processTouches Sample.buffer50 Sample.cities Sample.store = Returns [] ∧
  processIntersects Sample.buffer50 Sample.cities Sample.store = Returns [].
Proof.
  split; [reflexivity|].
  exact (no_target_no_result Sample.buffer50 Sample.cities Sample.store
           eq_refl).
Defined.

Lemma missing_number_no_result_witness :
  get (SpatialOperation.parameters Sample.difference) "distance"
    = undefined ∧
  get (SpatialOperation.parameters Sample.difference) "minArea"
    = undefined ∧
  Forall (fun feature =>
            answers (turf_area (arg_of_feature Sample.store feature)))
         Sample.lakes ∧
  processWithin Sample.difference Sample.cities Sample.store = [] ∧
  processAreaFilter Sample.difference Sample.lakes Sample.store = Returns [].
Proof.
  assert (Forall (fun feature =>
                    answers (turf_area (arg_of_feature Sample.store feature)))
                 Sample.lakes) as Hanswers.
  { repeat (constructor; [eexists; vm_compute; reflexivity|]). constructor. }
  split; [reflexivity|].
  split; [reflexivity|].
  split; [exact Hanswers|].
  split.
  - exact (proj1 (missing_number_no_result Sample.difference Sample.cities
                    Sample.store) eq_refl).
  - exact (proj2 (proj2 (proj2 (missing_number_no_result Sample.difference
                                  Sample.lakes Sample.store) eq_refl))
             Hanswers).
Defined.

Lemma results_follow_features_witness :
  processOperation Sample.within50 Sample.cities Sample.store
    = Returns (processWithin Sample.within50 Sample.cities Sample.store,
               Sample.store) ∧
  (length (processWithin Sample.within50 Sample.cities Sample.store)
     ≤ length (filter hasGeometry Sample.cities))%nat ∧
  SpatialResult.geometry
    <$> processWithin Sample.within50 Sample.cities Sample.store
    `sublist_of` Feature.geometry <$> filter hasGeometry Sample.cities.
Proof.
  split; [reflexivity|].
  destruct (results_follow_features Sample.within50 Sample.cities
              Sample.store Sample.store
              (processWithin Sample.within50 Sample.cities Sample.store)
              eq_refl) as [Hlength Horder].
  split.
  - apply Hlength. simpl. in_list.
  - apply Horder. simpl. in_list.
Defined.

Lemma results_keep_properties_witness :
  processOperation Sample.within50 Sample.cities Sample.store
    = Returns (processWithin Sample.within50 Sample.cities Sample.store,
               Sample.store) ∧
  SpatialOperation.type Sample.within50
    ∈ ["BUFFER"; "WITHIN"; "TOUCHES"; "INTERSECTS"; "AREA_FILTER"] ∧
  Forall (fun result =>
            ∃ feature, feature ∈ Sample.cities ∧
              keepsProperties "WITHIN" feature result)
         (processWithin Sample.within50 Sample.cities Sample.store).
Proof.
  assert (SpatialOperation.type Sample.within50
            ∈ ["BUFFER"; "WITHIN"; "TOUCHES"; "INTERSECTS"; "AREA_FILTER"])
    as Htype by (simpl; in_list).
  split; [reflexivity|].
  split; [exact Htype|].
  exact (results_keep_properties Sample.within50 Sample.cities Sample.store
           Sample.store
           (processWithin Sample.within50 Sample.cities Sample.store)
           eq_refl Htype).
Defined.

Lemma results_metadata_witness :
  processOperation Sample.union Sample.lakes Sample.store
    = processUnion Sample.union Sample.lakes Sample.store ∧
  ∃ results h',
    processUnion Sample.union Sample.lakes Sample.store
      = Returns (results, h') ∧
    Forall (fun result =>
              SpatialResult.metadata result = Metadata.mk "UNION" 0 "turf")
           results.
Proof.
  split; [reflexivity|].
  assert (∃ results h',
            processOperation Sample.union Sample.lakes Sample.store
              = Returns (results, h')) as (results & h' & Hrun)
    by (vm_compute; eexists _, _; reflexivity).
  exists results, h'. split; [exact Hrun|].
  exact (results_metadata Sample.union Sample.lakes Sample.store h' results
           Hrun).
Defined.

Lemma processOperation_errors_witness :
  processOperation Sample.buffer50 Sample.waters Sample.storeWithReef
    = Throws (Library "coordinates must contain numbers") ∧
  (validateOperation Sample.buffer50 = false ∧
   Library "coordinates must contain numbers"
     = Error ("Unsupported operation: "
              +:+ SpatialOperation.type Sample.buffer50) ∨
   SpatialOperation.type Sample.buffer50 = "UNION" ∧
   Library "coordinates must contain numbers"
     ∈ [Error "Union operation requires at least 2 geometries"; TypeError] ∨
   SpatialOperation.type Sample.buffer50 = "DIFFERENCE" ∧
   Library "coordinates must contain numbers"
     = Error "Difference operation requires at least 2 geometries" ∨
   SpatialOperation.type Sample.buffer50
     ∈ ["BUFFER"; "TOUCHES"; "INTERSECTS"; "AREA_FILTER"; "UNION"] ∧
   ∃ thrown, Library "coordinates must contain numbers" = Library thrown).
Proof.
  split; [reflexivity|].
  exact (processOperation_errors Sample.buffer50 Sample.waters
           Sample.storeWithReef (Library "coordinates must contain numbers")
           eq_refl).
Defined.

Lemma processWithin_unit_names_witness :
  String.eqb "kilometers" "miles" = false ∧
  String.eqb "meters" "miles" = false ∧
  processWithin
    (SpatialOperation.mk "WITHIN"
       (<["units" := str "kilometers"]>
          (SpatialOperation.parameters Sample.within50))
       (SpatialOperation.layers Sample.within50))
    Sample.cities Sample.store
  = processWithin
      (SpatialOperation.mk "WITHIN"
         (<["units" := str "meters"]>
            (SpatialOperation.parameters Sample.within50))
         (SpatialOperation.layers Sample.within50))
      Sample.cities Sample.store.
Proof.
  split; [reflexivity|].
  split; [reflexivity|].
  exact (processWithin_unit_names Sample.within50 "kilometers" "meters"
           Sample.cities Sample.store eq_refl eq_refl).
Defined.

Lemma findFeatureByName_null_witness :
  findFeatureByName [Sample.oakland; Sample.sacramento] "Paris"
    = Returns None ∧
  Forall (fun feature =>
            ∃ n, lowerField "NAME" feature = Returns (Some n) ∧
                 includes n (toLowerCase "Paris") = false)
         [Sample.oakland; Sample.sacramento].
Proof.
  assert (findFeatureByName [Sample.oakland; Sample.sacramento] "Paris"
          = Returns None) as Hnone by (vm_compute; reflexivity).
  split; [exact Hnone|].
  exact (findFeatureByName_null [Sample.oakland; Sample.sacramento] "Paris"
           Hnone).
Defined.

Lemma findFeatureByName_sound_witness :
  findFeatureByName Sample.cities "San Francisco Bay"
    = Returns (Some Sample.sanFrancisco) ∧
  Sample.sanFrancisco ∈ Sample.cities ∧
  (nameContains "San Francisco Bay" Sample.sanFrancisco ∨
   includes (toLowerCase "San Francisco Bay") "san francisco" = true ∧
   nameContains "san francisco" Sample.sanFrancisco).
Proof.
  assert (findFeatureByName Sample.cities "San Francisco Bay"
          = Returns (Some Sample.sanFrancisco)) as Hfound
    by (vm_compute; reflexivity).
  split; [exact Hfound|].
  exact (findFeatureByName_sound Sample.cities "San Francisco Bay"
           Sample.sanFrancisco Hfound).
Defined.

Lemma findFeatureByName_other_country_witness :
  findFeatureByName [Sample.oakland; Sample.sanFranciscoMX] "san"
    = Returns (Some Sample.sanFranciscoMX) ∧
  (inUnitedStates Sample.sanFranciscoMX ∨
   nameEquals "san" Sample.sanFranciscoMX ∨
   Forall (fun g => nameContains "san" g → ¬ inUnitedStates g)
          [Sample.oakland; Sample.sanFranciscoMX]).
Proof.
  assert (findFeatureByName [Sample.oakland; Sample.sanFranciscoMX] "san"
          = Returns (Some Sample.sanFranciscoMX)) as Hfound
    by (vm_compute; reflexivity).
  split; [exact Hfound|].
  exact (findFeatureByName_other_country
           [Sample.oakland; Sample.sanFranciscoMX] "san"
           Sample.sanFranciscoMX Hfound).
Defined.

Lemma findFeatureByName_exact_first_witness :
  includes (toLowerCase "OAKLAND") "san francisco" = false ∧
  nameEquals "OAKLAND" Sample.oakland ∧
  Forall (fun g => ∃ n, lowerField "NAME" g = Returns n ∧
                        n ≠ Some (toLowerCase "OAKLAND"))
         [Sample.nameless; Sample.sacramento] ∧
  findFeatureByName
    ([Sample.nameless; Sample.sacramento] ++ Sample.oakland
       :: [Sample.sanFrancisco]) "OAKLAND"
    = Returns (Some Sample.oakland).
Proof.
  assert (Forall (fun g => ∃ n, lowerField "NAME" g = Returns n ∧
                                n ≠ Some (toLowerCase "OAKLAND"))
                 [Sample.nameless; Sample.sacramento]) as Hbefore.
  { repeat (constructor; [eexists; split; [vm_compute; reflexivity|done]|]).
    constructor. }
  split; [reflexivity|].
  split; [reflexivity|].
  split; [exact Hbefore|].
  exact (findFeatureByName_exact_first [Sample.nameless; Sample.sacramento]
           [Sample.sanFrancisco] Sample.oakland "OAKLAND"
           eq_refl eq_refl Hbefore).
Defined.

Lemma findFeatureByName_complete_witness :
  Forall hasName Sample.cities ∧
  Exists (nameContains "sacra") Sample.cities ∧
  ∃ found,
    findFeatureByName Sample.cities "sacra" = Returns found ∧
    is_Some found.
Proof.
  assert (Forall hasName Sample.cities) as Hnamed.
  { repeat (constructor; [split; eexists; vm_compute; reflexivity|]).
    constructor. }
  assert (Exists (nameContains "sacra") Sample.cities) as Hsome.
  { apply Exists_exists. exists Sample.sacramento.
    split; [unfold Sample.cities; in_list|].
    exists "sacramento". split; reflexivity. }
  split; [exact Hnamed|].
  split; [exact Hsome|].
  destruct (findFeatureByName_complete Sample.cities "sacra" Hnamed)
    as (found & Hfound & Hsure).
  exists found. split; [exact Hfound|exact (Hsure Hsome)].
Defined.

Lemma spatial_POST_other_engine_witness :
  String.eqb "postgis" "turf" = false ∧
  RawOperation.type SampleRoutes.bufferNoLayers = Some "BUFFER" ∧
  nonEmpty "BUFFER" = true ∧
  SpatialRoute.POST SampleRoutes.loadGeoJSONData Sample.store
    (Returns (Some (SpatialRoute.mkRequest
                      (Some (SampleRoutes.raw Sample.buffer50))
                      (Some "postgis"))))
  = (SpatialRoute.Status500 "Failed to process spatial operation"
       (Error "PostGIS spatial processor not yet implemented"),
     Sample.store) ∧
  SpatialRoute.POST SampleRoutes.loadGeoJSONData Sample.store
    (Returns (Some (SpatialRoute.mkRequest
                      (Some SampleRoutes.bufferNoLayers) (Some "postgis"))))
  = (SpatialRoute.Status500 "Failed to process spatial operation" TypeError,
     Sample.store).
Proof.
  split; [reflexivity|].
  split; [reflexivity|].
  split; [reflexivity|].
  split.
  - exact (spatial_POST_other_engine SampleRoutes.loadGeoJSONData
             Sample.store (SampleRoutes.raw Sample.buffer50) "BUFFER"
             "postgis" eq_refl eq_refl eq_refl).
  - exact (spatial_POST_other_engine SampleRoutes.loadGeoJSONData
             Sample.store SampleRoutes.bufferNoLayers "BUFFER" "postgis"
             eq_refl eq_refl eq_refl).
Defined.

Lemma spatial_POST_turf_failure_witness :
  SpatialRoute.POST SampleRoutes.loadGeoJSONData Sample.storeWithReef
    (Returns (Some (SpatialRoute.mkRequest (Some SampleRoutes.bufferWaters)
                      None)))
  = (SpatialRoute.Status500 "Failed to process spatial operation"
       (Library "coordinates must contain numbers"), Sample.storeWithReef) ∧
  SpatialRoute.POST SampleRoutes.loadGeoJSONData Sample.storeWithReef
    (Returns (Some (SpatialRoute.mkRequest (Some SampleRoutes.bufferNoLayers)
                      None)))
  = (SpatialRoute.Status500 "Failed to process spatial operation" TypeError,
     Sample.storeWithReef) ∧
  ∃ operation type,
    Some SampleRoutes.bufferWaters = Some operation ∧
    RawOperation.type operation = Some type ∧
    type ∈ validOperations ∧
    (RawOperation.layers operation = None ∧
     Library "coordinates must contain numbers" = TypeError ∨
     RawOperation.parameters operation = None ∧ type ∈ destructuring ∧
     Library "coordinates must contain numbers" = TypeError ∨
     type = "UNION" ∧
     Library "coordinates must contain numbers"
       ∈ [Error "Union operation requires at least 2 geometries";
          TypeError] ∨
     type = "DIFFERENCE" ∧
     Library "coordinates must contain numbers"
       = Error "Difference operation requires at least 2 geometries" ∨
     type ∈ ["BUFFER"; "TOUCHES"; "INTERSECTS"; "AREA_FILTER"; "UNION"] ∧
     ∃ thrown, Library "coordinates must contain numbers" = Library thrown).
Proof.
  split; [reflexivity|].
  split; [reflexivity|].
  exact (proj2 (proj2
    (proj2 (proj2 (spatial_POST_turf_failure SampleRoutes.loadGeoJSONData
                     Sample.storeWithReef))
       (SpatialRoute.mkRequest (Some SampleRoutes.bufferWaters) None)
       "Failed to process spatial operation"
       (Library "coordinates must contain numbers") Sample.storeWithReef
       eq_refl eq_refl))).
Defined.

Lemma spatial_POST_success_witness :
  ∃ features,
    SpatialRoute.POST SampleRoutes.loadGeoJSONData Sample.store
      (Returns (Some (SpatialRoute.mkRequest
                        (Some (SampleRoutes.raw Sample.within50))
                        (Some "turf"))))
    = (SpatialRoute.Status200 "turf" "WITHIN" features 2 "turf",
       Sample.store) ∧
    2%nat = length features ∧
    "WITHIN" ∈ validOperations.
Proof.
  assert (∃ features,
    SpatialRoute.POST SampleRoutes.loadGeoJSONData Sample.store
      (Returns (Some (SpatialRoute.mkRequest
                        (Some (SampleRoutes.raw Sample.within50))
                        (Some "turf"))))
    = (SpatialRoute.Status200 "turf" "WITHIN" features 2 "turf",
       Sample.store)) as [features Hrun]
    by (vm_compute; eexists; reflexivity).
  exists features. split; [exact Hrun|].
  destruct (spatial_POST_success SampleRoutes.loadGeoJSONData Sample.store
              Sample.store
              (Returns (Some (SpatialRoute.mkRequest
                                (Some (SampleRoutes.raw Sample.within50))
                                (Some "turf"))))
              "turf" "WITHIN" "turf" features 2 Hrun)
    as (_ & _ & Hvalid & Hcount & _).
  split; [exact Hcount|exact Hvalid].
Defined.

Lemma query_POST_success_witness :
  ∃ answer,
    QueryRoute.POST SampleRoutes.ask SampleRoutes.loadGeoJSONData Sample.store
      (Returns (Some (str "cities near San Francisco")))
    = (QueryRoute.Status200 answer, Sample.store) ∧
    QueryRoute.method answer = "ai" ∧
    QueryRoute.operation answer = "WITHIN" ∧
    truthy (num (QueryRoute.confidence answer)) = true ∧
    processOperation_any
      (RawOperation.mk (Some (QueryRoute.operation answer))
         (QueryRoute.parameters answer) (Some (QueryRoute.layers answer)))
      (QueryRoute.layers answer ≫= SampleRoutes.loadGeoJSONData) Sample.store
      = Returns (QueryRoute.results answer, Sample.store).
Proof.
  assert (∃ answer,
    QueryRoute.POST SampleRoutes.ask SampleRoutes.loadGeoJSONData Sample.store
      (Returns (Some (str "cities near San Francisco")))
    = (QueryRoute.Status200 answer, Sample.store)) as [answer Hrun]
    by (vm_compute; eexists; reflexivity).
  exists answer. split; [exact Hrun|].
  destruct (query_POST_success SampleRoutes.ask SampleRoutes.loadGeoJSONData
              Sample.store Sample.store
              (Returns (Some (str "cities near San Francisco")))
              answer Hrun)
    as (q & aiResult & operation & type & Hq & _ & Hask & Hop & Htype &
        Hmethod & Hkind & _ & _ & Hconfidence & Hresults).
  injection Hq as <-. vm_compute in Hask. injection Hask as <-.
  vm_compute in Hop. injection Hop as <-.
  vm_compute in Htype. injection Htype as <-.
  split; [exact Hmethod|].
  split; [exact Hkind|].
  split; [exact Hconfidence|exact Hresults].
Defined.

Lemma query_POST_failure_witness :
  QueryRoute.POST SampleRoutes.ask SampleRoutes.loadGeoJSONData Sample.store
    (Throws (Error "Unexpected end of JSON input"))
  = (QueryRoute.Status500 "Internal server error"
       (Error "Unexpected end of JSON input"), Sample.store) ∧
  QueryRoute.POST SampleRoutes.ask SampleRoutes.loadGeoJSONData Sample.store
    (Returns (Some (str "rivers of Colorado")))
  = (QueryRoute.Status500 "Internal server error"
       (Error "Failed to interpret query as spatial operation"),
     Sample.store) ∧
  (Returns (Some (str "rivers of Colorado"))
     = Throws (Error "Failed to interpret query as spatial operation") ∨
   Error "Failed to interpret query as spatial operation"
     ∈ [Error "Failed to interpret query as spatial operation";
        TypeError;
        Error "Union operation requires at least 2 geometries";
        Error "Difference operation requires at least 2 geometries"] ∨
   ∃ thrown,
     Error "Failed to interpret query as spatial operation"
       = Library thrown).
Proof.
  split; [reflexivity|].
  split; [reflexivity|].
  exact (proj2 (proj2
    (query_POST_failure SampleRoutes.ask SampleRoutes.loadGeoJSONData
       Sample.store Sample.store (Returns (Some (str "rivers of Colorado")))
       "Internal server error"
       (Error "Failed to interpret query as spatial operation") eq_refl))).
Defined.

Lemma query_POST_near_is_within_witness :
  SampleRoutes.ask "cities near San Francisco" QueryRoute.AVAILABLE_LAYERS
    = Returns (Some SampleRoutes.reply) ∧
  QueryRoute.POST SampleRoutes.ask SampleRoutes.loadGeoJSONData Sample.store
    (Returns (Some (str "cities near San Francisco")))
  = QueryRoute.POST
      (fun _ _ =>
         Returns
           (Some (AIResult.mk
                    (Some (RawOperation.mk (Some "WITHIN")
                             (RawOperation.parameters SampleRoutes.near50)
                             (RawOperation.layers SampleRoutes.near50)))
                    (AIResult.explanation SampleRoutes.reply)
                    (AIResult.confidence SampleRoutes.reply))))
      SampleRoutes.loadGeoJSONData Sample.store
      (Returns (Some (str "cities near San Francisco"))).
Proof.
  split; [reflexivity|].
  exact (query_POST_near_is_within SampleRoutes.ask
           SampleRoutes.loadGeoJSONData Sample.store
           "cities near San Francisco" SampleRoutes.reply
           SampleRoutes.near50 eq_refl eq_refl eq_refl).
Defined.

Lemma query_POST_city_witness :
  nonEmpty "cities near San Francisco" = true ∧
  SampleRoutes.ask "cities near San Francisco" QueryRoute.AVAILABLE_LAYERS
    = Returns (Some SampleRoutes.reply) ∧
  QueryRoute.cityNameOf
    (<["targetGeometry" := str "San Francisco"]>
     (<["distance" := num 50]> (<["units" := str "miles"]> ∅)))
    = Some "San Francisco" ∧
  match
    (QueryRoute.POST SampleRoutes.ask SampleRoutes.loadGeoJSONData
       Sample.store (Returns (Some (str "cities near San Francisco")))).1
  with
  | QueryRoute.Status200 answer =>
      ∃ city,
        findFeatureByName (SampleRoutes.loadGeoJSONData "cities")
          "San Francisco" = Returns (Some city) ∧
        hasGeometry city ∧
        QueryRoute.operation answer = "WITHIN" ∧
        QueryRoute.parameters answer
          = Some (<["targetGeometry" := VFeature city]>
                    (<["targetGeometry" := str "San Francisco"]>
                     (<["distance" := num 50]>
                      (<["units" := str "miles"]> ∅))))
  | QueryRoute.Status400 text =>
      text = "Could not find city: " +:+ "San Francisco" ∧
      findFeatureByName (SampleRoutes.loadGeoJSONData "cities")
        "San Francisco" = Returns None
  | QueryRoute.Status500 text details => text = "Internal server error"
  end.
Proof.
  split; [reflexivity|].
  split; [reflexivity|].
  split; [reflexivity|].
  assert ("NEAR" ∈ ["WITHIN"; "NEAR"]) as Htype by in_list.
  exact (query_POST_city SampleRoutes.ask SampleRoutes.loadGeoJSONData
           Sample.store "cities near San Francisco" SampleRoutes.reply
           SampleRoutes.near50 "NEAR"
           (<["targetGeometry" := str "San Francisco"]>
            (<["distance" := num 50]> (<["units" := str "miles"]> ∅)))
           "San Francisco" eq_refl eq_refl eq_refl eq_refl Htype eq_refl
           eq_refl eq_refl).
Defined.
